(** * Locust: starboard and warn handlers of the Discord bot

    A shallow embedding of the event handlers of [src/index.ts], of the
    [/starboard] command ([saveConfig], [execute]) and of the [/warn]
    command ([src/commands/staff/warn.ts]), with the properties of the
    handlers proved over it.

    The handlers are JavaScript [async] functions that read and write two
    JSON files, keep one in-memory set on the client object and call the
    Discord client library.  They are embedded in a small monad [Js] that
    threads the process state ([World]), collects the calls made to the
    outside ([Effect]) in the order they are issued, and propagates thrown
    errors.  The answers of the platform (does a call reject?) are part of
    the event a handler receives.

    What is taken from the libraries and not from the repository:
    - [JSON.parse (JSON.stringify xs)] is [xs] for an array of records whose
      fields are strings, booleans and integers, an absent optional field
      staying absent; a file is therefore kept as the value it parses to;
    - the records in an array that is read have the fields of their
      interface;
    - a regular expression is matched from left to right with greedy
      quantifiers, and a [Set] keeps the order of first insertion;
    - the channel types and the tests [isTextBased] and [isThread] of the
      client library;
    - the limits that the [EmbedBuilder] of the client library checks when
      an embed is built, where the text comes from the user of a command: a
      description of 1 to 4096 characters, a field value of 1 to 1024.  A
      character of a string here stands for one UTF-16 code unit of the
      JavaScript string. *)

From Stdlib Require Import ZArith Ascii String.
From stdpp Require Import base list strings pretty gmap.

Open Scope string_scope.
Open Scope list_scope.

(** ** Data model *)

(** [interface StarboardConfig] of [src/index.ts] and of the starboard
    command.  The two optional fields are [undefined] when absent. *)
Record StarboardConfig := mkStarboardConfig {
  guildId : string;
  channelIds : list string;
  emoji : string;
  onlyAttachments : bool;
  autoThread : bool;
  hallOfFameChannelId : option string;
  threshold : option Z
}.

(** [Omit<StarboardConfig, 'guildId'>], the argument of [saveConfig]. *)
Record ConfigData := mkConfigData {
  cd_channelIds : list string;
  cd_emoji : string;
  cd_onlyAttachments : bool;
  cd_autoThread : bool;
  cd_hallOfFameChannelId : option string;
  cd_threshold : option Z
}.

(** The object literal [{ caseId, userId, staffId, reason, timestamp }] of
    [warn.ts]. *)
Record Warning := mkWarning {
  caseId : string;
  userId : string;
  staffId : string;
  reason : string;
  timestamp : string
}.

#[global] Instance StarboardConfig_eq_dec : EqDecision StarboardConfig.
Proof. solve_decision. Defined.

#[global] Instance Warning_eq_dec : EqDecision Warning.
Proof. solve_decision. Defined.

(** *** Files

    The text of a file is kept by what [JSON.parse] makes of it: a text
    that is empty or only white space ([rawData.trim()] is the empty
    string), another text that [JSON.parse] rejects, or a JSON text.  A JSON
    text is the array of records that [JSON.stringify] wrote, or some other
    JSON value, which has none of the array methods the handlers call. *)
Inductive JsonValue (A : Type) : Type :=
| JArray (xs : list A)
| JOther.
Arguments JArray {A} xs.
Arguments JOther {A}.

Inductive FileText (A : Type) : Type :=
| Blank
| Garbage
| Json (v : JsonValue A).
Arguments Blank {A}.
Arguments Garbage {A}.
Arguments Json {A} v.

(** The directory [data/] with its two files; [None] is a missing file. *)
Record DataDir := mkDataDir {
  starboard_json : option (FileText StarboardConfig);
  warnings_json : option (FileText Warning)
}.

(** The state a process of the bot works on: the directory [data/] ([None]
    when it does not exist) and [client.postedToHallOfFame], the set that
    [index.ts] creates empty at start-up and never replaces. *)
Record World := mkWorld {
  dataDir : option DataDir;
  postedToHallOfFame : gset string
}.

Definition emptyDataDir : DataDir :=
  {| starboard_json := None; warnings_json := None |}.

(** The state of a process that has just started. *)
Definition startup (d : option DataDir) : World :=
  {| dataDir := d; postedToHallOfFame := ∅ |}.

(** *** Calls to the outside *)

Inductive JsError : Type :=
| SyntaxError      (* JSON.parse *)
| TypeError        (* a method that the value does not have *)
| ENOENT           (* a file operation in a directory that is missing *)
| ApiError         (* a rejected call of the client library *)
| ValidationError. (* a text that a builder of the client library refuses *)

(** The summary embed of the Hall-of-Fame repost. *)
Record Embed := mkEmbed {
  embed_author_name : string;
  embed_author_icon : string;
  embed_description : option string;
  embed_footer_emoji : string;
  embed_footer_count : Z;
  embed_footer_url : string;
  embed_image : option string
}.

(** The two files under [data/]. *)
Inductive DataFile : Type := StarboardJson | WarningsJson.

Inductive Effect : Type :=
| WriteFile (file : DataFile)
| MkDir
| React (messageId emoji : string)
| ThreadCreate (channelId startMessage name : string)
| FetchReaction (messageId : string)
| FetchMessage (messageId : string)
| HofSend (channelId messageId : string) (e : Embed)
| Reply (content : string) (ephemeral : bool)
| ReplyWarned (target staff reason caseId : string)
| DirectMessage (target reason caseId : string)
| ConsoleError (text : string)
| ConsoleWarn (text : string).

(** ** The monad of the handlers *)

Inductive Outcome (A : Type) : Type :=
| Value (a : A)
| Thrown (err : JsError).
Arguments Value {A} a.
Arguments Thrown {A} err.

Definition Js (A : Type) : Type := World → Outcome A * World * list Effect.

Definition ret {A} (a : A) : Js A := λ w, (Value a, w, []).

Definition bind {A B} (m : Js A) (k : A → Js B) : Js B := λ w,
  match m w with
  | (Value a, w1, t1) =>
      match k a w1 with
      | (r, w2, t2) => (r, w2, t1 ++ t2)
      end
  | (Thrown e, w1, t1) => (Thrown e, w1, t1)
  end.

Definition throw {A} (e : JsError) : Js A := λ w, (Thrown e, w, []).

(** [try { body } catch (err) { handler err }] *)
Definition try_catch {A} (body : Js A) (handler : JsError → Js A) : Js A := λ w,
  match body w with
  | (Value a, w1, t1) => (Value a, w1, t1)
  | (Thrown e, w1, t1) =>
      match handler e w1 with
      | (r, w2, t2) => (r, w2, t1 ++ t2)
      end
  end.

Definition emit (e : Effect) : Js unit := λ w, (Value tt, w, [e]).

(** An awaited call of the client library: the call is issued, and the
    promise rejects when the platform's answer [ok] is [false]. *)
Definition extern (e : Effect) (ok : bool) : Js unit := λ w,
  (if ok then Value tt else Thrown ApiError, w, [e]).

Definition getWorld : Js World := λ w, (Value w, w, []).

Notation "'let*' x ':=' m 'in' k" := (bind m (λ x, k))
  (at level 10, x name, m at level 100, k at level 200).
Notation "'do' m 'then' k" := (bind m (λ _, k))
  (at level 10, m at level 100, k at level 200).

Definition outcome {A} (r : Outcome A * World * list Effect) : Outcome A := r.1.1.
Definition world_after {A} (r : Outcome A * World * list Effect) : World := r.1.2.
Definition trace {A} (r : Outcome A * World * list Effect) : list Effect := r.2.

(** ** File operations *)

(** [JSON.parse]: throws a [SyntaxError] on a text that is not JSON. *)
Definition JSON_parse {A} (t : FileText A) : Js (JsonValue A) :=
  match t with
  | Json v => ret v
  | Blank | Garbage => throw SyntaxError
  end.

(** [JSON.stringify(xs, null, 2)] of an array of records. *)
Definition JSON_stringify {A} (xs : list A) : FileText A := Json (JArray xs).

(** [rawData.trim()] as a condition. *)
Definition trim_nonempty {A} (t : FileText A) : bool :=
  match t with
  | Blank => false
  | _ => true
  end.

(** An array method ([find], [filter], [push]) called on a parsed value:
    a [TypeError] when the value is not an array. *)
Definition as_array {A} (v : JsonValue A) : Js (list A) :=
  match v with
  | JArray xs => ret xs
  | JOther => throw TypeError
  end.

(** [fs.existsSync] and [fs.readFileSync] of [data/starboard.json]. *)
Definition starboard_file (w : World) : option (FileText StarboardConfig) :=
  d ← dataDir w; starboard_json d.

(** The same for [data/warnings.json]. *)
Definition warnings_file (w : World) : option (FileText Warning) :=
  d ← dataDir w; warnings_json d.

(** [fs.writeFileSync(configPath, text)]: fails when [data/] is missing.
    The call is recorded as an effect, whether it fails or not. *)
Definition write_starboard (t : FileText StarboardConfig) : Js unit := λ w,
  match dataDir w with
  | Some d =>
      (Value tt,
       {| dataDir := Some {| starboard_json := Some t;
                             warnings_json := warnings_json d |};
          postedToHallOfFame := postedToHallOfFame w |},
       [WriteFile StarboardJson])
  | None => (Thrown ENOENT, w, [WriteFile StarboardJson])
  end.

Definition write_warnings (t : FileText Warning) : Js unit := λ w,
  match dataDir w with
  | Some d =>
      (Value tt,
       {| dataDir := Some {| starboard_json := starboard_json d;
                             warnings_json := Some t |};
          postedToHallOfFame := postedToHallOfFame w |},
       [WriteFile WarningsJson])
  | None => (Thrown ENOENT, w, [WriteFile WarningsJson])
  end.

(** [if (!fs.existsSync(dataDir)) fs.mkdirSync(dataDir)] of [warn.ts]. *)
Definition ensure_dataDir : Js unit := λ w,
  match dataDir w with
  | Some _ => (Value tt, w, [])
  | None =>
      (Value tt,
       {| dataDir := Some emptyDataDir;
          postedToHallOfFame := postedToHallOfFame w |}, [MkDir])
  end.

(** [loadStarboardConfigs] of [src/index.ts]. *)
Definition loadStarboardConfigs : Js (JsonValue StarboardConfig) :=
  let* w := getWorld in
  match starboard_file w with
  | None => ret (JArray [])
  | Some text =>
      try_catch (JSON_parse text)
        (λ err,
           do emit (ConsoleError "Error loading starboard configs:") then
           ret (JArray []))
  end.

(** The object literal [{ guildId, ...data }]. *)
Definition with_guildId (guild : string) (data : ConfigData) : StarboardConfig :=
  {| guildId := guild;
     channelIds := cd_channelIds data;
     emoji := cd_emoji data;
     onlyAttachments := cd_onlyAttachments data;
     autoThread := cd_autoThread data;
     hallOfFameChannelId := cd_hallOfFameChannelId data;
     threshold := cd_threshold data |}.

(** [saveConfig] of the starboard command. *)
Definition saveConfig (guild : string) (data : ConfigData) : Js unit :=
  let* w := getWorld in
  let* parsed := match starboard_file w with
                 | Some text => JSON_parse text
                 | None => ret (JArray [])
                 end in
  let* configs := as_array parsed in
  let configs := filter (λ c, guildId c ≠ guild) configs in
  let configs := configs ++ [with_guildId guild data] in
  write_starboard (JSON_stringify configs).

(** ** The objects of the client library that the handlers look at *)

(** [ChannelType] of the client library. *)
Inductive ChannelType : Type :=
| GuildText | DM | GuildVoice | GroupDM | GuildCategory | GuildAnnouncement
| AnnouncementThread | PublicThread | PrivateThread | GuildStageVoice
| GuildDirectory | GuildForum | GuildMedia.

#[global] Instance ChannelType_eq_dec : EqDecision ChannelType.
Proof. solve_decision. Defined.

(** [channel.isTextBased()]: the channel types that hold messages. *)
Definition isTextBased (t : ChannelType) : bool :=
  match t with
  | GuildText | DM | GuildVoice | GroupDM | GuildAnnouncement
  | AnnouncementThread | PublicThread | PrivateThread | GuildStageVoice => true
  | GuildCategory | GuildDirectory | GuildForum | GuildMedia => false
  end.

(** [channel.isThread()]. *)
Definition isThread (t : ChannelType) : bool :=
  match t with
  | AnnouncementThread | PublicThread | PrivateThread => true
  | _ => false
  end.

(** [channel instanceof TextChannel]; [chan?.type === ChannelType.GuildText]. *)
Definition isTextChannel (t : ChannelType) : bool :=
  bool_decide (t = GuildText).

(** A guild with [guild.channels.cache], a map from channel id to channel. *)
Record Guild := mkGuild {
  guild_id : string;
  channels_cache : gmap string ChannelType
}.

Record User := mkUser {
  user_bot : bool;
  user_tag : string;
  user_avatarURL : string
}.

Record Attachment := mkAttachment {
  att_contentType : option string;
  att_url : string
}.

(** A message as a handler sees it; [fetch()] completes a partial message
    in place, and the fields below are those read after the fetch. *)
Record Message := mkMessage {
  m_id : string;
  m_partial : bool;
  m_author : option User;
  m_guildId : option string;
  m_guild : option Guild;
  m_channelId : string;
  m_channelType : ChannelType;
  m_attachments : list Attachment;
  m_hasThread : bool;
  m_content : string;
  m_url : string
}.

(** JavaScript truthiness of a string and of a number. *)
Definition truthy_string (s : string) : bool := negb (bool_decide (s = "")).
Definition truthy_number (n : Z) : bool := negb (bool_decide (n = 0%Z)).

(** [a || b] on strings. *)
Definition or_else (a b : string) : string := if truthy_string a then a else b.

(** ** The message-create handler *)

(** A message-create event: the message, and whether the platform accepts
    the reaction and the thread. *)
Record MessageCreateEvent := mkMessageCreateEvent {
  mc_message : Message;
  mc_react_ok : bool;
  mc_thread_ok : bool
}.

Definition thread_name (cfg : StarboardConfig) : string :=
  "Discussion – " +:+ emoji cfg.

(** [client.on(Events.MessageCreate, ...)] of [src/index.ts]. *)
Definition onMessageCreate (ev : MessageCreateEvent) : Js unit :=
  let message := mc_message ev in
  let* author := match m_author message with
                 | Some u => ret u
                 | None => throw TypeError
                 end in
  if user_bot author || negb (bool_decide (is_Some (m_guild message)))
  then ret tt else
  let* parsed := loadStarboardConfigs in
  let* configs := as_array parsed in
  match find (λ c, bool_decide (Some (guildId c) = m_guildId message)) configs with
  | None => ret tt
  | Some cfg =>
      if negb (bool_decide (m_channelId message ∈ channelIds cfg)) then ret tt else
      if onlyAttachments cfg && bool_decide (length (m_attachments message) = 0)
      then ret tt else
      do try_catch
           (extern (React (m_id message) (emoji cfg)) (mc_react_ok ev))
           (λ e, emit (ConsoleError "Starboard reaction failed")) then
      if autoThread cfg && isTextChannel (m_channelType message) then
        try_catch
          (extern (ThreadCreate (m_channelId message) (m_id message) (thread_name cfg))
                  (mc_thread_ok ev))
          (λ e, emit (ConsoleError "Thread creation failed"))
      else ret tt
  end.

(** ** The reaction-add handler *)

(** A reaction-add event: the reaction with its message, and the answers
    of the platform to the calls the handler may make. *)
Record ReactionAddEvent := mkReactionAddEvent {
  ra_user_bot : bool;
  ra_partial : bool;
  ra_emoji : string;
  ra_count : option Z;
  ra_message : Message;
  ra_reaction_fetch_ok : bool;
  ra_partial_fetch_ok : bool;
  ra_message_fetch_ok : bool;
  ra_thread_ok : bool;
  ra_send_ok : bool
}.

(** The embed built for the repost. *)
Definition hof_embed (cfg : StarboardConfig) (count : Z) (fullMsg : Message)
    (msgAuthor : User) : Embed :=
  {| embed_author_name := or_else (user_tag msgAuthor) "Unknown User";
     embed_author_icon := user_avatarURL msgAuthor;
     embed_description :=
       if truthy_string (m_content fullMsg) then Some (m_content fullMsg) else None;
     embed_footer_emoji := emoji cfg;
     embed_footer_count := count;
     embed_footer_url := m_url fullMsg;
     embed_image :=
       match m_attachments fullMsg with
       | a :: _ =>
           match att_contentType a with
           | Some ct => if String.prefix "image" ct then Some (att_url a) else None
           | None => None
           end
       | [] => None
       end |}.

(** [client.postedToHallOfFame?.add(id)]. *)
Definition markPosted (id : string) : Js unit := λ w,
  (Value tt,
   {| dataDir := dataDir w;
      postedToHallOfFame := {[ id ]} ∪ postedToHallOfFame w |}, []).

(** The handler runs in three parts.  [starboardReaction] is the part up to
    the Hall-of-Fame logic (lines 172 to 233): it reads the configs when the
    event is delivered and gives the config and the fetched message when the
    handler gets as far as line 236.  [hallOfFame_send] is lines 236 to 278:
    from the test of [postedToHallOfFame] to the call of [textChan.send]
    nothing is awaited, so no other handler runs in between; it gives the
    message id when the send was accepted.  [markPosted] is line 281, which
    runs once the awaited send has returned. *)

Definition starboardReaction (ev : ReactionAddEvent)
    : Js (option (StarboardConfig * Message)) :=
  if ra_user_bot ev then ret None else
  let* parsed := loadStarboardConfigs in
  let msg := ra_message ev in
  let* fetched :=
    if ra_partial ev then
      try_catch
        (do extern (FetchReaction (m_id msg)) (ra_reaction_fetch_ok ev) then ret true)
        (λ e, do emit (ConsoleError "Something went wrong when fetching the reaction:")
              then ret false)
    else ret true in
  if negb fetched then ret None else
  match m_guild msg with
  | None => ret None
  | Some guild =>
      if negb (truthy_string (guild_id guild)) then ret None else
      let* configs := as_array parsed in
      match find (λ c, bool_decide (guildId c = guild_id guild)) configs with
      | None => ret None
      | Some cfg =>
          if negb (bool_decide (ra_emoji ev = emoji cfg)) then ret None else
          let* fetched :=
            if m_partial msg then
              try_catch
                (do extern (FetchMessage (m_id msg)) (ra_partial_fetch_ok ev) then ret true)
                (λ e, do emit (ConsoleError "Something went wrong when fetching the message:")
                      then ret false)
            else ret true in
          if negb fetched then ret None else
          if negb (truthy_string (m_channelId msg)) then ret None else
          if negb (bool_decide (m_channelId msg ∈ channelIds cfg)) then ret None else
          do extern (FetchMessage (m_id msg)) (ra_message_fetch_ok ev) then
          let fullMsg := msg in
          if onlyAttachments cfg && bool_decide (length (m_attachments fullMsg) = 0)
          then ret None else
          do (if autoThread cfg && isTextChannel (m_channelType fullMsg)
                 && negb (m_hasThread fullMsg)
              then
                try_catch
                  (extern (ThreadCreate (m_channelId fullMsg) (m_id fullMsg)
                             (thread_name cfg))
                          (ra_thread_ok ev))
                  (λ e, emit (ConsoleError "Thread creation failed"))
              else ret tt) then
          ret (Some (cfg, fullMsg))
      end
  end.

Definition hallOfFame_send (ev : ReactionAddEvent) (cfg : StarboardConfig)
    (fullMsg : Message) : Js (option string) :=
  match hallOfFameChannelId cfg, threshold cfg with
  | Some hofId, Some thr =>
      if truthy_string hofId && truthy_number thr then
        let count := default 0%Z (ra_count ev) in
        if (thr <=? count)%Z then
          let* w := getWorld in
          if bool_decide (m_id fullMsg ∈ postedToHallOfFame w) then ret None else
          match m_guild fullMsg with
          | None => ret None
          | Some guild =>
              match channels_cache guild !! hofId with
              | None => ret None
              | Some hofChan =>
                  if negb (isTextBased hofChan) || isThread hofChan then ret None else
                  match m_author fullMsg with
                  | None =>
                      do emit (ConsoleError "Message author is null") then ret None
                  | Some msgAuthor =>
                      let embed := hof_embed cfg count fullMsg msgAuthor in
                      do extern (HofSend hofId (m_id fullMsg) embed) (ra_send_ok ev) then
                      ret (Some (m_id fullMsg))
                  end
              end
          end
        else ret None
      else ret None
  | _, _ => ret None
  end.

Definition hallOfFame_mark (sent : option string) : Js unit :=
  match sent with
  | Some id => markPosted id
  | None => ret tt
  end.

(** [client.on(Events.MessageReactionAdd, ...)] of [src/index.ts], run from
    its first line to its last. *)
Definition onMessageReactionAdd (ev : ReactionAddEvent) : Js unit :=
  let* reached := starboardReaction ev in
  match reached with
  | Some (cfg, fullMsg) =>
      let* sent := hallOfFame_send ev cfg fullMsg in
      hallOfFame_mark sent
  | None => ret tt
  end.

(** ** The [/warn] command *)

Record Role := mkRole { role_name : string }.

Record GuildMember := mkGuildMember {
  member_id : string;
  member_roles : list Role;
  member_user : User
}.

(** A [/warn] invocation.  [wi_staff] is [interaction.member], which the
    command takes [as GuildMember]: it is [null] when the command is used
    in a direct message, where the command is available, since it is
    registered for all guilds without [setDMPermission(false)].
    [wi_target] is [getMember('user')], [null] when the user is not a
    member of the guild.  The case id drawn from [Math.random()] and the
    time read from the clock are given with the invocation. *)
Record WarnInteraction := mkWarnInteraction {
  wi_staff : option GuildMember;
  wi_target : option GuildMember;
  wi_reason : string;
  wi_caseId : string;
  wi_now : string;
  wi_dm_ok : bool;
  wi_reply_ok : bool
}.

Definition permission_denied : string :=
  "❌ You don’t have permission to use this command.".
Definition invalid_target : string := "❌ Invalid target.".

(** The record that a [/warn] invocation appends for its target. *)
Definition warning_of (i : WarnInteraction) (target staff : GuildMember) : Warning :=
  {| caseId := wi_caseId i;
     userId := member_id target;
     staffId := member_id staff;
     reason := wi_reason i;
     timestamp := wi_now i |}.

(** [`${member}`]: the mention of a guild member. *)
Definition mention (m : GuildMember) : string := "<@" +:+ member_id m +:+ ">".

(** The description of the embed of the direct message (line 80). *)
Definition dm_description (reason caseId : string) : string :=
  "**Reason:** " +:+ reason +:+ String (ascii_of_nat 10) ("**Case ID:** " +:+ caseId).

(** What [setDescription] accepts. *)
Definition description_ok (s : string) : bool :=
  (1 <=? String.length s)%nat && (String.length s <=? 4096)%nat.

(** What [addFields] accepts as the value of a field. *)
Definition field_value_ok (s : string) : bool :=
  (1 <=? String.length s)%nat && (String.length s <=? 1024)%nat.

(** [new EmbedBuilder().setDescription(s)]: the builder throws on a
    description that it does not accept. *)
Definition setDescription (s : string) : Js unit :=
  if description_ok s then ret tt else throw ValidationError.

(** [new EmbedBuilder().addFields(...)], by the values of the fields (the
    names are constants of the code that the builder accepts). *)
Definition addFields (values : list string) : Js unit :=
  if forallb field_value_ok values then ret tt else throw ValidationError.

(** The values of the four fields of the confirmation (lines 95 to 98). *)
Definition warned_fields (i : WarnInteraction) (target staff : GuildMember)
    : list string :=
  [mention target; mention staff; wi_reason i; wi_caseId i].

(** Lines 48 to 60 of [warn.ts]: the warnings read from the file. *)
Definition readWarnings : Js (JsonValue Warning) :=
  let* w := getWorld in
  match warnings_file w with
  | Some rawData =>
      if trim_nonempty rawData then
        try_catch (JSON_parse rawData)
          (λ err,
             do emit (ConsoleError "Error parsing JSON from warnings file:") then
             ret (JArray []))
      else ret (JArray [])
  | None => ret (JArray [])
  end.

(** [execute] of [src/commands/staff/warn.ts]. *)
Definition warn_execute (i : WarnInteraction) : Js unit :=
  match wi_staff i with
  | None => throw TypeError      (* [staff.roles] of [null], line 33 *)
  | Some staff =>
  if negb (existsb (λ role, bool_decide (role_name role = "Staff")) (member_roles staff))
  then extern (Reply permission_denied true) (wi_reply_ok i) else
  match wi_target i with
  | None => extern (Reply invalid_target true) (wi_reply_ok i)
  | Some target =>
      if user_bot (member_user target)
      then extern (Reply invalid_target true) (wi_reply_ok i) else
      do ensure_dataDir then
      let* warnings := readWarnings in
      let warning := warning_of i target staff in
      let* warnings := as_array warnings in
      do write_warnings (JSON_stringify (warnings ++ [warning])) then
      do try_catch
           (do setDescription (dm_description (wi_reason i) (wi_caseId i)) then
            extern (DirectMessage (member_id target) (wi_reason i) (wi_caseId i))
                   (wi_dm_ok i))
           (λ err, emit (ConsoleWarn ("Could not DM " +:+ user_tag (member_user target) +:+ "."))) then
      do addFields (warned_fields i target staff) then
      extern (ReplyWarned (member_id target) (member_id staff) (wi_reason i) (wi_caseId i))
             (wi_reply_ok i)
  end
  end.

(** ** The [/starboard] command *)

(** [\d] of a regular expression without the [u] flag. *)
Definition is_digit (c : ascii) : bool :=
  (("0" <=? c) && (c <=? "9"))%char.

(** The number of digits at the head of the text. *)
Fixpoint digit_run (s : list ascii) : nat :=
  match s with
  | c :: s' => if is_digit c then S (digit_run s') else 0
  | [] => 0
  end.

(** One attempt of [\d{17,19}] at the head of the text: the quantifier is
    greedy, so it takes as many digits as there are, up to 19, and fails
    below 17. The result is the length of the match. *)
Definition match_here (s : list ascii) : option nat :=
  let k := digit_run s `min` 19 in
  if (17 <=? k)%nat then Some k else None.

(** The matches of [/(\d{17,19})/g] from left to right.  [skip] is the
    number of characters up to [lastIndex]: after a match the search goes
    on behind it, after a failed attempt one character further. *)
Fixpoint scan (skip : nat) (s : list ascii) : list (list ascii) :=
  match s with
  | [] => []
  | _ :: s' =>
      match skip with
      | S k => scan k s'
      | 0 =>
          match match_here s with
          | Some k => take k s :: scan (k - 1) s'
          | None => scan 0 s'
          end
      end
  end.

(** [Array.from(channelsInput.matchAll(/(\d{17,19})/g), m => m[1])] *)
Definition matchAll (channelsInput : string) : list string :=
  string_of_list_ascii <$> scan 0 (list_ascii_of_string channelsInput).

(** [Array.from(new Set(xs))]: a [Set] keeps its elements in the order of
    their first insertion, and adding an element it has changes nothing. *)
Definition set_add (acc : list string) (x : string) : list string :=
  if bool_decide (x ∈ acc) then acc else acc ++ [x].

Definition array_from_set (xs : list string) : list string :=
  foldl set_add [] xs.

(** A [/starboard] invocation: the options, the guild and whether the
    platform accepts the reply. *)
Record StarboardInteraction := mkStarboardInteraction {
  si_guildId : string;
  si_channels : string;
  si_emoji : string;
  si_only_attachments : option bool;
  si_auto_thread : option bool;
  si_hall_of_fame : option string;
  si_threshold : option Z;
  si_guild : option Guild;
  si_reply_ok : bool
}.

Definition no_valid_channels : string :=
  "❌ No valid text channels found in your input.".

(** [ids] of [execute]: the identifiers found in the input. *)
Definition extract_ids (channelsInput : string) : list string :=
  array_from_set (matchAll channelsInput).

(** The loop of [execute] that fills [validChannelIds]. *)
Definition valid_channel (guild : option Guild) (id : string) : bool :=
  match guild with
  | Some g =>
      match channels_cache g !! id with
      | Some chan => isTextChannel chan
      | None => false
      end
  | None => false
  end.

Definition validChannelIds (i : StarboardInteraction) : list string :=
  List.filter (valid_channel (si_guild i)) (extract_ids (si_channels i)).

Definition show_bool (b : bool) : string := if b then "true" else "false".

Definition join (sep : string) (xs : list string) : string :=
  match xs with
  | [] => ""
  | x :: r => foldl (λ acc y, acc +:+ sep +:+ y) x r
  end.

Definition newline : string := String (ascii_of_nat 10) EmptyString.

(** [execute] of the starboard command. *)
Definition starboard_execute (i : StarboardInteraction) : Js unit :=
  let onlyAttachments := default false (si_only_attachments i) in
  let autoThread := default false (si_auto_thread i) in
  let valid := validChannelIds i in
  if bool_decide (length valid = 0)
  then extern (Reply no_valid_channels false) (si_reply_ok i) else
  let configData :=
    {| cd_channelIds := valid;
       cd_emoji := si_emoji i;
       cd_onlyAttachments := onlyAttachments;
       cd_autoThread := autoThread;
       cd_hallOfFameChannelId := si_hall_of_fame i;
       cd_threshold := si_threshold i |} in
  do saveConfig (si_guildId i) configData then
  let lines :=
    [ "✅ Starboard configured for channels: "
        +:+ join " " ((λ id, "<#" +:+ id +:+ ">") <$> valid);
      "• Emoji: " +:+ si_emoji i;
      "• Only attachments: " +:+ show_bool onlyAttachments;
      "• Auto-thread: " +:+ show_bool autoThread ]
    ++ match si_hall_of_fame i with
       | Some id => ["• Hall of Fame: <#" +:+ id +:+ ">"]
       | None => []
       end
    ++ match si_threshold i with
       | Some t => if truthy_number t
                   then ["• Threshold: " +:+ pretty t +:+ " reactions"] else []
       | None => []
       end in
  extern (Reply (join newline lines) false) (si_reply_ok i).

(** ** Events of a process *)

Inductive Event : Type :=
| MessageCreate (ev : MessageCreateEvent)
| MessageReactionAdd (ev : ReactionAddEvent)
| WarnCommand (i : WarnInteraction)
| StarboardCommand (i : StarboardInteraction).

Definition command_failed : string :=
  "❌ There was an error running that command.".

(** [client.on(Events.InteractionCreate, ...)] of [src/index.ts], for a
    chat-input command that was loaded.  The commands reply as their last
    step, so when [execute] throws no reply has been accepted,
    [interaction.replied] is false and the error goes out as a reply. *)
Definition onInteractionCreate (commandName : string) (execute : Js unit)
    (reply_ok : bool) : Js unit :=
  try_catch execute
    (λ err,
       do emit (ConsoleError ("Error executing " +:+ commandName)) then
       extern (Reply command_failed true) reply_ok).

Definition handle (e : Event) : Js unit :=
  match e with
  | MessageCreate ev => onMessageCreate ev
  | MessageReactionAdd ev => onMessageReactionAdd ev
  | WarnCommand i => onInteractionCreate "warn" (warn_execute i) (wi_reply_ok i)
  | StarboardCommand i =>
      onInteractionCreate "starboard" (starboard_execute i) (si_reply_ok i)
  end.

(** The handlers of a list of events, one after the other.  A handler that
    throws ends there; the process goes on with the next event. *)
Fixpoint run (es : list Event) (w : World) : World * list Effect :=
  match es with
  | [] => (w, [])
  | e :: es' =>
      match handle e w with
      | (_, w1, t1) =>
          match run es' w1 with
          | (w2, t2) => (w2, t1 ++ t2)
          end
      end
  end.

(** *** Handlers in flight

    The handlers are [async]: at an [await] a handler is suspended and the
    handlers of other events run.  For the reaction-add handler the two
    places where a suspended handler comes back to the shared set are kept:
    a handler that has reached line 236 and has yet to test the set, and a
    handler whose send was accepted and that has yet to record the id. *)
Inductive Task : Type :=
| AtHallOfFame (ev : ReactionAddEvent) (cfg : StarboardConfig) (fullMsg : Message)
| AtMarkPosted (id : string).

Record Process := mkProcess {
  proc_world : World;
  proc_tasks : list Task
}.

(** What happens next in the process: an event is delivered, or the
    suspended handler at position [i] goes on. *)
Inductive Action : Type :=
| Deliver (e : Event)
| Resume (i : nat).

Definition spawn (reached : Outcome (option (StarboardConfig * Message)))
    (ev : ReactionAddEvent) : list Task :=
  match reached with
  | Value (Some (cfg, fullMsg)) => [AtHallOfFame ev cfg fullMsg]
  | _ => []
  end.

Definition after_send (sent : Outcome (option string)) : list Task :=
  match sent with
  | Value (Some id) => [AtMarkPosted id]
  | _ => []
  end.

Definition step (a : Action) (p : Process) : Process * list Effect :=
  match a with
  | Deliver (MessageReactionAdd ev) =>
      match starboardReaction ev (proc_world p) with
      | (r, w, t) =>
          ({| proc_world := w; proc_tasks := proc_tasks p ++ spawn r ev |}, t)
      end
  | Deliver e =>
      match handle e (proc_world p) with
      | (_, w, t) => ({| proc_world := w; proc_tasks := proc_tasks p |}, t)
      end
  | Resume i =>
      match proc_tasks p !! i with
      | Some (AtHallOfFame ev cfg fullMsg) =>
          match hallOfFame_send ev cfg fullMsg (proc_world p) with
          | (r, w, t) =>
              ({| proc_world := w;
                  proc_tasks := take i (proc_tasks p) ++ after_send r
                                  ++ drop (S i) (proc_tasks p) |}, t)
          end
      | Some (AtMarkPosted id) =>
          match markPosted id (proc_world p) with
          | (_, w, t) =>
              ({| proc_world := w;
                  proc_tasks := take i (proc_tasks p) ++ drop (S i) (proc_tasks p) |}, t)
          end
      | None => (p, [])
      end
  end.

Fixpoint schedule (acts : list Action) (p : Process) : Process * list Effect :=
  match acts with
  | [] => (p, [])
  | a :: acts' =>
      match step a p with
      | (p1, t1) =>
          match schedule acts' p1 with
          | (p2, t2) => (p2, t1 ++ t2)
          end
      end
  end.

(** The actions of a process in which every handler ends before the next
    event is delivered. *)
Definition one_by_one (es : list Event) : list Action :=
  e ← es; [Deliver e; Resume 0; Resume 0].

(** ** Notions used in the statements *)

(** The caller holds a role named ["Staff"]. *)
Definition has_staff_role (m : GuildMember) : Prop :=
  ∃ role, role ∈ member_roles m ∧ role_name role = "Staff".

(** The target is a member of the guild and not a bot. *)
Definition valid_target (t : option GuildMember) : Prop :=
  ∃ m, t = Some m ∧ user_bot (member_user m) = false.

(** An invocation that passes both checks of [/warn]: made in a guild, by
    a member with the role, for a valid target. *)
Definition accepted (i : WarnInteraction) : Prop :=
  (∃ staff, wi_staff i = Some staff ∧ has_staff_role staff)
  ∧ valid_target (wi_target i).

(** The warning record of an invocation with a caller and a target. *)
Definition warn_record (i : WarnInteraction) : option Warning :=
  match wi_target i, wi_staff i with
  | Some target, Some staff => Some (warning_of i target staff)
  | _, _ => None
  end.

(** The confirmation of an invocation can be built: the four field values
    are accepted. *)
Definition confirmation_fits (i : WarnInteraction) (target staff : GuildMember) : bool :=
  forallb field_value_ok (warned_fields i target staff).

(** The embed of the direct message can be built. *)
Definition dm_fits (i : WarnInteraction) : bool :=
  description_ok (dm_description (wi_reason i) (wi_caseId i)).

(** Reloading [warnings.json]: the read of lines 48 to 60, as an array. *)
Definition reloadWarnings : Js (list Warning) :=
  let* parsed := readWarnings in as_array parsed.

(** The config that the message-create handler finds for a message. *)
Definition config_for (w : World) (message : Message) : option StarboardConfig :=
  match loadStarboardConfigs w with
  | (Value (JArray configs), _, _) =>
      find (λ c, bool_decide (Some (guildId c) = m_guildId message)) configs
  | _ => None
  end.

(** A message that the message-create handler reacts to under [cfg]: sent by
    a user in a guild, in a monitored channel, with the attachments rule
    satisfied. *)
Definition qualifies (w : World) (message : Message) (cfg : StarboardConfig) : Prop :=
  (∃ author, m_author message = Some author ∧ user_bot author = false)
  ∧ is_Some (m_guild message)
  ∧ config_for w message = Some cfg
  ∧ m_channelId message ∈ channelIds cfg
  ∧ (onlyAttachments cfg = true → m_attachments message ≠ []).

Definition is_react_of (messageId : string) (e : Effect) : bool :=
  match e with
  | React id _ => bool_decide (id = messageId)
  | _ => false
  end.

(** The number of reaction-add calls made for a message. *)
Definition reaction_calls (messageId : string) (t : list Effect) : nat :=
  length (List.filter (is_react_of messageId) t).

(** The calls the message-create handler may make: the reaction, the
    thread creation and the console. *)
Definition reaction_thread_or_console (e : Effect) : Prop :=
  match e with
  | React _ _ | ThreadCreate _ _ _ | ConsoleError _ => True
  | _ => False
  end.

Definition is_console_error (e : Effect) : bool :=
  match e with
  | ConsoleError _ => true
  | _ => false
  end.

(** The list without its repeated elements, each element at the place of
    its first occurrence. *)
Fixpoint first_occurrences (xs : list string) : list string :=
  match xs with
  | [] => []
  | x :: r => x :: filter (λ y, y ≠ x) (first_occurrences r)
  end.

(** A text of decimal digits only. *)
Definition all_digits (s : string) : Prop :=
  Forall (λ c, is_digit c = true) (list_ascii_of_string s).

Definition ends_without_digit (s : string) : Prop :=
  match last (list_ascii_of_string s) with
  | Some c => is_digit c = false
  | None => True
  end.

Definition starts_without_digit (s : string) : Prop :=
  match s with
  | String c _ => is_digit c = false
  | EmptyString => True
  end.

(** A repost of the message [messageId] to a Hall-of-Fame channel. *)
Definition is_repost_of (messageId : string) (e : Effect) : bool :=
  match e with
  | HofSend _ id _ => bool_decide (id = messageId)
  | _ => false
  end.

Definition posted (messageId : string) (w : World) : Prop :=
  messageId ∈ postedToHallOfFame w.

(** The trace holds a repost of the message [messageId]. *)
Definition reposts (messageId : string) (t : list Effect) : Prop :=
  ∃ channel embed, HofSend channel messageId embed ∈ t.

(** A file that is missing or does not hold JSON. *)
Definition unreadable {A} (file : option (FileText A)) : Prop :=
  file = None ∨ file = Some Blank ∨ file = Some Garbage.

(** [preserves R E m]: running [m] in a state [w] ends in a state related
    to [w] by [R], and every effect emitted is allowed by [E] in [w]. *)
Definition preserves {A} (R : World → World → Prop) (E : World → Effect → Prop)
    (m : Js A) : Prop :=
  ∀ w, R w (world_after (m w)) ∧ Forall (E w) (trace (m w)).

(** The set keeps [id] once it has it. *)
Definition keeps_posted (id : string) (w1 w2 : World) : Prop :=
  posted id w1 → posted id w2.

(** A repost of [id] is emitted only in a state whose set lacks [id]. *)
Definition repost_only_new (id : string) (w : World) (e : Effect) : Prop :=
  is_repost_of id e = true → ¬ posted id w.

(** A computation that keeps the posted ids and reposts only new ones. *)
Definition guarded {A} (id : string) (m : Js A) : Prop :=
  preserves (keeps_posted id) (repost_only_new id) m.

(** ** More of [src/index.ts] *)

(** [saveStarboardConfigs] of [src/index.ts]: the directory is made when it
    is missing, then the file is written. *)
Definition saveStarboardConfigs (configs : list StarboardConfig) : Js unit :=
  do ensure_dataDir then
  write_starboard (JSON_stringify configs).

(** The invariant of the config file: no two records of one guild. *)
Definition unique_guilds (w : World) : Prop :=
  ∀ configs, starboard_file w = Some (Json (JArray configs)) →
             NoDup (guildId <$> configs).

(** [configData] of the starboard command's [execute]. *)
Definition starboard_configData (i : StarboardInteraction) : ConfigData :=
  {| cd_channelIds := validChannelIds i;
     cd_emoji := si_emoji i;
     cd_onlyAttachments := default false (si_only_attachments i);
     cd_autoThread := default false (si_auto_thread i);
     cd_hallOfFameChannelId := si_hall_of_fame i;
     cd_threshold := si_threshold i |}.

(** What [/warn] leaves alone: the config file and the posted set. *)
Definition keeps_starboard (w1 w2 : World) : Prop :=
  starboard_file w2 = starboard_file w1
  ∧ postedToHallOfFame w2 = postedToHallOfFame w1.

(** What [/starboard] leaves alone: the warnings file and the posted set. *)
Definition keeps_warnings (w1 w2 : World) : Prop :=
  warnings_file w2 = warnings_file w1
  ∧ postedToHallOfFame w2 = postedToHallOfFame w1.

(** What the reaction-add handler leaves alone: the directory [data/]. *)
Definition keeps_files (w1 w2 : World) : Prop := dataDir w2 = dataDir w1.

Definition not_write_of (file : DataFile) (w : World) (e : Effect) : Prop :=
  e ≠ WriteFile file.

Definition not_a_file_call (w : World) (e : Effect) : Prop :=
  match e with
  | WriteFile _ | MkDir => False
  | _ => True
  end.

(** ** Notions for the reaction-add handler *)

(** A reaction that the handler takes up under [cfg]: added by a user, on
    a message of a guild whose config is [cfg], with the emoji of the
    config, in a monitored channel, with the attachments rule satisfied. *)
Definition reaction_matches (w : World) (ev : ReactionAddEvent)
    (cfg : StarboardConfig) : Prop :=
  ra_user_bot ev = false
  ∧ (∃ guild configs,
       m_guild (ra_message ev) = Some guild
       ∧ guild_id guild ≠ ""
       ∧ starboard_file w = Some (Json (JArray configs))
       ∧ find (λ c, bool_decide (guildId c = guild_id guild)) configs = Some cfg)
  ∧ ra_emoji ev = emoji cfg
  ∧ m_channelId (ra_message ev) ≠ ""
  ∧ m_channelId (ra_message ev) ∈ channelIds cfg
  ∧ (onlyAttachments cfg = true → m_attachments (ra_message ev) ≠ []).

(** The platform answers the fetches of the handler. *)
Definition fetches_accepted (ev : ReactionAddEvent) : Prop :=
  (ra_partial ev = true → ra_reaction_fetch_ok ev = true)
  ∧ (m_partial (ra_message ev) = true → ra_partial_fetch_ok ev = true)
  ∧ ra_message_fetch_ok ev = true.

(** The config has a Hall-of-Fame channel and a threshold, and the count
    of the reaction has reached the threshold. *)
Definition threshold_met (cfg : StarboardConfig) (ev : ReactionAddEvent)
    (hofId : string) : Prop :=
  hallOfFameChannelId cfg = Some hofId
  ∧ hofId ≠ ""
  ∧ ∃ thr, threshold cfg = Some thr ∧ thr ≠ 0%Z ∧ (thr ≤ default 0 (ra_count ev))%Z.

(** The Hall-of-Fame channel is in the channel cache of the guild of the
    message, holds messages and is not a thread. *)
Definition hof_channel_ok (message : Message) (hofId : string) : Prop :=
  ∃ guild chan,
    m_guild message = Some guild
    ∧ channels_cache guild !! hofId = Some chan
    ∧ isTextBased chan = true ∧ isThread chan = false.

(** The calls of the handler before the Hall-of-Fame logic, when it gets
    there. *)
Definition fetch_calls (ev : ReactionAddEvent) : list Effect :=
  (if ra_partial ev then [FetchReaction (m_id (ra_message ev))] else [])
  ++ (if m_partial (ra_message ev) then [FetchMessage (m_id (ra_message ev))] else [])
  ++ [FetchMessage (m_id (ra_message ev))].

Definition thread_calls (ev : ReactionAddEvent) (cfg : StarboardConfig) : list Effect :=
  if autoThread cfg && isTextChannel (m_channelType (ra_message ev))
     && negb (m_hasThread (ra_message ev))
  then ThreadCreate (m_channelId (ra_message ev)) (m_id (ra_message ev)) (thread_name cfg)
       :: (if ra_thread_ok ev then [] else [ConsoleError "Thread creation failed"])
  else [].

(** Calls that are fetches or console messages. *)
Definition fetch_or_console (e : Effect) : Prop :=
  match e with
  | FetchReaction _ | FetchMessage _ | ConsoleError _ => True
  | _ => False
  end.

(** Every Hall-of-Fame send of the events is accepted by the platform. *)
Definition sends_accepted (es : list Event) : Prop :=
  ∀ ev, MessageReactionAdd ev ∈ es → ra_send_ok ev = true.

(** The number of reposts of a message in a trace. *)
Definition repost_count (messageId : string) (t : list Effect) : nat :=
  length (List.filter (is_repost_of messageId) t).

Definition never_repost (id : string) (w : World) (e : Effect) : Prop :=
  is_repost_of id e = false.

Definition any_state (w1 w2 : World) : Prop := True.

(** ** Notions for the commands *)

(** A reply to the interaction. *)
Definition is_reply (e : Effect) : bool :=
  match e with
  | Reply _ _ | ReplyWarned _ _ _ _ => true
  | _ => false
  end.

(** The calls of an accepted [/warn] before it writes: the directory made
    when it was missing, the console message for a file that is not JSON. *)
Definition warn_setup_calls (w : World) : list Effect :=
  match dataDir w with
  | None => [MkDir]
  | Some _ => []
  end
  ++ match warnings_file w with
     | Some Garbage => [ConsoleError "Error parsing JSON from warnings file:"]
     | _ => []
     end.

(** ** Loading and registering the commands *)

(** [data] of a command module: a builder, whose name may be unset. *)
Record CommandData := mkCommandData {
  data_name : option string
}.

(** What [require] gives for a command file: [data], when the module
    exports one, and whether [execute] is a function. *)
Record CommandModule := mkCommandModule {
  cm_data : option CommandData;
  cm_execute : bool
}.

#[global] Instance CommandData_eq_dec : EqDecision CommandData.
Proof. solve_decision. Defined.

#[global] Instance CommandModule_eq_dec : EqDecision CommandModule.
Proof. solve_decision. Defined.

(** An entry of the directory [commands/]: its name, whether it is a
    directory and, when it is, its files with what [require] gives for each
    ([None] when [require] throws). *)
Record DirEntry := mkDirEntry {
  de_name : string;
  de_isDirectory : bool;
  de_files : list (string * option CommandModule)
}.

(** [s.endsWith(suffix)]. *)
Definition endsWith (s suffix : string) : bool :=
  bool_decide (list_ascii_of_string suffix `suffix_of` list_ascii_of_string s).

(** [cmd?.name], as a condition and as a value. *)
Definition command_name (m : CommandModule) : option string :=
  match cm_data m with
  | Some d =>
      match data_name d with
      | Some n => if truthy_string n then Some n else None
      | None => None
      end
  | None => None
  end.

(** The lines that the loader writes to the console. *)
Inductive LoadLine : Type :=
| Loaded (folder name : string)
| Skipping (file folder : string).

(** The inner loop of the loader of [src/index.ts] (lines 73 to 83), over
    the files of one folder. *)
Fixpoint load_files (folder : string) (files : list (string * option CommandModule))
    (commands : gmap string CommandModule) (log : list LoadLine)
    : option (gmap string CommandModule * list LoadLine) :=
  match files with
  | [] => Some (commands, log)
  | (file, required) :: rest =>
      match required with
      | None => None
      | Some commandModule =>
          match command_name commandModule with
          | Some name =>
              if cm_execute commandModule
              then load_files folder rest (<[name := commandModule]> commands)
                     (log ++ [Loaded folder name])
              else load_files folder rest commands (log ++ [Skipping file folder])
          | None => load_files folder rest commands (log ++ [Skipping file folder])
          end
      end
  end.

(** The files of a folder that the loader takes. *)
Definition loader_files (entry : DirEntry) : list (string * option CommandModule) :=
  List.filter (λ f, endsWith f.1 ".ts" || endsWith f.1 ".js") (de_files entry).

(** The outer loop (lines 65 to 84). *)
Fixpoint load_folders (entries : list DirEntry)
    (commands : gmap string CommandModule) (log : list LoadLine)
    : option (gmap string CommandModule * list LoadLine) :=
  match entries with
  | [] => Some (commands, log)
  | entry :: rest =>
      if negb (de_isDirectory entry) then load_folders rest commands log else
      match load_files (de_name entry) (loader_files entry) commands log with
      | Some (commands', log') => load_folders rest commands' log'
      | None => None
      end
  end.

(** The loader of [src/index.ts] (lines 58 to 84) on the directory
    [commands/], [None] when it is missing: [client.commands] and the
    console lines, or [None] when start-up ends there ([process.exit(1)], or
    a [require] that throws). *)
Definition loadCommands (root : option (list DirEntry))
    : option (gmap string CommandModule * list LoadLine) :=
  match root with
  | None => None
  | Some entries => load_folders entries ∅ []
  end.

(** [commandFolders] of the deploy script. *)
Definition commandFolders : list string := ["members"; "staff"; "management"].

(** The files of one folder that the deploy script takes (the inner loop
    of lines 42 to 47 of the script). *)
Fixpoint deploy_files (files : list (string * option CommandModule))
    (commands : list CommandData) : option (list CommandData) :=
  match files with
  | [] => Some commands
  | (file, required) :: rest =>
      match required with
      | None => None
      | Some commandModule =>
          match cm_data commandModule with
          | Some command => deploy_files rest (commands ++ [command])
          | None => deploy_files rest commands
          end
      end
  end.

(** [fs.existsSync(folderPath)] and [fs.readdirSync(folderPath)]: the
    entry of that name. *)
Definition lookup_entry (entries : list DirEntry) (folder : string) : option DirEntry :=
  find (λ e, bool_decide (de_name e = folder)) entries.

(** The loop over [commandFolders] of the deploy script; [readdirSync]
    throws on an entry that is no directory. *)
Fixpoint deploy_folders (entries : list DirEntry) (folders : list string)
    (commands : list CommandData) : option (list CommandData) :=
  match folders with
  | [] => Some commands
  | folder :: rest =>
      match lookup_entry entries folder with
      | None => deploy_folders entries rest commands
      | Some entry =>
          if negb (de_isDirectory entry) then None else
          match deploy_files
                  (List.filter (λ f, endsWith f.1 ".ts") (de_files entry)) commands with
          | Some commands' => deploy_folders entries rest commands'
          | None => None
          end
      end
  end.

(** The body that the deploy script sends for registration; with
    [commands/] missing no folder exists and the body is empty. *)
Definition deployCommands (root : option (list DirEntry)) : option (list CommandData) :=
  deploy_folders (default [] root) commandFolders [].

(** A file that the loader takes from the directory [commands/], with its
    module: a file with the suffix [.ts] or [.js] in an entry that is a
    directory. *)
Definition loader_takes (entries : list DirEntry) (file : string)
    (required : option CommandModule) : Prop :=
  ∃ entry, entry ∈ entries ∧ de_isDirectory entry = true
           ∧ (file, required) ∈ de_files entry
           ∧ endsWith file ".ts" || endsWith file ".js" = true.

(** A file that the deploy script takes: a file with the suffix [.ts] in
    the entry found for one of the three folders. *)
Definition deploy_takes (entries : list DirEntry) (file : string)
    (required : option CommandModule) : Prop :=
  ∃ folder entry, folder ∈ commandFolders
                  ∧ lookup_entry entries folder = Some entry
                  ∧ (file, required) ∈ de_files entry
                  ∧ endsWith file ".ts" = true.

(** The files that the loader takes, in the order it takes them. *)
Definition loader_candidates (entries : list DirEntry)
    : list (string * option CommandModule) :=
  flat_map loader_files (List.filter de_isDirectory entries).

(** ** Concrete inputs *)

Module Sample.

Definition cfgA : StarboardConfig :=
  {| guildId := "guildA"; channelIds := ["111111111111111111"]; emoji := "⭐";
     onlyAttachments := true; autoThread := false;
     hallOfFameChannelId := Some "333333333333333333"; threshold := Some 2%Z |}.

Definition cfgB : StarboardConfig :=
  {| guildId := "guildB"; channelIds := ["222222222222222222"]; emoji := "🔥";
     onlyAttachments := false; autoThread := true;
     hallOfFameChannelId := None; threshold := None |}.

Definition dataA : ConfigData :=
  {| cd_channelIds := ["444444444444444444"]; cd_emoji := "👍";
     cd_onlyAttachments := false; cd_autoThread := false;
     cd_hallOfFameChannelId := None; cd_threshold := None |}.

Definition with_starboard (t : FileText StarboardConfig) : World :=
  startup (Some {| starboard_json := Some t; warnings_json := None |}).

Definition with_warnings (t : FileText Warning) : World :=
  startup (Some {| starboard_json := None; warnings_json := Some t |}).

End Sample.

Module SampleWarn.

Definition alice : User := {| user_bot := false; user_tag := "alice#0001"; user_avatarURL := "a.png" |}.
Definition robot : User := {| user_bot := true; user_tag := "robot#0002"; user_avatarURL := "r.png" |}.
Definition carol : User := {| user_bot := false; user_tag := "carol#0003"; user_avatarURL := "c.png" |}.

Definition staffMember : GuildMember :=
  {| member_id := "1001"; member_roles := [mkRole "Member"; mkRole "Staff"];
     member_user := alice |}.
Definition plainMember : GuildMember :=
  {| member_id := "1003"; member_roles := [mkRole "Member"; mkRole "staff"];
     member_user := carol |}.
Definition botMember : GuildMember :=
  {| member_id := "1002"; member_roles := []; member_user := robot |}.

(** A caller without the role, warning a bot. *)
Definition denied : WarnInteraction :=
  {| wi_staff := Some plainMember; wi_target := Some botMember; wi_reason := "spam";
     wi_caseId := "K3J9X2AB"; wi_now := "2025-01-01T00:00:00.000Z";
     wi_dm_ok := true; wi_reply_ok := true |}.

(** A caller with the role, warning a bot. *)
Definition atBot : WarnInteraction :=
  {| wi_staff := Some staffMember; wi_target := Some botMember; wi_reason := "spam";
     wi_caseId := "K3J9X2AB"; wi_now := "2025-01-01T00:00:00.000Z";
     wi_dm_ok := true; wi_reply_ok := true |}.

Definition first : WarnInteraction :=
  {| wi_staff := Some staffMember; wi_target := Some plainMember; wi_reason := "spam";
     wi_caseId := "AAAA1111"; wi_now := "2025-01-01T00:00:00.000Z";
     wi_dm_ok := false; wi_reply_ok := true |}.

Definition second : WarnInteraction :=
  {| wi_staff := Some staffMember; wi_target := Some plainMember; wi_reason := "spam again";
     wi_caseId := "BBBB2222"; wi_now := "2025-01-02T00:00:00.000Z";
     wi_dm_ok := true; wi_reply_ok := false |}.

(** The command used in a direct message: no member, no target. *)
Definition inDM : WarnInteraction :=
  {| wi_staff := None; wi_target := None; wi_reason := "spam";
     wi_caseId := "CCCC3333"; wi_now := "2025-01-03T00:00:00.000Z";
     wi_dm_ok := true; wi_reply_ok := true |}.

(** A reason of 1025 characters. *)
Definition longReason : WarnInteraction :=
  {| wi_staff := Some staffMember; wi_target := Some plainMember;
     wi_reason := string_of_list_ascii (replicate 1025 "a"%char);
     wi_caseId := "DDDD4444"; wi_now := "2025-01-04T00:00:00.000Z";
     wi_dm_ok := true; wi_reply_ok := true |}.

End SampleWarn.

Module SampleMessage.

Definition author : User :=
  {| user_bot := false; user_tag := "dora#0004"; user_avatarURL := "d.png" |}.

Definition guildA : Guild :=
  {| guild_id := "guildA";
     channels_cache := {[ "111111111111111111" := GuildText;
                          "333333333333333333" := GuildText ]} |}.

(** A message without attachments in the monitored channel of [guildA]. *)
Definition plain : Message :=
  {| m_id := "m1"; m_partial := false; m_author := Some author;
     m_guildId := Some "guildA"; m_guild := Some guildA;
     m_channelId := "111111111111111111"; m_channelType := GuildText;
     m_attachments := []; m_hasThread := false;
     m_content := "hello"; m_url := "https://discord.com/channels/guildA/1/m1" |}.

(** The same message with a picture attached. *)
Definition picture : Message :=
  {| m_id := "m1"; m_partial := false; m_author := Some author;
     m_guildId := Some "guildA"; m_guild := Some guildA;
     m_channelId := "111111111111111111"; m_channelType := GuildText;
     m_attachments := [ {| att_contentType := Some "image/png"; att_url := "p.png" |} ];
     m_hasThread := false;
     m_content := "look"; m_url := "https://discord.com/channels/guildA/1/m1" |}.

Definition plainCreated : MessageCreateEvent :=
  {| mc_message := plain; mc_react_ok := true; mc_thread_ok := true |}.

Definition pictureCreated : MessageCreateEvent :=
  {| mc_message := picture; mc_react_ok := true; mc_thread_ok := true |}.

(** A process whose config file holds the config of [guildA]. *)
Definition configured : World :=
  Sample.with_starboard (Json (JArray [Sample.cfgB; Sample.cfgA])).

End SampleMessage.

Module SampleReaction.

(** A second reaction with the configured emoji on the message with the
    picture, which reaches the threshold of [cfgA]. *)
Definition starred : ReactionAddEvent :=
  {| ra_user_bot := false; ra_partial := false; ra_emoji := "⭐";
     ra_count := Some 2%Z; ra_message := SampleMessage.picture;
     ra_reaction_fetch_ok := true; ra_partial_fetch_ok := true;
     ra_message_fetch_ok := true; ra_thread_ok := true; ra_send_ok := true |}.

(** A third reaction on the same message. *)
Definition starredAgain : ReactionAddEvent :=
  {| ra_user_bot := false; ra_partial := false; ra_emoji := "⭐";
     ra_count := Some 3%Z; ra_message := SampleMessage.picture;
     ra_reaction_fetch_ok := true; ra_partial_fetch_ok := true;
     ra_message_fetch_ok := true; ra_thread_ok := true; ra_send_ok := true |}.

(** The process after the repost of the message ["m1"]. *)
Definition reposted : Process :=
  {| proc_world :=
       {| dataDir := dataDir SampleMessage.configured;
          postedToHallOfFame := {[ "m1" ]} |};
     proc_tasks := [] |}.

End SampleReaction.

Module SampleStarboard.

(** A guild in which the two ids of the example are text channels, and a
    third id is a voice channel. *)
Definition guild : Guild :=
  {| guild_id := "guildA";
     channels_cache := {[ "111111111111111111" := GuildText;
                          "222222222222222222" := GuildText;
                          "555555555555555555" := GuildVoice ]} |}.

Definition example : StarboardInteraction :=
  {| si_guildId := "guildA";
     si_channels := "<#111111111111111111> 222222222222222222 not-an-id";
     si_emoji := "⭐"; si_only_attachments := None; si_auto_thread := None;
     si_hall_of_fame := None; si_threshold := None;
     si_guild := Some guild; si_reply_ok := true |}.

(** An input whose only identifier is not a text channel. *)
Definition noTextChannel : StarboardInteraction :=
  {| si_guildId := "guildA";
     si_channels := "<#555555555555555555> general 1234";
     si_emoji := "⭐"; si_only_attachments := None; si_auto_thread := None;
     si_hall_of_fame := None; si_threshold := None;
     si_guild := Some guild; si_reply_ok := true |}.

End SampleStarboard.

Module SampleMore.

Definition dataB : ConfigData :=
  {| cd_channelIds := ["111111111111111111"]; cd_emoji := "🔥";
     cd_onlyAttachments := true; cd_autoThread := true;
     cd_hallOfFameChannelId := Some "333333333333333333"; cd_threshold := Some 5%Z |}.

End SampleMore.

Module SampleTree.

Definition named (n : string) : CommandModule :=
  mkCommandModule (Some (mkCommandData (Some n))) true.

Definition ping : CommandModule := named "ping".
Definition warn : CommandModule := named "warn".
Definition starboard : CommandModule := named "starboard".

(** A module that exports [data] and no [execute]. *)
Definition draft : CommandModule :=
  mkCommandModule (Some (mkCommandData (Some "draft"))) false.

(** A module that exports neither. *)
Definition helper : CommandModule := mkCommandModule None true.

Definition entries : list DirEntry :=
  [mkDirEntry "members" true [("ping.ts", Some ping); ("notes.md", None)];
   mkDirEntry "README.md" false [];
   mkDirEntry "staff" true [("warn.ts", Some warn); ("draft.ts", Some draft)];
   mkDirEntry "management" true [("starboard.ts", Some starboard);
                                 ("helper.js", Some helper)]].

End SampleTree.

(** * Properties *)

(** ** The monad *)

Ltac js_unfold :=
  unfold bind, ret, throw, emit, extern, try_catch, getWorld,
    outcome, world_after, trace in *.

Ltac js := js_unfold; simpl in *.

Lemma bind_value {A B} (m : Js A) (k : A → Js B) w a w1 t1 :
  m w = (Value a, w1, t1) →
  bind m k w = ((k a w1).1.1, (k a w1).1.2, t1 ++ (k a w1).2).
Proof. intros H. unfold bind. rewrite H. by destruct (k a w1) as [[??]?]. Qed.

(** ** Saving a starboard config *)

Lemma filter_guild_of_others (guild : string) (configs : list StarboardConfig) :
  filter (λ c, guildId c = guild) (filter (λ c, guildId c ≠ guild) configs) = [].
Proof.
  induction configs as [|c configs IH]; [done|].
  rewrite (filter_cons (λ c, guildId c ≠ guild)).
  case_decide as Hc; [|done].
  rewrite filter_cons. by case_decide.
Qed.

Lemma filter_others_idemp (guild : string) (configs : list StarboardConfig) :
  filter (λ c, guildId c ≠ guild) (filter (λ c, guildId c ≠ guild) configs)
  = filter (λ c, guildId c ≠ guild) configs.
Proof.
  induction configs as [|c configs IH]; [done|].
  rewrite (filter_cons (λ c, guildId c ≠ guild)).
  case_decide as Hc; [|done].
  rewrite filter_cons. case_decide; [|done]. by rewrite IH.
Qed.

Lemma saveConfig_array (configs : list StarboardConfig) guild data w d :
  dataDir w = Some d →
  starboard_json d = Some (Json (JArray configs)) →
  saveConfig guild data w
  = (Value tt,
     {| dataDir := Some {| starboard_json :=
                             Some (Json (JArray
                               (filter (λ c, guildId c ≠ guild) configs
                                ++ [with_guildId guild data])));
                           warnings_json := warnings_json d |};
        postedToHallOfFame := postedToHallOfFame w |},
     [WriteFile StarboardJson]).
Proof.
  intros Hd Hf. unfold saveConfig, starboard_file, write_starboard, JSON_stringify.
  js. rewrite Hd. simpl. rewrite Hf. simpl. by rewrite Hd.
Qed.

Lemma saveConfig_missing_file (guild : string) (data : ConfigData) (w : World) d :
  dataDir w = Some d → starboard_json d = None →
  saveConfig guild data w
  = (Value tt,
     {| dataDir := Some {| starboard_json :=
                             Some (Json (JArray [with_guildId guild data]));
                           warnings_json := warnings_json d |};
        postedToHallOfFame := postedToHallOfFame w |},
     [WriteFile StarboardJson]).
Proof.
  intros Hd Hf. unfold saveConfig, starboard_file, write_starboard, JSON_stringify.
  js. rewrite Hd. simpl. rewrite Hf. simpl. by rewrite Hd.
Qed.

(** C2: when [data/starboard.json] holds an array of configs, [saveConfig]
    writes an array in which the records of the guild are exactly the new
    record, once: the record with the guild's id and the six fields of the
    data given, each as given.  The records of the other guilds are those
    of the array read, unchanged and in their order, and the new record
    stands behind them. *)
Theorem saveConfig_replaces (configs : list StarboardConfig) (guild : string)
    (data : ConfigData) (w : World) :
  starboard_file w = Some (Json (JArray configs)) →
  ∃ saved,
    outcome (saveConfig guild data w) = Value tt
    ∧ starboard_file (world_after (saveConfig guild data w)) = Some (Json (JArray saved))
    ∧ filter (λ c, guildId c = guild) saved
      = [{| guildId := guild;
            channelIds := cd_channelIds data;
            emoji := cd_emoji data;
            onlyAttachments := cd_onlyAttachments data;
            autoThread := cd_autoThread data;
            hallOfFameChannelId := cd_hallOfFameChannelId data;
            threshold := cd_threshold data |}]
    ∧ filter (λ c, guildId c ≠ guild) saved = filter (λ c, guildId c ≠ guild) configs
    ∧ last saved
      = Some {| guildId := guild;
                channelIds := cd_channelIds data;
                emoji := cd_emoji data;
                onlyAttachments := cd_onlyAttachments data;
                autoThread := cd_autoThread data;
                hallOfFameChannelId := cd_hallOfFameChannelId data;
                threshold := cd_threshold data |}
    ∧ length saved = S (length (filter (λ c, guildId c ≠ guild) configs)).
Proof.
  unfold starboard_file. intros Hf.
  destruct (dataDir w) as [d|] eqn:Hd; [|done]. simpl in Hf.
  rewrite (saveConfig_array configs guild data w d Hd Hf).
  eexists. split; [done|]. split; [unfold world_after; simpl; done|].
  unfold with_guildId.
  split; [|split; [|split]].
  - rewrite filter_app, filter_guild_of_others.
    rewrite filter_cons, filter_nil. simpl. by case_decide.
  - rewrite filter_app, filter_others_idemp.
    rewrite filter_cons, filter_nil. simpl. case_decide; [done|].
    by rewrite app_nil_r.
  - by rewrite last_snoc.
  - rewrite length_app. simpl. lia.
Qed.

Lemma saveConfig_replaces_witness :
  ∃ saved,
    outcome (saveConfig "guildA" Sample.dataA
               (Sample.with_starboard (Json (JArray [Sample.cfgA; Sample.cfgB; Sample.cfgA]))))
    = Value tt
    ∧ starboard_file (world_after (saveConfig "guildA" Sample.dataA
               (Sample.with_starboard (Json (JArray [Sample.cfgA; Sample.cfgB; Sample.cfgA])))))
      = Some (Json (JArray saved))
    ∧ filter (λ c, guildId c = "guildA") saved
      = [{| guildId := "guildA";
            channelIds := cd_channelIds Sample.dataA;
            emoji := cd_emoji Sample.dataA;
            onlyAttachments := cd_onlyAttachments Sample.dataA;
            autoThread := cd_autoThread Sample.dataA;
            hallOfFameChannelId := cd_hallOfFameChannelId Sample.dataA;
            threshold := cd_threshold Sample.dataA |}]
    ∧ filter (λ c, guildId c ≠ "guildA") saved
      = filter (λ c, guildId c ≠ "guildA") [Sample.cfgA; Sample.cfgB; Sample.cfgA]
    ∧ last saved
      = Some {| guildId := "guildA";
                channelIds := cd_channelIds Sample.dataA;
                emoji := cd_emoji Sample.dataA;
                onlyAttachments := cd_onlyAttachments Sample.dataA;
                autoThread := cd_autoThread Sample.dataA;
                hallOfFameChannelId := cd_hallOfFameChannelId Sample.dataA;
                threshold := cd_threshold Sample.dataA |}
    ∧ length saved
      = S (length (filter (λ c, guildId c ≠ "guildA")
                     [Sample.cfgA; Sample.cfgB; Sample.cfgA])).
Proof.
  apply (saveConfig_replaces [Sample.cfgA; Sample.cfgB; Sample.cfgA] "guildA" Sample.dataA).
  reflexivity.
Defined.

(** ** The checks of [/warn] *)

Lemma existsb_staff (m : GuildMember) :
  existsb (λ role, bool_decide (role_name role = "Staff")) (member_roles m) = true
  ↔ has_staff_role m.
Proof.
  rewrite existsb_exists. unfold has_staff_role. split.
  - intros (role & Hin & Hname). exists role.
    rewrite list_elem_of_In. split; [done|]. by apply bool_decide_eq_true in Hname.
  - intros (role & Hin & Hname). exists role.
    rewrite <- list_elem_of_In. split; [done|]. by apply bool_decide_eq_true.
Qed.

Lemma existsb_no_staff (m : GuildMember) :
  ¬ has_staff_role m →
  existsb (λ role, bool_decide (role_name role = "Staff")) (member_roles m) = false.
Proof.
  intros Hno. apply not_true_is_false. by rewrite existsb_staff.
Qed.

Lemma warn_no_member (i : WarnInteraction) (w : World) :
  wi_staff i = None → warn_execute i w = (Thrown TypeError, w, []).
Proof. intros Hm. unfold warn_execute. by rewrite Hm. Qed.

Lemma warn_no_staff (i : WarnInteraction) (w : World) (staff : GuildMember) :
  wi_staff i = Some staff → ¬ has_staff_role staff →
  warn_execute i w
  = (if wi_reply_ok i then Value tt else Thrown ApiError, w, [Reply permission_denied true]).
Proof.
  intros Hm Hno. unfold warn_execute. by rewrite Hm, (existsb_no_staff _ Hno).
Qed.

Lemma warn_bad_target (i : WarnInteraction) (w : World) (staff : GuildMember) :
  wi_staff i = Some staff → has_staff_role staff → ¬ valid_target (wi_target i) →
  warn_execute i w
  = (if wi_reply_ok i then Value tt else Thrown ApiError, w, [Reply invalid_target true]).
Proof.
  intros Hm Hs Hbad. unfold warn_execute.
  apply existsb_staff in Hs. rewrite Hm, Hs. simpl.
  destruct (wi_target i) as [target|] eqn:Ht; [|done].
  destruct (user_bot (member_user target)) eqn:Hbot; [done|].
  exfalso. apply Hbad. by exists target.
Qed.

(** C3, where the code departs from it: [/warn] used in a direct message.
    There [interaction.member] is [null], so the role check of line 33
    throws a [TypeError] before any reply.  Nothing is written, and the
    caller lacks the role but gets no denial: the interaction handler logs
    the error and replies that the command failed. *)
Theorem warn_in_direct_message (i : WarnInteraction) (w : World) :
  wi_staff i = None →
  warn_execute i w = (Thrown TypeError, w, [])
  ∧ handle (WarnCommand i) w
    = (if wi_reply_ok i then Value tt else Thrown ApiError, w,
       [ConsoleError "Error executing warn"; Reply command_failed true])
  ∧ (∀ ephemeral, Reply permission_denied ephemeral ∉ trace (handle (WarnCommand i) w)).
Proof.
  intros Hm. pose proof (warn_no_member i w Hm) as Hthrow.
  assert (handle (WarnCommand i) w
          = (if wi_reply_ok i then Value tt else Thrown ApiError, w,
             [ConsoleError "Error executing warn"; Reply command_failed true])) as Hh.
  { change (handle (WarnCommand i))
      with (onInteractionCreate "warn" (warn_execute i) (wi_reply_ok i)).
    unfold onInteractionCreate, try_catch. rewrite Hthrow. js.
    by destruct (wi_reply_ok i). }
  split; [done|]. split; [done|].
  intros ephemeral Hin. rewrite Hh in Hin. unfold trace in Hin. simpl in Hin.
  apply elem_of_cons in Hin as [Hin|Hin]; [discriminate Hin|].
  apply list_elem_of_singleton in Hin. discriminate Hin.
Qed.

Lemma warn_in_direct_message_witness :
  warn_execute SampleWarn.inDM (startup None) = (Thrown TypeError, startup None, [])
  ∧ handle (WarnCommand SampleWarn.inDM) (startup None)
    = (Value tt, startup None,
       [ConsoleError "Error executing warn"; Reply command_failed true])
  ∧ (∀ ephemeral,
       Reply permission_denied ephemeral
         ∉ trace (handle (WarnCommand SampleWarn.inDM) (startup None))).
Proof.
  apply (warn_in_direct_message SampleWarn.inDM (startup None)). reflexivity.
Defined.

(** X26: a [/warn] invocation made in a guild whose caller has no role
    named ["Staff"], or whose target is missing or a bot, makes one call,
    the ephemeral reply with the denial, and leaves the state as it was:
    nothing is written.  The reply is the permission message when the
    caller lacks the role, and the invalid-target message when the caller
    has it. *)
Theorem warn_denied (i : WarnInteraction) (w : World) (staff : GuildMember) :
  wi_staff i = Some staff →
  ¬ has_staff_role staff ∨ ¬ valid_target (wi_target i) →
  ∃ denial,
    warn_execute i w
    = (if wi_reply_ok i then Value tt else Thrown ApiError, w, [Reply denial true])
    ∧ (¬ has_staff_role staff → denial = permission_denied)
    ∧ (has_staff_role staff → denial = invalid_target).
Proof.
  intros Hm Hden.
  destruct (existsb (λ role, bool_decide (role_name role = "Staff"))
              (member_roles staff)) eqn:Hs.
  - apply existsb_staff in Hs. destruct Hden as [Hno|Hbad]; [done|].
    exists invalid_target. split; [by eapply warn_bad_target|]. split; [done|done].
  - assert (¬ has_staff_role staff) as Hno.
    { rewrite <- existsb_staff. by rewrite Hs. }
    exists permission_denied. split; [by eapply warn_no_staff|]. split; [done|done].
Qed.

Lemma no_staff_role_plainMember : ¬ has_staff_role SampleWarn.plainMember.
Proof.
  intros (role & Hin & Hname).
  apply list_elem_of_In in Hin. simpl in Hin.
  destruct Hin as [<-|[<-|[]]]; discriminate Hname.
Defined.

Lemma warn_denied_witness :
  ∃ denial,
    warn_execute SampleWarn.denied (startup None)
    = (Value tt, startup None, [Reply denial true])
    ∧ (¬ has_staff_role SampleWarn.plainMember → denial = permission_denied)
    ∧ (has_staff_role SampleWarn.plainMember → denial = invalid_target).
Proof.
  apply (warn_denied SampleWarn.denied (startup None) SampleWarn.plainMember).
  - reflexivity.
  - left. exact no_staff_role_plainMember.
Defined.

(** ** Appending warnings *)

Lemma reloadWarnings_spec (w : World) :
  reloadWarnings w
  = (match warnings_file w with
     | Some (Json (JArray xs)) => Value xs
     | Some (Json JOther) => Thrown TypeError
     | _ => Value []
     end, w,
     match warnings_file w with
     | Some Garbage => [ConsoleError "Error parsing JSON from warnings file:"]
     | _ => []
     end).
Proof.
  unfold reloadWarnings, readWarnings. js.
  destruct (warnings_file w) as [[| |[xs|]]|]; reflexivity.
Qed.

(** The calls of an accepted [/warn] on a file that can be taken as an
    array: the file is written first; the direct message is tried when its
    embed can be built, and what fails there goes to the console; the
    confirmation is sent when its embed can be built, and the command
    throws when it cannot. *)
Lemma warn_execute_accepted (i : WarnInteraction) (w : World) (old : list Warning)
    (target staff : GuildMember) :
  accepted i → wi_target i = Some target → wi_staff i = Some staff →
  outcome (reloadWarnings w) = Value old →
  warn_execute i w
  = (if confirmation_fits i target staff
     then (if wi_reply_ok i then Value tt else Thrown ApiError)
     else Thrown ValidationError,
     {| dataDir :=
          Some {| starboard_json := starboard_file w;
                  warnings_json :=
                    Some (Json (JArray (old ++ [warning_of i target staff]))) |};
        postedToHallOfFame := postedToHallOfFame w |},
     warn_setup_calls w
     ++ [WriteFile WarningsJson]
     ++ (if dm_fits i
         then DirectMessage (member_id target) (wi_reason i) (wi_caseId i)
              :: (if wi_dm_ok i then []
                  else [ConsoleWarn
                          ("Could not DM " +:+ user_tag (member_user target) +:+ ".")])
         else [ConsoleWarn ("Could not DM " +:+ user_tag (member_user target) +:+ ".")])
     ++ (if confirmation_fits i target staff
         then [ReplyWarned (member_id target) (member_id staff) (wi_reason i)
                 (wi_caseId i)]
         else [])).
Proof.
  intros [(staff' & Hm' & Hs) (target' & Ht' & Hbot)] Ht Hm Hold.
  rewrite Ht in Ht'. injection Ht' as <-. rewrite Hm in Hm'. injection Hm' as <-.
  rewrite reloadWarnings_spec in Hold. unfold outcome in Hold. simpl in Hold.
  unfold warn_execute. apply existsb_staff in Hs. rewrite Hm, Hs, Ht, Hbot.
  unfold setDescription, addFields.
  fold (dm_fits i) (confirmation_fits i target staff).
  destruct (dm_fits i), (confirmation_fits i target staff);
    unfold warn_setup_calls, readWarnings, ensure_dataDir, write_warnings,
      warnings_file, starboard_file, JSON_stringify in *;
    js;
    (destruct (dataDir w) as [d|] eqn:Hd; simpl in *;
     [ rewrite Hd; simpl;
       destruct (warnings_json d) as [[| |[xs|]]|] eqn:Hf; simpl in *;
         try discriminate Hold; inversion Hold; subst; simpl; rewrite ?Hd; simpl;
         destruct (wi_dm_ok i), (wi_reply_ok i); simpl; done
     | inversion Hold; subst; simpl;
       destruct (wi_dm_ok i), (wi_reply_ok i); simpl; done ]).
Qed.

(** An accepted [/warn] on a file that holds JSON that is no array: the
    [push] throws before anything is written. *)
Lemma warn_execute_not_array (i : WarnInteraction) (w : World) :
  accepted i → warnings_file w = Some (Json JOther) →
  warn_execute i w = (Thrown TypeError, w, []).
Proof.
  intros [(staff & Hm & Hs) (target & Ht & Hbot)] Hfile.
  unfold warn_execute. apply existsb_staff in Hs. rewrite Hm, Hs, Ht, Hbot. simpl.
  unfold readWarnings, ensure_dataDir, warnings_file in *. js.
  destruct (dataDir w) as [d|] eqn:Hd; simpl in *; [|done].
  rewrite Hd. simpl. by rewrite Hfile.
Qed.

(** The state after an accepted invocation: the file holds the array read
    with the new record at its end. *)
Lemma warn_execute_appends (i : WarnInteraction) (w : World) (old : list Warning) :
  accepted i →
  outcome (reloadWarnings w) = Value old →
  ∃ target staff,
    wi_target i = Some target ∧ wi_staff i = Some staff
    ∧ warn_record i = Some (warning_of i target staff)
    ∧ warnings_file (world_after (warn_execute i w))
      = Some (Json (JArray (old ++ [warning_of i target staff])))
    ∧ starboard_file (world_after (warn_execute i w)) = starboard_file w
    ∧ postedToHallOfFame (world_after (warn_execute i w)) = postedToHallOfFame w
    ∧ outcome (warn_execute i w)
      = (if confirmation_fits i target staff
         then (if wi_reply_ok i then Value tt else Thrown ApiError)
         else Thrown ValidationError).
Proof.
  intros Hacc Hold. pose proof Hacc as [(staff & Hm & _) (target & Ht & _)].
  exists target, staff. split; [done|]. split; [done|].
  split; [unfold warn_record; by rewrite Ht, Hm|].
  by rewrite (warn_execute_accepted i w old target staff Hacc Ht Hm Hold).
Qed.

Lemma run_cons (e : Event) (es : list Event) (w : World) :
  run (e :: es) w
  = ((run es (world_after (handle e w))).1,
     trace (handle e w) ++ (run es (world_after (handle e w))).2).
Proof.
  simpl. unfold world_after, trace.
  destruct (handle e w) as [[r w1] t1]. simpl. by destruct (run es w1).
Qed.

Lemma onInteractionCreate_world (name : string) (execute : Js unit) (ok : bool)
    (w : World) :
  world_after (onInteractionCreate name execute ok w) = world_after (execute w).
Proof.
  unfold onInteractionCreate, world_after. js.
  by destruct (execute w) as [[[[]|err] w1] t1].
Qed.

Lemma run_warn_commands (calls : list WarnInteraction) (w : World) (old : list Warning) :
  Forall accepted calls →
  outcome (reloadWarnings w) = Value old →
  outcome (reloadWarnings (run (WarnCommand <$> calls) w).1)
  = Value (old ++ omap warn_record calls).
Proof.
  revert w old. induction calls as [|i calls IH]; intros w old Hacc Hold.
  - simpl. by rewrite app_nil_r.
  - apply Forall_cons in Hacc as [Hi His].
    destruct (warn_execute_appends i w old Hi Hold)
      as (target & staff & _ & _ & Hrec & Hfile & _).
    rewrite fmap_cons, run_cons. simpl.
    rewrite onInteractionCreate_world.
    rewrite (IH _ (old ++ [warning_of i target staff]) His).
    + simpl. rewrite Hrec. by rewrite <- app_assoc.
    + rewrite reloadWarnings_spec. unfold outcome. simpl. by rewrite Hfile.
Qed.

Lemma warn_record_cons (i : WarnInteraction) (calls : list WarnInteraction)
    (target staff : GuildMember) :
  wi_target i = Some target → wi_staff i = Some staff →
  omap warn_record (i :: calls) = warning_of i target staff :: omap warn_record calls.
Proof. intros Ht Hm. simpl. unfold warn_record at 1. by rewrite Ht, Hm. Qed.

Lemma warn_records_length (calls : list WarnInteraction) :
  Forall accepted calls → length (omap warn_record calls) = length calls.
Proof.
  induction 1 as [|i calls [(staff & Hm & _) (target & Ht & _)] _ IH]; [done|].
  rewrite (warn_record_cons i calls target staff Ht Hm). simpl. by rewrite IH.
Qed.

(** C7: after [N] accepted [/warn] invocations, handled one after the
    other, reloading [warnings.json] gives the records that were there
    before, followed by the [N] records of the invocations, each with the
    case id, user id, staff id, reason and timestamp of its invocation, in
    the order of the invocations.  From a file that is missing, blank,
    unparsable or an empty array these are exactly the [N] records. *)
Theorem warn_round_trip (calls : list WarnInteraction) (w : World) (old : list Warning) :
  Forall accepted calls →
  outcome (reloadWarnings w) = Value old →
  outcome (reloadWarnings (run (WarnCommand <$> calls) w).1)
  = Value (old ++ omap warn_record calls)
  ∧ length (omap warn_record calls) = length calls
  ∧ (∀ n i, calls !! n = Some i →
       ∃ target staff, wi_target i = Some target ∧ wi_staff i = Some staff
         ∧ omap warn_record calls !! n
           = Some {| caseId := wi_caseId i; userId := member_id target;
                     staffId := member_id staff; reason := wi_reason i;
                     timestamp := wi_now i |}).
Proof.
  intros Hacc Hold. split; [by apply run_warn_commands|].
  split; [by apply warn_records_length|].
  clear Hold.
  induction Hacc as [|i calls [(staff & Hm & _) (target & Ht & _)] _ IH]; intros n j Hn.
  - done.
  - rewrite (warn_record_cons i calls target staff Ht Hm).
    destruct n as [|n]; simpl in Hn.
    + inversion Hn; subst. by exists target, staff.
    + by apply IH.
Qed.

Lemma staff_role_staffMember : has_staff_role SampleWarn.staffMember.
Proof.
  exists (mkRole "Staff"). split; [|reflexivity].
  apply list_elem_of_In. simpl. right. left. reflexivity.
Defined.

Lemma accepted_first : accepted SampleWarn.first.
Proof.
  split.
  - exists SampleWarn.staffMember. split; [reflexivity|exact staff_role_staffMember].
  - exists SampleWarn.plainMember. split; reflexivity.
Defined.

Lemma accepted_samples : Forall accepted [SampleWarn.first; SampleWarn.second].
Proof.
  repeat constructor; try (exists SampleWarn.staffMember; split;
                           [reflexivity|exact staff_role_staffMember]);
    exists SampleWarn.plainMember; split; reflexivity.
Defined.

Lemma warn_round_trip_witness :
  outcome (reloadWarnings
             (run (WarnCommand <$> [SampleWarn.first; SampleWarn.second]) (startup None)).1)
  = Value ([] ++ omap warn_record [SampleWarn.first; SampleWarn.second])
  ∧ length (omap warn_record [SampleWarn.first; SampleWarn.second]) = 2
  ∧ (∀ n i, [SampleWarn.first; SampleWarn.second] !! n = Some i →
       ∃ target staff, wi_target i = Some target ∧ wi_staff i = Some staff
         ∧ omap warn_record [SampleWarn.first; SampleWarn.second] !! n
           = Some {| caseId := wi_caseId i; userId := member_id target;
                     staffId := member_id staff; reason := wi_reason i;
                     timestamp := wi_now i |}).
Proof.
  apply (warn_round_trip [SampleWarn.first; SampleWarn.second] (startup None) []).
  - exact accepted_samples.
  - reflexivity.
Defined.

(** ** What a handler keeps and what it may emit

    The rules of [preserves], one for each construct of the monad. *)
Section Preserves.
Variable R : World → World → Prop.
Variable E : World → Effect → Prop.
Hypothesis R_refl : ∀ w, R w w.
Hypothesis R_trans : ∀ w1 w2 w3, R w1 w2 → R w2 w3 → R w1 w3.
Hypothesis E_back : ∀ w1 w2 e, R w1 w2 → E w2 e → E w1 e.

Lemma preserves_ret {A} (a : A) : preserves R E (ret a).
Proof using R_refl. intros w. split; [apply R_refl | constructor]. Qed.

Lemma preserves_throw {A} (e : JsError) : preserves R E (@throw A e).
Proof using R_refl. intros w. split; [apply R_refl | constructor]. Qed.

Lemma preserves_getWorld : preserves R E getWorld.
Proof using R_refl. intros w. split; [apply R_refl | constructor]. Qed.

Lemma preserves_emit (e : Effect) : (∀ w, E w e) → preserves R E (emit e).
Proof using R_refl.
  intros He w. split; [apply R_refl | by repeat constructor].
Qed.

Lemma preserves_extern (e : Effect) (ok : bool) :
  (∀ w, E w e) → preserves R E (extern e ok).
Proof using R_refl.
  intros He w. split; [apply R_refl | by repeat constructor].
Qed.

Lemma preserves_bind {A B} (m : Js A) (k : A → Js B) :
  preserves R E m → (∀ a, preserves R E (k a)) → preserves R E (bind m k).
Proof using R_trans E_back.
  intros Hm Hk w. specialize (Hm w). unfold bind, world_after, trace in *.
  destruct (m w) as [[[a|err] w1] t1]; simpl in *; [|done].
  specialize (Hk a w1). destruct (k a w1) as [[r w2] t2]. simpl in *.
  destruct Hm as [HR1 HE1], Hk as [HR2 HE2]. split; [by eapply R_trans|].
  apply Forall_app. split; [done|].
  eapply Forall_impl; [exact HE2|]. intros e. by apply E_back.
Qed.

Lemma preserves_try_catch {A} (body : Js A) (handler : JsError → Js A) :
  preserves R E body → (∀ err, preserves R E (handler err)) →
  preserves R E (try_catch body handler).
Proof using R_trans E_back.
  intros Hm Hk w. specialize (Hm w). unfold try_catch, world_after, trace in *.
  destruct (body w) as [[[a|err] w1] t1]; simpl in *; [done|].
  specialize (Hk err w1). destruct (handler err w1) as [[r w2] t2]. simpl in *.
  destruct Hm as [HR1 HE1], Hk as [HR2 HE2]. split; [by eapply R_trans|].
  apply Forall_app. split; [done|].
  eapply Forall_impl; [exact HE2|]. intros e. by apply E_back.
Qed.

Lemma preserves_JSON_parse {A} (t : FileText A) : preserves R E (JSON_parse t).
Proof using R_refl.
  destruct t; [apply preserves_throw..|apply preserves_ret].
Qed.

Lemma preserves_as_array {A} (v : JsonValue A) : preserves R E (as_array v).
Proof using R_refl.
  destruct v; [apply preserves_ret|apply preserves_throw].
Qed.

Lemma preserves_loadStarboardConfigs :
  (∀ w text, E w (ConsoleError text)) → preserves R E loadStarboardConfigs.
Proof using R_refl R_trans E_back.
  intros Hlog. unfold loadStarboardConfigs.
  apply preserves_bind; [apply preserves_getWorld|]. intros w.
  destruct (starboard_file w); [|apply preserves_ret].
  apply preserves_try_catch; [apply preserves_JSON_parse|]. intros err.
  apply preserves_bind; [by apply preserves_emit|]. intros _. apply preserves_ret.
Qed.
End Preserves.

(** One step of the proof that a handler body [preserves]. *)
Ltac preserves_step :=
  first
    [ apply preserves_ret; solve [auto]
    | apply preserves_throw; solve [auto]
    | apply preserves_getWorld; solve [auto]
    | apply preserves_as_array; solve [auto]
    | apply preserves_JSON_parse; solve [auto]
    | apply preserves_loadStarboardConfigs; solve [auto]
    | apply preserves_emit; solve [auto]
    | apply preserves_extern; solve [auto]
    | apply preserves_bind; [solve [auto] .. | | intros ?]
    | apply preserves_try_catch; [solve [auto] .. | | intros ?]
    | case_match ].

(** ** The message-create handler *)

Lemma loadStarboardConfigs_spec (w : World) :
  loadStarboardConfigs w
  = (match starboard_file w with
     | Some (Json v) => Value v
     | _ => Value (JArray [])
     end, w,
     match starboard_file w with
     | Some Blank | Some Garbage => [ConsoleError "Error loading starboard configs:"]
     | _ => []
     end).
Proof.
  unfold loadStarboardConfigs. js.
  destruct (starboard_file w) as [[| |v]|]; reflexivity.
Qed.

Lemma onMessageCreate_preserves (ev : MessageCreateEvent) :
  preserves eq (λ _, reaction_thread_or_console) (onMessageCreate ev).
Proof.
  assert (∀ w1 w2 w3 : World, w1 = w2 → w2 = w3 → w1 = w3) as Htrans by congruence.
  assert (∀ (w1 w2 : World) e, w1 = w2 →
            reaction_thread_or_console e → reaction_thread_or_console e) as Hback by done.
  assert (∀ (w : World) text, reaction_thread_or_console (ConsoleError text)) as Hlog by done.
  assert (∀ (w : World) id em, reaction_thread_or_console (React id em)) as Hreact by done.
  assert (∀ (w : World) c id n, reaction_thread_or_console (ThreadCreate c id n))
    as Hthread by done.
  unfold onMessageCreate. cbv zeta.
  repeat preserves_step.
Qed.

(** C10: the message-create handler leaves the state of the process as it
    found it, both files and the posted set, whatever the message; it writes
    no file, and the calls it makes are reactions, thread creations and
    console messages only. *)
Theorem onMessageCreate_frame (ev : MessageCreateEvent) (w : World) :
  world_after (onMessageCreate ev w) = w
  ∧ Forall reaction_thread_or_console (trace (onMessageCreate ev w))
  ∧ (∀ file, WriteFile file ∉ trace (onMessageCreate ev w))
  ∧ MkDir ∉ trace (onMessageCreate ev w).
Proof.
  destruct (onMessageCreate_preserves ev w) as [Hw Ht].
  split; [done|]. split; [done|].
  rewrite Forall_forall in Ht.
  split; [intros file Hin | intros Hin]; by apply Ht in Hin.
Qed.

Lemma config_for_file (w : World) (message : Message) (cfg : StarboardConfig) :
  config_for w message = Some cfg →
  ∃ configs,
    starboard_file w = Some (Json (JArray configs))
    ∧ find (λ c, bool_decide (Some (guildId c) = m_guildId message)) configs = Some cfg.
Proof.
  unfold config_for. rewrite loadStarboardConfigs_spec.
  destruct (starboard_file w) as [[| |[configs|]]|]; try done.
  intros Hfind. by exists configs.
Qed.

Lemma onMessageCreate_no_attachment (ev : MessageCreateEvent) (w : World)
    (cfg : StarboardConfig) :
  config_for w (mc_message ev) = Some cfg →
  onlyAttachments cfg = true →
  m_attachments (mc_message ev) = [] →
  trace (onMessageCreate ev w) = [].
Proof.
  intros Hcfg Honly Hnone.
  destruct (config_for_file _ _ _ Hcfg) as (configs & Hfile & Hfind).
  unfold onMessageCreate, trace.
  destruct (m_author (mc_message ev)) as [author|]; [|done].
  rewrite (bind_value _ _ w author w []); [|done].
  destruct (user_bot author || negb (bool_decide (is_Some (m_guild (mc_message ev)))));
    [done|].
  rewrite (bind_value _ _ w (JArray configs) w []);
    [|by rewrite loadStarboardConfigs_spec, Hfile].
  rewrite (bind_value _ _ w configs w []); [|done].
  rewrite Hfind, Honly, Hnone. simpl.
  by destruct (negb (bool_decide (m_channelId (mc_message ev) ∈ channelIds cfg))).
Qed.

(** C5: when the config that the handler finds for the guild of a new
    message has [onlyAttachments] set and the message has no attachment, the
    message-create handler makes no reaction call (it makes no call at all),
    in a monitored channel as in any other. *)
Theorem only_attachments_no_reaction (ev : MessageCreateEvent) (w : World)
    (cfg : StarboardConfig) :
  config_for w (mc_message ev) = Some cfg →
  onlyAttachments cfg = true →
  m_channelId (mc_message ev) ∈ channelIds cfg →
  m_attachments (mc_message ev) = [] →
  (∀ id em, React id em ∉ trace (onMessageCreate ev w))
  ∧ reaction_calls (m_id (mc_message ev)) (trace (onMessageCreate ev w)) = 0.
Proof.
  intros Hcfg Honly _ Hnone.
  rewrite (onMessageCreate_no_attachment ev w cfg Hcfg Honly Hnone).
  split; [|done]. intros id em Hin. by apply elem_of_nil in Hin.
Qed.

Lemma only_attachments_no_reaction_witness :
  (∀ id em, React id em
     ∉ trace (onMessageCreate SampleMessage.plainCreated SampleMessage.configured))
  ∧ reaction_calls "m1"
      (trace (onMessageCreate SampleMessage.plainCreated SampleMessage.configured)) = 0.
Proof.
  apply (only_attachments_no_reaction SampleMessage.plainCreated SampleMessage.configured
           Sample.cfgA).
  - reflexivity.
  - reflexivity.
  - apply list_elem_of_In. simpl. left. reflexivity.
  - reflexivity.
Defined.

(** The calls of the handler for a message that qualifies. *)
Lemma onMessageCreate_qualifying (ev : MessageCreateEvent) (w : World)
    (cfg : StarboardConfig) :
  qualifies w (mc_message ev) cfg →
  onMessageCreate ev w
  = (Value tt, w,
     (React (m_id (mc_message ev)) (emoji cfg)
        :: if mc_react_ok ev then [] else [ConsoleError "Starboard reaction failed"])
     ++ (if autoThread cfg && isTextChannel (m_channelType (mc_message ev))
         then ThreadCreate (m_channelId (mc_message ev)) (m_id (mc_message ev))
                (thread_name cfg)
              :: (if mc_thread_ok ev then [] else [ConsoleError "Thread creation failed"])
         else [])).
Proof.
  intros ((author & Hauthor & Hbot) & Hguild & Hcfg & Hchan & Hatt).
  destruct (config_for_file _ _ _ Hcfg) as (configs & Hfile & Hfind).
  unfold onMessageCreate. rewrite Hauthor.
  rewrite (bind_value _ _ w author w []); [|done]. simpl.
  rewrite Hbot, (bool_decide_eq_true_2 _ Hguild). simpl.
  rewrite (bind_value _ _ w (JArray configs) w []);
    [|by rewrite loadStarboardConfigs_spec, Hfile].
  simpl.
  rewrite (bind_value _ _ w configs w []); [|done]. simpl.
  rewrite Hfind, (bool_decide_eq_true_2 _ Hchan). simpl.
  assert (onlyAttachments cfg
          && bool_decide (length (m_attachments (mc_message ev)) = 0) = false) as ->.
  { destruct (onlyAttachments cfg); [|done]. simpl.
    apply bool_decide_eq_false. intros Hlen. apply Hatt; [done|].
    by apply nil_length_inv. }
  js. destruct (mc_react_ok ev); simpl;
    destruct (autoThread cfg && isTextChannel (m_channelType (mc_message ev))); simpl;
    try done; destruct (mc_thread_ok ev); done.
Qed.

Lemma reaction_calls_qualifying (ev : MessageCreateEvent) (w : World)
    (cfg : StarboardConfig) :
  qualifies w (mc_message ev) cfg →
  List.filter (is_react_of (m_id (mc_message ev))) (trace (onMessageCreate ev w))
  = [React (m_id (mc_message ev)) (emoji cfg)].
Proof.
  intros Hq. rewrite (onMessageCreate_qualifying ev w cfg Hq). unfold trace. simpl.
  rewrite bool_decide_eq_true_2; [|done]. f_equal.
  destruct (mc_react_ok ev); simpl;
    destruct (autoThread cfg && isTextChannel (m_channelType (mc_message ev))); simpl;
    try done; destruct (mc_thread_ok ev); done.
Qed.

Lemma run_redelivered (ev : MessageCreateEvent) (w : World) (cfg : StarboardConfig)
    (n : nat) :
  qualifies w (mc_message ev) cfg →
  (run (replicate n (MessageCreate ev)) w).1 = w
  ∧ List.filter (is_react_of (m_id (mc_message ev)))
      (run (replicate n (MessageCreate ev)) w).2
    = replicate n (React (m_id (mc_message ev)) (emoji cfg)).
Proof.
  intros Hq. induction n as [|n [IHw IHt]]; [done|].
  change (replicate (S n) (MessageCreate ev))
    with (MessageCreate ev :: replicate n (MessageCreate ev)).
  rewrite run_cons. simpl handle.
  destruct (onMessageCreate_preserves ev w) as [<- _]. simpl.
  split; [done|].
  rewrite List.filter_app, IHt, (reaction_calls_qualifying ev w cfg Hq). done.
Qed.

(** C8, as the handler has it: every delivery of a message that qualifies
    makes exactly one reaction-add call, with the configured emoji, whether
    the platform accepts it or not; the handler keeps no record of the
    messages it has seen, so [n] deliveries of the same message-create event
    make [n] reaction-add calls for that message. *)
Theorem one_reaction_per_delivery (ev : MessageCreateEvent) (w : World)
    (cfg : StarboardConfig) :
  qualifies w (mc_message ev) cfg →
  reaction_calls (m_id (mc_message ev)) (trace (onMessageCreate ev w)) = 1
  ∧ List.filter (is_react_of (m_id (mc_message ev))) (trace (onMessageCreate ev w))
    = [React (m_id (mc_message ev)) (emoji cfg)]
  ∧ ∀ n, reaction_calls (m_id (mc_message ev))
           (run (replicate n (MessageCreate ev)) w).2 = n.
Proof.
  intros Hq. unfold reaction_calls.
  rewrite (reaction_calls_qualifying ev w cfg Hq).
  split; [done|]. split; [done|]. intros n.
  destruct (run_redelivered ev w cfg n Hq) as [_ ->]. apply length_replicate.
Qed.

Lemma qualifies_picture :
  qualifies SampleMessage.configured SampleMessage.picture Sample.cfgA.
Proof.
  split; [exists SampleMessage.author; split; reflexivity|].
  split; [exists SampleMessage.guildA; reflexivity|].
  split; [reflexivity|].
  split; [apply list_elem_of_In; simpl; left; reflexivity|].
  intros _. discriminate.
Defined.

Lemma one_reaction_per_delivery_witness :
  reaction_calls "m1"
    (trace (onMessageCreate SampleMessage.pictureCreated SampleMessage.configured)) = 1
  ∧ List.filter (is_react_of "m1")
      (trace (onMessageCreate SampleMessage.pictureCreated SampleMessage.configured))
    = [React "m1" "⭐"]
  ∧ ∀ n, reaction_calls "m1"
           (run (replicate n (MessageCreate SampleMessage.pictureCreated))
              SampleMessage.configured).2 = n.
Proof.
  apply (one_reaction_per_delivery SampleMessage.pictureCreated SampleMessage.configured
           Sample.cfgA).
  exact qualifies_picture.
Defined.

(** The message-create event of a message that qualifies, delivered twice:
    the handler calls for the reaction twice, where C8 says once. *)
Lemma redelivery_reacts_twice :
  (run [MessageCreate SampleMessage.pictureCreated;
        MessageCreate SampleMessage.pictureCreated] SampleMessage.configured).2
  = [React "m1" "⭐"; React "m1" "⭐"]
  ∧ reaction_calls "m1"
      (run [MessageCreate SampleMessage.pictureCreated;
            MessageCreate SampleMessage.pictureCreated] SampleMessage.configured).2
    = 2.
Proof. split; reflexivity. Qed.

(** ** The posted set *)

Lemma reposts_nil (id : string) : ¬ reposts id [].
Proof. intros (c & em & H). by apply elem_of_nil in H. Qed.

Section Posted.
Variable id : string.

Lemma keeps_posted_refl w : keeps_posted id w w.
Proof. by intros H. Qed.

Lemma keeps_posted_trans w1 w2 w3 :
  keeps_posted id w1 w2 → keeps_posted id w2 w3 → keeps_posted id w1 w3.
Proof. unfold keeps_posted. auto. Qed.

Lemma repost_only_new_back w1 w2 e :
  keeps_posted id w1 w2 → repost_only_new id w2 e → repost_only_new id w1 e.
Proof. unfold keeps_posted, repost_only_new. auto. Qed.

Lemma guarded_write_starboard t : guarded id (write_starboard t).
Proof.
  intros w. unfold write_starboard, world_after, trace.
  destruct (dataDir w); simpl; (split; [by intros H|]); by repeat constructor.
Qed.

Lemma guarded_write_warnings t : guarded id (write_warnings t).
Proof.
  intros w. unfold write_warnings, world_after, trace.
  destruct (dataDir w); simpl; (split; [by intros H|]); by repeat constructor.
Qed.

Lemma guarded_ensure_dataDir : guarded id ensure_dataDir.
Proof.
  intros w. unfold ensure_dataDir, world_after, trace.
  destruct (dataDir w); simpl; (split; [by intros H|]); by repeat constructor.
Qed.

Lemma guarded_markPosted other : guarded id (markPosted other).
Proof.
  intros w. unfold markPosted, world_after, trace. simpl.
  split; [|constructor]. unfold keeps_posted, posted. simpl. set_solver.
Qed.

Ltac guarded_step :=
  first
    [ solve [auto 1]
    | apply guarded_write_starboard
    | apply guarded_write_warnings
    | apply guarded_ensure_dataDir
    | apply guarded_markPosted
    | preserves_step ].

Ltac guarded_auto :=
  pose proof keeps_posted_refl; pose proof keeps_posted_trans;
  pose proof repost_only_new_back;
  assert (∀ w m em, repost_only_new id w (React m em)) by done;
  assert (∀ w c m n, repost_only_new id w (ThreadCreate c m n)) by done;
  assert (∀ w m, repost_only_new id w (FetchReaction m)) by done;
  assert (∀ w m, repost_only_new id w (FetchMessage m)) by done;
  assert (∀ w c b, repost_only_new id w (Reply c b)) by done;
  assert (∀ w a b c d, repost_only_new id w (ReplyWarned a b c d)) by done;
  assert (∀ w a b c, repost_only_new id w (DirectMessage a b c)) by done;
  assert (∀ w text, repost_only_new id w (ConsoleError text)) by done;
  assert (∀ w text, repost_only_new id w (ConsoleWarn text)) by done;
  unfold guarded in *; cbv zeta; repeat guarded_step.

Lemma guarded_onMessageCreate ev : guarded id (onMessageCreate ev).
Proof. unfold onMessageCreate. guarded_auto. Qed.

Lemma guarded_saveConfig guild data : guarded id (saveConfig guild data).
Proof. unfold saveConfig. guarded_auto. Qed.

Lemma guarded_starboard_execute i : guarded id (starboard_execute i).
Proof.
  pose proof (guarded_saveConfig (si_guildId i)).
  unfold starboard_execute. guarded_auto.
Qed.

Lemma guarded_warn_execute i : guarded id (warn_execute i).
Proof. unfold warn_execute, readWarnings, setDescription, addFields. guarded_auto. Qed.

Lemma guarded_starboardReaction ev : guarded id (starboardReaction ev).
Proof. unfold starboardReaction. guarded_auto. Qed.

(** The test of line 241: with the id in the set, the Hall-of-Fame part
    returns before it resolves the channel, and nothing is sent. *)
Lemma hallOfFame_send_posted ev cfg fullMsg w :
  posted (m_id fullMsg) w →
  hallOfFame_send ev cfg fullMsg w = (Value None, w, []).
Proof.
  intros Hin. unfold hallOfFame_send.
  destruct (hallOfFameChannelId cfg) as [hofId|]; [|done].
  destruct (threshold cfg) as [thr|]; [|done].
  destruct (truthy_string hofId && truthy_number thr); [|done].
  destruct (thr <=? default 0 (ra_count ev))%Z; [|done].
  unfold bind, getWorld. by rewrite (bool_decide_eq_true_2 _ Hin).
Qed.

(** The three ways the Hall-of-Fame part ends. *)
Lemma hallOfFame_send_cases ev cfg fullMsg w :
  hallOfFame_send ev cfg fullMsg w = (Value None, w, [])
  ∨ hallOfFame_send ev cfg fullMsg w
    = (Value None, w, [ConsoleError "Message author is null"])
  ∨ ∃ hofId embed,
      ¬ posted (m_id fullMsg) w
      ∧ hallOfFame_send ev cfg fullMsg w
        = (if ra_send_ok ev then Value (Some (m_id fullMsg)) else Thrown ApiError,
           w, [HofSend hofId (m_id fullMsg) embed]).
Proof.
  unfold hallOfFame_send.
  destruct (hallOfFameChannelId cfg) as [hofId|]; [|by left].
  destruct (threshold cfg) as [thr|]; [|by left].
  destruct (truthy_string hofId && truthy_number thr); [|by left].
  destruct (thr <=? default 0 (ra_count ev))%Z; [|by left].
  js_unfold. cbv beta iota.
  destruct (decide (m_id fullMsg ∈ postedToHallOfFame w)) as [Hhas|Hhas].
  { rewrite (bool_decide_eq_true_2 _ Hhas). by left. }
  rewrite (bool_decide_eq_false_2 _ Hhas).
  destruct (m_guild fullMsg) as [guild|]; [|by left].
  destruct (channels_cache guild !! hofId) as [hofChan|]; [|by left].
  destruct (negb (isTextBased hofChan) || isThread hofChan); [by left|].
  destruct (m_author fullMsg) as [msgAuthor|].
  2: { right; left. done. }
  right; right. eexists _, _. split; [done|].
  by destruct (ra_send_ok ev).
Qed.

Lemma hallOfFame_send_world ev cfg fullMsg w :
  world_after (hallOfFame_send ev cfg fullMsg w) = w.
Proof.
  destruct (hallOfFame_send_cases ev cfg fullMsg w)
    as [->|[->|(hofId & embed & _ & ->)]]; done.
Qed.

(** The only call of the Hall-of-Fame part is the send, for the id of
    the message in hand. *)
Lemma hallOfFame_send_trace ev cfg fullMsg w e :
  e ∈ trace (hallOfFame_send ev cfg fullMsg w) →
  is_repost_of id e = true → id = m_id fullMsg.
Proof.
  destruct (hallOfFame_send_cases ev cfg fullMsg w)
    as [->|[->|(hofId & embed & _ & ->)]]; unfold trace; simpl; intros Hin.
  - by apply elem_of_nil in Hin.
  - apply list_elem_of_In in Hin as [<-|[]]. done.
  - apply list_elem_of_In in Hin as [<-|[]]. simpl.
    intros Heq. by apply bool_decide_eq_true in Heq.
Qed.

Lemma guarded_hallOfFame_send ev cfg fullMsg : guarded id (hallOfFame_send ev cfg fullMsg).
Proof.
  intros w. rewrite hallOfFame_send_world. split; [by intros H|].
  apply Forall_forall. intros e Hin Hrepost Hposted.
  pose proof (hallOfFame_send_trace ev cfg fullMsg w e Hin Hrepost) as ->.
  rewrite (hallOfFame_send_posted ev cfg fullMsg w Hposted) in Hin.
  by apply elem_of_nil in Hin.
Qed.

Lemma guarded_onMessageReactionAdd ev : guarded id (onMessageReactionAdd ev).
Proof.
  pose proof (guarded_starboardReaction ev).
  pose proof (guarded_hallOfFame_send ev).
  unfold onMessageReactionAdd, hallOfFame_mark. guarded_auto.
Qed.

Lemma guarded_onInteractionCreate name execute ok :
  guarded id execute → guarded id (onInteractionCreate name execute ok).
Proof. intros Hex. unfold onInteractionCreate. guarded_auto. Qed.

Lemma guarded_handle e : guarded id (handle e).
Proof.
  destruct e; simpl;
    [apply guarded_onMessageCreate | apply guarded_onMessageReactionAdd
    | apply guarded_onInteractionCreate, guarded_warn_execute
    | apply guarded_onInteractionCreate, guarded_starboard_execute].
Qed.

Lemma guarded_no_repost {A} (m : Js A) w :
  guarded id m → posted id w →
  posted id (world_after (m w)) ∧ ¬ reposts id (trace (m w)).
Proof.
  intros Hm Hin. destruct (Hm w) as [Hkeep Hemit]. split; [by apply Hkeep|].
  intros (channel & embed & Hsend).
  rewrite Forall_forall in Hemit. apply (Hemit _ Hsend); [|done].
  simpl. by apply bool_decide_eq_true.
Qed.

Lemma reposts_app t1 t2 : reposts id (t1 ++ t2) ↔ reposts id t1 ∨ reposts id t2.
Proof.
  unfold reposts. split.
  - intros (c & em & Hin). apply elem_of_app in Hin as [Hin|Hin]; eauto.
  - intros [(c & em & Hin)|(c & em & Hin)]; exists c, em; apply elem_of_app; auto.
Qed.

Lemma run_posted es w :
  posted id w → posted id (run es w).1 ∧ ¬ reposts id (run es w).2.
Proof.
  revert w. induction es as [|e es IH]; intros w Hin.
  - simpl. split; [done|]. apply reposts_nil.
  - rewrite run_cons. simpl.
    destruct (guarded_no_repost (handle e) w (guarded_handle e) Hin) as [Hin1 Hno1].
    destruct (IH _ Hin1) as [Hin2 Hno2]. split; [done|].
    rewrite reposts_app. tauto.
Qed.

Lemma step_posted a p :
  posted id (proc_world p) →
  posted id (proc_world (step a p).1) ∧ ¬ reposts id (step a p).2.
Proof.
  intros Hin. destruct a as [e|i]; simpl.
  - destruct e as [ev|ev|c|c]; simpl.
    + pose proof (guarded_no_repost _ _ (guarded_onMessageCreate ev) Hin) as H.
      unfold world_after, trace in H.
      by destruct (onMessageCreate ev (proc_world p)) as [[??]?].
    + pose proof (guarded_no_repost _ _ (guarded_starboardReaction ev) Hin) as H.
      unfold world_after, trace in H.
      by destruct (starboardReaction ev (proc_world p)) as [[??]?].
    + pose proof (guarded_no_repost _ _ (guarded_handle (WarnCommand c)) Hin) as H.
      unfold world_after, trace in H. simpl in H.
      by destruct (onInteractionCreate "warn" (warn_execute c) (wi_reply_ok c)
                    (proc_world p)) as [[??]?].
    + pose proof (guarded_no_repost _ _ (guarded_handle (StarboardCommand c)) Hin) as H.
      unfold world_after, trace in H. simpl in H.
      by destruct (onInteractionCreate "starboard" (starboard_execute c) (si_reply_ok c)
                    (proc_world p)) as [[??]?].
  - destruct (proc_tasks p !! i) as [[ev cfg fullMsg|other]|]; simpl.
    + pose proof (guarded_no_repost _ _ (guarded_hallOfFame_send ev cfg fullMsg) Hin) as H.
      unfold world_after, trace in H.
      by destruct (hallOfFame_send ev cfg fullMsg (proc_world p)) as [[??]?].
    + split; [unfold posted in *; simpl; set_solver|].
      apply reposts_nil.
    + split; [done|]. apply reposts_nil.
Qed.

Lemma schedule_posted acts p :
  posted id (proc_world p) →
  posted id (proc_world (schedule acts p).1) ∧ ¬ reposts id (schedule acts p).2.
Proof.
  revert p. induction acts as [|a acts IH]; intros p Hin.
  - simpl. split; [done|]. apply reposts_nil.
  - simpl. destruct (step_posted a p Hin) as [Hin1 Hno1].
    destruct (step a p) as [p1 t1]. simpl in *.
    destruct (IH p1 Hin1) as [Hin2 Hno2].
    destruct (schedule acts p1) as [p2 t2]. simpl in *.
    split; [done|]. rewrite reposts_app. tauto.
Qed.
End Posted.

(** The part of the handler before the Hall-of-Fame logic changes nothing
    and sends nothing to a Hall-of-Fame channel. *)
Lemma starboardReaction_preserves (ev : ReactionAddEvent) :
  preserves eq (λ _ e, ∀ id, is_repost_of id e = false) (starboardReaction ev).
Proof.
  assert (∀ w1 w2 w3 : World, w1 = w2 → w2 = w3 → w1 = w3) as Htrans by congruence.
  assert (∀ (w1 w2 : World) e, w1 = w2 →
            (∀ id, is_repost_of id e = false) → ∀ id, is_repost_of id e = false)
    as Hback by done.
  assert (∀ (w : World) text id, is_repost_of id (ConsoleError text) = false) by done.
  assert (∀ (w : World) m id, is_repost_of id (FetchReaction m) = false) by done.
  assert (∀ (w : World) m id, is_repost_of id (FetchMessage m) = false) by done.
  assert (∀ (w : World) c m n id, is_repost_of id (ThreadCreate c m n) = false) by done.
  unfold starboardReaction. cbv zeta.
  repeat preserves_step.
Qed.

Lemma reposts_singleton (id : string) (e : Effect) :
  reposts id [e] → is_repost_of id e = true.
Proof.
  intros (c & em & H). apply list_elem_of_In in H as [->|[]].
  simpl. by apply bool_decide_eq_true.
Qed.

(** A repost that the platform accepts puts the id of the message in the
    set: this is how an id comes to be posted. *)
Lemma accepted_repost_is_posted (ev : ReactionAddEvent) (w : World) (id : string) :
  reposts id (trace (onMessageReactionAdd ev w)) →
  ra_send_ok ev = true →
  posted id (world_after (onMessageReactionAdd ev w)).
Proof.
  intros Hsent Hok.
  destruct (starboardReaction_preserves ev w) as [Hw Hreach].
  assert (¬ reposts id (trace (starboardReaction ev w))) as Hnot1.
  { intros (c & em & Hin). rewrite Forall_forall in Hreach.
    specialize (Hreach _ Hin id). simpl in Hreach.
    by rewrite bool_decide_eq_true_2 in Hreach. }
  unfold onMessageReactionAdd, world_after, trace, bind in *.
  destruct (starboardReaction ev w) as [[[[[cfg fullMsg]|]|err] w1] t1];
    simpl in *; try done.
  - subst w1.
    destruct (hallOfFame_send_cases ev cfg fullMsg w)
      as [Hs|[Hs|(hofId & embed & Hnew & Hs)]]; rewrite Hs in *; simpl in *.
    + rewrite app_nil_r in Hsent. done.
    + apply reposts_app in Hsent as [?|Hsent]; [done|].
      by apply reposts_singleton in Hsent.
    + rewrite Hok in *. simpl in *.
      apply reposts_app in Hsent as [?|Hsent]; [done|].
      apply reposts_singleton in Hsent. simpl in Hsent.
      apply bool_decide_eq_true in Hsent. subst id.
      unfold posted. simpl. set_solver.
  - rewrite app_nil_r in Hsent. done.
Qed.

Lemma schedule_app (acts1 acts2 : list Action) (p : Process) :
  schedule (acts1 ++ acts2) p
  = ((schedule acts2 (schedule acts1 p).1).1,
     (schedule acts1 p).2 ++ (schedule acts2 (schedule acts1 p).1).2).
Proof.
  revert p. induction acts1 as [|a acts1 IH]; intros p.
  - simpl. by destruct (schedule acts2 p).
  - simpl. destruct (step a p) as [p1 t1]. rewrite IH.
    destruct (schedule acts1 p1) as [p2 t2]. simpl.
    destruct (schedule acts2 p2) as [p3 t3]. simpl. by rewrite app_assoc.
Qed.

(** A handler that runs from its first line to its last before anything
    else happens is the handler of [run]. *)
Lemma handler_in_one_go (e : Event) (w : World) :
  schedule [Deliver e; Resume 0; Resume 0] {| proc_world := w; proc_tasks := [] |}
  = ({| proc_world := world_after (handle e w); proc_tasks := [] |},
     trace (handle e w)).
Proof.
  unfold world_after, trace.
  destruct e as [ev|ev|c|c]; simpl.
  - destruct (onMessageCreate ev w) as [[r w1] t1]. simpl. by rewrite app_nil_r.
  - unfold onMessageReactionAdd, bind.
    destruct (starboardReaction ev w) as [[[[[cfg fullMsg]|]|err] w1] t1]; simpl;
      try by rewrite app_nil_r.
    destruct (hallOfFame_send ev cfg fullMsg w1) as [[[[id|]|err] w2] t2]; simpl;
      by rewrite ?app_nil_r.
  - destruct (onInteractionCreate "warn" (warn_execute c) (wi_reply_ok c) w)
      as [[r w1] t1]. simpl. by rewrite app_nil_r.
  - destruct (onInteractionCreate "starboard" (starboard_execute c) (si_reply_ok c) w)
      as [[r w1] t1]. simpl. by rewrite app_nil_r.
Qed.

Lemma run_one_by_one (es : list Event) (w : World) :
  schedule (one_by_one es) {| proc_world := w; proc_tasks := [] |}
  = ({| proc_world := (run es w).1; proc_tasks := [] |}, (run es w).2).
Proof.
  revert w. induction es as [|e es IH]; intros w; [done|].
  change (one_by_one (e :: es)) with ([Deliver e; Resume 0; Resume 0] ++ one_by_one es).
  rewrite schedule_app, handler_in_one_go, run_cons. simpl. by rewrite IH.
Qed.

(** C1: once the id of a message is in [postedToHallOfFame], nothing that
    happens later in the process sends that message to a Hall-of-Fame
    channel again, and the id stays in the set: not along any list of
    events handled one after the other, whatever the reaction counts they
    carry, and not along any interleaving of handlers that are suspended at
    the test of the set or at the awaited send. *)
Theorem posted_never_reposted (id : string) (p : Process) :
  posted id (proc_world p) →
  (∀ es, ¬ reposts id (run es (proc_world p)).2
         ∧ posted id (run es (proc_world p)).1)
  ∧ (∀ acts, ¬ reposts id (schedule acts p).2
             ∧ posted id (proc_world (schedule acts p).1)).
Proof.
  intros Hin. split.
  - intros es. destruct (run_posted id es _ Hin). done.
  - intros acts. destruct (schedule_posted id acts p Hin). done.
Qed.

Lemma posted_never_reposted_witness :
  (∀ es, ¬ reposts "m1" (run es (proc_world SampleReaction.reposted)).2
         ∧ posted "m1" (run es (proc_world SampleReaction.reposted)).1)
  ∧ (∀ acts, ¬ reposts "m1" (schedule acts SampleReaction.reposted).2
             ∧ posted "m1" (proc_world (schedule acts SampleReaction.reposted).1)).
Proof.
  apply (posted_never_reposted "m1" SampleReaction.reposted).
  unfold posted. simpl. apply elem_of_singleton. reflexivity.
Defined.

(** Two reactions that both reach the threshold: the first is reposted and
    its id recorded, the second is not reposted. *)
Example second_reaction_not_reposted :
  run [MessageReactionAdd SampleReaction.starred;
       MessageReactionAdd SampleReaction.starredAgain] SampleMessage.configured
  = (proc_world SampleReaction.reposted,
     [FetchMessage "m1";
      HofSend "333333333333333333" "m1"
        {| embed_author_name := "dora#0004"; embed_author_icon := "d.png";
           embed_description := Some "look"; embed_footer_emoji := "⭐";
           embed_footer_count := 2;
           embed_footer_url := "https://discord.com/channels/guildA/1/m1";
           embed_image := Some "p.png" |};
      FetchMessage "m1"]).
Proof. vm_compute. reflexivity. Qed.

(** What the set does not exclude: two handlers that both test the set
    before either has recorded the id both send.  The guarantee starts
    when the id is in the set. *)
Example interleaved_handlers_both_send :
  length (List.filter (is_repost_of "m1")
            (schedule [Deliver (MessageReactionAdd SampleReaction.starred);
                       Deliver (MessageReactionAdd SampleReaction.starredAgain);
                       Resume 0; Resume 1; Resume 0; Resume 0]
               {| proc_world := SampleMessage.configured; proc_tasks := [] |}).2)
  = 2.
Proof. vm_compute. reflexivity. Qed.

(** ** The identifiers of [/starboard] *)

(** *** The set of the matches *)

Lemma foldl_set_add (acc xs : list string) :
  foldl set_add acc xs = acc ++ filter (λ y, y ∉ acc) (first_occurrences xs).
Proof.
  revert acc. induction xs as [|x xs IH]; intros acc.
  - simpl. by rewrite app_nil_r.
  - simpl. rewrite IH. unfold set_add. case_bool_decide as Hx.
    + rewrite filter_cons_False by (intros Hn; by apply Hn).
      rewrite list_filter_filter. f_equal. apply list_filter_iff.
      intros y. split; [intros Hy; split; [done|by intros ->]|by intros [Hy _]].
    + rewrite filter_cons_True by done.
      rewrite list_filter_filter, <- app_assoc. simpl. do 2 f_equal.
      apply list_filter_iff. intros y. rewrite elem_of_app, list_elem_of_singleton. tauto.
Qed.

Lemma array_from_set_first_occurrences (xs : list string) :
  array_from_set xs = first_occurrences xs.
Proof.
  unfold array_from_set. rewrite foldl_set_add. simpl.
  induction (first_occurrences xs) as [|y l IH]; [done|].
  rewrite filter_cons_True by apply not_elem_of_nil. by rewrite IH.
Qed.

Lemma first_occurrences_elem_of (xs : list string) (x : string) :
  x ∈ first_occurrences xs ↔ x ∈ xs.
Proof.
  induction xs as [|a xs IH]; [done|]. simpl.
  rewrite !elem_of_cons, list_elem_of_filter, IH.
  destruct (decide (x = a)); tauto.
Qed.

Lemma first_occurrences_NoDup (xs : list string) : NoDup (first_occurrences xs).
Proof.
  induction xs as [|a xs IH]; simpl; [constructor|].
  apply NoDup_cons. split.
  - rewrite list_elem_of_filter. tauto.
  - by apply NoDup_filter.
Qed.

Lemma filter_eq_split {A} (P : A → Prop) `{!∀ x, Decision (P x)} (l l1 l2 : list A) x :
  filter P l = l1 ++ x :: l2 →
  ∃ k1 k2, l = k1 ++ x :: k2 ∧ filter P k1 = l1 ∧ filter P k2 = l2 ∧ P x.
Proof.
  revert l1. induction l as [|a l IH]; intros l1 Heq.
  - by destruct l1.
  - rewrite filter_cons in Heq. case_decide as Ha.
    + destruct l1 as [|b l1]; simpl in Heq; injection Heq as -> Heq.
      * exists [], l. by rewrite filter_nil.
      * destruct (IH _ Heq) as (k1 & k2 & -> & <- & <- & Hx).
        exists (b :: k1), k2. by rewrite filter_cons_True.
    + destruct (IH _ Heq) as (k1 & k2 & -> & <- & <- & Hx).
      exists (a :: k1), k2. by rewrite filter_cons_False.
Qed.

(** The place of an element in the result: the elements before it are
    the distinct elements of the input before its first occurrence. *)
Lemma first_occurrences_order (xs l1 l2 : list string) (x : string) :
  first_occurrences xs = l1 ++ x :: l2 →
  ∃ m1 m2, xs = m1 ++ x :: m2 ∧ (x ∉ m1) ∧ first_occurrences m1 = l1.
Proof.
  revert l1 l2. induction xs as [|a xs IH]; intros l1 l2 Heq.
  - by destruct l1.
  - simpl in Heq. destruct l1 as [|b l1]; simpl in Heq; injection Heq as -> Heq.
    + exists [], xs. split; [done|]. split; [apply not_elem_of_nil|done].
    + apply filter_eq_split in Heq as (k1 & k2 & Hfo & <- & _ & Hne).
      destruct (IH _ _ Hfo) as (m1 & m2 & -> & Hnot & <-).
      exists (b :: m1), m2. split; [done|]. split; [|done].
      rewrite not_elem_of_cons. done.
Qed.

(** C9: the ids that [/starboard] extracts from the channels input hold no
    identifier twice, however often it occurs in the input; they are the
    matches of the pattern in the order of their first occurrences: the ids
    before an id are the distinct matches before its first occurrence.
    So [validChannelIds], a selection of them in the same order, holds no
    identifier twice. *)
Theorem extract_ids_no_duplicates (i : StarboardInteraction) :
  NoDup (extract_ids (si_channels i))
  ∧ (∀ id, id ∈ extract_ids (si_channels i) ↔ id ∈ matchAll (si_channels i))
  ∧ extract_ids (si_channels i) = first_occurrences (matchAll (si_channels i))
  ∧ (∀ before id after,
       extract_ids (si_channels i) = before ++ id :: after →
       ∃ m1 m2, matchAll (si_channels i) = m1 ++ id :: m2
                ∧ (id ∉ m1) ∧ first_occurrences m1 = before)
  ∧ NoDup (validChannelIds i)
  ∧ sublist (validChannelIds i) (extract_ids (si_channels i)).
Proof.
  unfold validChannelIds, extract_ids.
  rewrite array_from_set_first_occurrences.
  split; [apply first_occurrences_NoDup|].
  split; [intros id; apply first_occurrences_elem_of|].
  split; [done|].
  split; [intros before id after; apply first_occurrences_order|].
  assert (sublist (List.filter (valid_channel (si_guild i))
                     (first_occurrences (matchAll (si_channels i))))
            (first_occurrences (matchAll (si_channels i)))) as Hsub.
  { induction (first_occurrences (matchAll (si_channels i))) as [|x l IH];
      simpl; [constructor|].
    destruct (valid_channel (si_guild i) x); by constructor. }
  split; [|done].
  eapply sublist_NoDup; [apply first_occurrences_NoDup|exact Hsub].
Qed.

(** *** The matches of the pattern *)

Local Open Scope nat_scope.

Lemma digit_run_cons (c : ascii) (s : list ascii) :
  digit_run (c :: s) = if is_digit c then S (digit_run s) else 0.
Proof. reflexivity. Qed.

Lemma scan_cons (skip : nat) (c : ascii) (s : list ascii) :
  scan skip (c :: s)
  = match skip with
    | S k => scan k s
    | 0 =>
        match match_here (c :: s) with
        | Some k => take k (c :: s) :: scan (k - 1) s
        | None => scan 0 s
        end
    end.
Proof. reflexivity. Qed.

Lemma digit_run_le_length (s : list ascii) : digit_run s ≤ length s.
Proof.
  induction s as [|c s IH]; simpl; [lia|]. destruct (is_digit c); simpl; lia.
Qed.

Lemma take_digit_run (s : list ascii) (k : nat) :
  k ≤ digit_run s → Forall (λ c, is_digit c = true) (take k s).
Proof.
  revert k. induction s as [|c s IH]; intros k Hk.
  - rewrite take_nil. constructor.
  - destruct k as [|k]; [constructor|]. simpl in *.
    destruct (is_digit c) eqn:Hc; [|lia].
    constructor; [done|]. apply IH. lia.
Qed.

Lemma match_here_Some (s : list ascii) (k : nat) :
  match_here s = Some k → 17 ≤ k ≤ 19 ∧ k ≤ digit_run s.
Proof.
  unfold match_here. destruct (17 <=? digit_run s `min` 19)%nat eqn:Hle; [|done].
  intros [= <-]. apply Nat.leb_le in Hle. lia.
Qed.

Lemma match_here_run (s : list ascii) :
  17 ≤ digit_run s ≤ 19 → match_here s = Some (digit_run s).
Proof.
  intros Hk. unfold match_here.
  replace (digit_run s `min` 19) with (digit_run s) by lia.
  destruct (17 <=? digit_run s)%nat eqn:Hle; [done|].
  apply Nat.leb_gt in Hle. lia.
Qed.

(** Every match is a piece of the text, of 17 to 19 digits. *)
Lemma scan_matches (skip : nat) (s m : list ascii) :
  m ∈ scan skip s →
  Forall (λ c, is_digit c = true) m ∧ 17 ≤ length m ≤ 19
  ∧ ∃ pre post, s = pre ++ m ++ post.
Proof.
  revert skip. induction s as [|c s IH]; intros skip Hin.
  - by apply elem_of_nil in Hin.
  - assert (∀ skip', m ∈ scan skip' s →
              Forall (λ c, is_digit c = true) m ∧ 17 ≤ length m ≤ 19
              ∧ ∃ pre post, c :: s = pre ++ m ++ post) as Hrest.
    { intros skip' Hin'. destruct (IH _ Hin') as (Hd & Hlen & pre & post & ->).
      split; [done|]. split; [done|]. by exists (c :: pre), post. }
    simpl in Hin. destruct skip as [|skip]; [|by eapply Hrest].
    destruct (match_here (c :: s)) as [k|] eqn:Hm; [|by eapply Hrest].
    apply elem_of_cons in Hin as [->|Hin]; [|by eapply Hrest].
    apply match_here_Some in Hm as [Hk Hrun].
    pose proof (digit_run_le_length (c :: s)).
    split; [by apply take_digit_run|].
    split; [rewrite length_take; lia|].
    exists [], (drop k (c :: s)). simpl. by rewrite take_drop.
Qed.

Lemma digit_run_app (run post : list ascii) :
  Forall (λ c, is_digit c = true) run →
  match post with c :: _ => is_digit c = false | [] => True end →
  digit_run (run ++ post) = length run.
Proof.
  intros Hrun Hpost. induction Hrun as [|c run Hc _ IH]; simpl.
  - destruct post as [|c post]; [done|]. simpl. by rewrite Hpost.
  - by rewrite Hc, IH.
Qed.

(** The search gets to the end of a piece of text that ends without a
    digit with nothing left to skip: no match runs over a character that
    is not a digit. *)
Lemma scan_reaches (pre rest : list ascii) (skip : nat) :
  skip ≤ digit_run (pre ++ rest) →
  (pre = [] → skip = 0) →
  match last pre with Some c => is_digit c = false | None => True end →
  ∃ found, scan skip (pre ++ rest) = found ++ scan 0 rest.
Proof.
  revert skip. induction pre as [|c pre IH]; intros skip Hskip Hnil Hlast.
  - rewrite (Hnil eq_refl). by exists [].
  - destruct pre as [|c' pre].
    + simpl in Hlast, Hskip. rewrite Hlast in Hskip.
      assert (skip = 0) as -> by lia.
      exists []. simpl. unfold match_here. simpl. by rewrite Hlast.
    + assert (∀ skip', skip' ≤ digit_run ((c' :: pre) ++ rest) →
                ∃ found, scan skip' ((c' :: pre) ++ rest) = found ++ scan 0 rest)
        as Hrest.
      { intros skip' Hskip'. apply IH; [done|done|].
        by rewrite last_cons_cons in Hlast. }
      change ((c :: c' :: pre) ++ rest) with (c :: ((c' :: pre) ++ rest)) in *.
      rewrite scan_cons. rewrite digit_run_cons in Hskip. destruct skip as [|skip].
      * destruct (match_here (c :: (c' :: pre) ++ rest)) as [k|] eqn:Hm.
        -- apply match_here_Some in Hm as [Hk Hrun]. rewrite digit_run_cons in Hrun.
           destruct (is_digit c); [|lia].
           destruct (Hrest (k - 1)) as [found Hfound]; [lia|].
           rewrite Hfound. by eexists (_ :: found).
        -- apply Hrest. lia.
      * destruct (is_digit c); [|lia]. apply Hrest. lia.
Qed.

(** A run of 17 to 19 digits with no digit before it and none after it is
    one of the matches. *)
Lemma scan_finds_run (pre run post : list ascii) :
  Forall (λ c, is_digit c = true) run →
  17 ≤ length run ≤ 19 →
  match last pre with Some c => is_digit c = false | None => True end →
  match post with c :: _ => is_digit c = false | [] => True end →
  run ∈ scan 0 (pre ++ run ++ post).
Proof.
  intros Hrun Hlen Hpre Hpost.
  destruct (scan_reaches pre (run ++ post) 0) as [found ->]; [lia|done|done|].
  apply elem_of_app. right.
  pose proof (digit_run_app run post Hrun Hpost) as Hdr.
  destruct run as [|c run]; [simpl in Hlen; lia|].
  change ((c :: run) ++ post) with (c :: (run ++ post)) in *.
  rewrite scan_cons, match_here_run by lia. rewrite Hdr.
  apply elem_of_cons. left.
  change (c :: (run ++ post)) with ((c :: run) ++ post).
  by rewrite take_app_length.
Qed.

Lemma string_of_list_ascii_app (a b : list ascii) :
  string_of_list_ascii (a ++ b) = string_of_list_ascii a +:+ string_of_list_ascii b.
Proof. induction a as [|c a IH]; simpl; [done|]. by rewrite IH. Qed.

Lemma list_ascii_of_string_app (a b : string) :
  list_ascii_of_string (a +:+ b) = list_ascii_of_string a ++ list_ascii_of_string b.
Proof. induction a as [|c a IH]; simpl; [done|]. by rewrite IH. Qed.

Lemma length_list_ascii_of_string (s : string) :
  length (list_ascii_of_string s) = String.length s.
Proof. induction s as [|c s IH]; simpl; [done|]. by rewrite IH. Qed.

Lemma matchAll_elem_of (s id : string) :
  id ∈ matchAll s ↔ list_ascii_of_string id ∈ scan 0 (list_ascii_of_string s).
Proof.
  unfold matchAll. rewrite list_elem_of_fmap. split.
  - intros (m & -> & Hin). by rewrite list_ascii_of_string_of_list_ascii.
  - intros Hin. exists (list_ascii_of_string id).
    by rewrite string_of_list_ascii_of_string.
Qed.

Lemma matchAll_sound (s id : string) :
  id ∈ matchAll s →
  all_digits id ∧ 17 ≤ String.length id ≤ 19 ∧ ∃ pre post, s = pre +:+ id +:+ post.
Proof.
  rewrite matchAll_elem_of. intros Hin.
  apply scan_matches in Hin as (Hd & Hlen & pre & post & Hs).
  split; [done|]. split; [by rewrite <- length_list_ascii_of_string|].
  exists (string_of_list_ascii pre), (string_of_list_ascii post).
  rewrite <- (string_of_list_ascii_of_string s), Hs.
  by rewrite !string_of_list_ascii_app, string_of_list_ascii_of_string.
Qed.

Lemma matchAll_complete (pre id post : string) :
  all_digits id → 17 ≤ String.length id ≤ 19 →
  ends_without_digit pre → starts_without_digit post →
  id ∈ matchAll (pre +:+ id +:+ post).
Proof.
  intros Hd Hlen Hpre Hpost. rewrite matchAll_elem_of, !list_ascii_of_string_app.
  apply scan_finds_run; [done|by rewrite length_list_ascii_of_string|done|].
  by destruct post.
Qed.

Lemma extract_ids_elem_of (s id : string) : id ∈ extract_ids s ↔ id ∈ matchAll s.
Proof.
  unfold extract_ids. rewrite array_from_set_first_occurrences.
  apply first_occurrences_elem_of.
Qed.

Lemma valid_channel_true (guild : option Guild) (id : string) :
  valid_channel guild id = true
  ↔ ∃ g, guild = Some g ∧ channels_cache g !! id = Some GuildText.
Proof.
  unfold valid_channel, isTextChannel. split.
  - destruct guild as [g|]; [|done].
    destruct (channels_cache g !! id) as [chan|] eqn:Hc; [|done].
    intros Ht. apply bool_decide_eq_true in Ht as ->. by exists g.
  - intros (g & -> & ->). by apply bool_decide_eq_true.
Qed.

Lemma starboard_no_valid_channel (i : StarboardInteraction) (w : World) :
  validChannelIds i = [] →
  starboard_execute i w
  = (if si_reply_ok i then Value tt else Thrown ApiError, w,
     [Reply no_valid_channels false]).
Proof. intros Hnone. unfold starboard_execute. by rewrite Hnone. Qed.

Lemma string_app_assoc_l (a b c : string) : (a +:+ b) +:+ c = a +:+ (b +:+ c).
Proof.
  induction a as [|x a IH]; [done|].
  change (String x ((a +:+ b) +:+ c) = String x (a +:+ (b +:+ c))). by rewrite IH.
Qed.

Lemma string_app_empty_r (a : string) : a +:+ "" = a.
Proof.
  induction a as [|x a IH]; [done|].
  change (String x (a +:+ "") = String x a). by rewrite IH.
Qed.

Lemma join_first (sep x : string) (r : list string) :
  ∃ rest, join sep (x :: r) = x +:+ rest.
Proof.
  simpl. revert x. induction r as [|y r IH]; intros x; simpl.
  - exists "". by rewrite string_app_empty_r.
  - destruct (IH (x +:+ sep +:+ y)) as [rest ->].
    exists ((sep +:+ y) +:+ rest). by rewrite string_app_assoc_l.
Qed.

(** A [/starboard] with a valid channel, on a config file that holds an
    array or is missing from an existing [data/]. *)
Lemma starboard_execute_stores (i : StarboardInteraction) (w : World) (d : DataDir)
    (configs : list StarboardConfig) :
  validChannelIds i ≠ [] →
  dataDir w = Some d →
  starboard_json d = Some (Json (JArray configs))
  ∨ starboard_json d = None ∧ configs = [] →
  ∃ rest,
    starboard_execute i w
    = (if si_reply_ok i then Value tt else Thrown ApiError,
       {| dataDir :=
            Some {| starboard_json :=
                      Some (Json (JArray
                        (filter (λ c, guildId c ≠ si_guildId i) configs
                         ++ [{| guildId := si_guildId i;
                                channelIds := validChannelIds i;
                                emoji := si_emoji i;
                                onlyAttachments := default false (si_only_attachments i);
                                autoThread := default false (si_auto_thread i);
                                hallOfFameChannelId := si_hall_of_fame i;
                                threshold := si_threshold i |}])));
                    warnings_json := warnings_json d |};
          postedToHallOfFame := postedToHallOfFame w |},
       [WriteFile StarboardJson;
        Reply ("✅ Starboard configured for channels: "
               +:+ join " " ((λ id, "<#" +:+ id +:+ ">") <$> validChannelIds i)
               +:+ rest) false]).
Proof.
  intros Hvalid Hd Hfile. unfold starboard_execute. cbv zeta.
  rewrite bool_decide_eq_false_2; [|intros Hlen; by apply nil_length_inv in Hlen].
  match goal with
  | |- context [Reply (join newline ((?x :: ?r) ++ ?more)) false] =>
      destruct (join_first newline x (r ++ more)) as [rest Hjoin];
      change (x :: r ++ more) with ((x :: r) ++ more) in Hjoin
  end.
  exists rest. rewrite Hjoin, string_app_assoc_l. unfold bind.
  destruct Hfile as [Hfile|[Hfile ->]].
  - rewrite (saveConfig_array configs _ _ w d Hd Hfile).
    unfold with_guildId, extern. by destruct (si_reply_ok i).
  - rewrite (saveConfig_missing_file _ _ w d Hd Hfile).
    unfold with_guildId, extern. by destruct (si_reply_ok i).
Qed.

(** C6: the ids that [/starboard] takes from the channels input are pieces
    of the input of 17 to 19 digits, and every run of 17 to 19 digits that
    stands between characters that are not digits is among them; the valid
    ids are those of them that the channel cache of the guild has as a text
    channel.  When there is none the command replies with the error, and
    nothing else happens.  When there is one, and the config file can be
    taken as an array, the command stores for the guild the record whose
    channels are exactly the valid ids, in their order, and confirms with
    the list of them; nothing but the valid ids is stored.  On the input
    of the example, in a guild where the two ids are text channels, the
    valid ids are the two ids in the order of the input. *)
Theorem starboard_channel_ids (i : StarboardInteraction) :
  (∀ id, id ∈ extract_ids (si_channels i) →
     all_digits id ∧ 17 ≤ String.length id ≤ 19
     ∧ ∃ pre post, si_channels i = pre +:+ id +:+ post)
  ∧ (∀ pre id post,
       si_channels i = pre +:+ id +:+ post →
       all_digits id → 17 ≤ String.length id ≤ 19 →
       ends_without_digit pre → starts_without_digit post →
       id ∈ extract_ids (si_channels i))
  ∧ (∀ id, id ∈ validChannelIds i
           ↔ id ∈ extract_ids (si_channels i)
             ∧ ∃ g, si_guild i = Some g ∧ channels_cache g !! id = Some GuildText)
  ∧ (∀ w, validChannelIds i = [] →
          starboard_execute i w
          = (if si_reply_ok i then Value tt else Thrown ApiError, w,
             [Reply no_valid_channels false]))
  ∧ (∀ w d configs,
       validChannelIds i ≠ [] →
       dataDir w = Some d →
       starboard_json d = Some (Json (JArray configs))
       ∨ starboard_json d = None ∧ configs = [] →
       ∃ rest,
         starboard_execute i w
         = (if si_reply_ok i then Value tt else Thrown ApiError,
            {| dataDir :=
                 Some {| starboard_json :=
                           Some (Json (JArray
                             (filter (λ c, guildId c ≠ si_guildId i) configs
                              ++ [{| guildId := si_guildId i;
                                     channelIds := validChannelIds i;
                                     emoji := si_emoji i;
                                     onlyAttachments :=
                                       default false (si_only_attachments i);
                                     autoThread := default false (si_auto_thread i);
                                     hallOfFameChannelId := si_hall_of_fame i;
                                     threshold := si_threshold i |}])));
                         warnings_json := warnings_json d |};
               postedToHallOfFame := postedToHallOfFame w |},
            [WriteFile StarboardJson;
             Reply ("✅ Starboard configured for channels: "
                    +:+ join " " ((λ id, "<#" +:+ id +:+ ">") <$> validChannelIds i)
                    +:+ rest) false]))
  ∧ (si_channels i = "<#111111111111111111> 222222222222222222 not-an-id" →
     valid_channel (si_guild i) "111111111111111111" = true →
     valid_channel (si_guild i) "222222222222222222" = true →
     validChannelIds i = ["111111111111111111"; "222222222222222222"]).
Proof.
  split; [|split; [|split; [|split; [|split]]]].
  - intros id Hin. apply matchAll_sound. by apply extract_ids_elem_of.
  - intros pre id post -> Hd Hlen Hpre Hpost.
    apply extract_ids_elem_of. by apply matchAll_complete.
  - intros id. unfold validChannelIds.
    rewrite list_elem_of_In, filter_In, <- list_elem_of_In, valid_channel_true. done.
  - intros w. apply starboard_no_valid_channel.
  - intros w d configs. apply starboard_execute_stores.
  - intros Hinput H1 H2. unfold validChannelIds. rewrite Hinput.
    change (extract_ids "<#111111111111111111> 222222222222222222 not-an-id")
      with ["111111111111111111"; "222222222222222222"].
    simpl. by rewrite H1, H2.
Qed.

Lemma starboard_channel_ids_witness :
  validChannelIds SampleStarboard.example
  = ["111111111111111111"; "222222222222222222"]
  ∧ starboard_execute SampleStarboard.noTextChannel (startup None)
    = (Value tt, startup None, [Reply no_valid_channels false])
  ∧ ∃ rest,
      starboard_execute SampleStarboard.example (startup (Some emptyDataDir))
      = (Value tt,
         {| dataDir :=
              Some {| starboard_json :=
                        Some (Json (JArray
                          [{| guildId := "guildA";
                              channelIds := validChannelIds SampleStarboard.example;
                              emoji := "⭐";
                              onlyAttachments := false;
                              autoThread := false;
                              hallOfFameChannelId := None;
                              threshold := None |}]));
                      warnings_json := None |};
            postedToHallOfFame := ∅ |},
         [WriteFile StarboardJson;
          Reply ("✅ Starboard configured for channels: "
                 +:+ join " " ((λ id, "<#" +:+ id +:+ ">")
                                 <$> validChannelIds SampleStarboard.example)
                 +:+ rest) false]).
Proof.
  split; [|split].
  - apply (starboard_channel_ids SampleStarboard.example); reflexivity.
  - apply (starboard_channel_ids SampleStarboard.noTextChannel). reflexivity.
  - destruct (starboard_channel_ids SampleStarboard.example)
      as (_ & _ & _ & _ & Hstore & _).
    apply (Hstore (startup (Some emptyDataDir)) emptyDataDir []).
    + intros Hnil. vm_compute in Hnil. discriminate Hnil.
    + reflexivity.
    + right. split; reflexivity.
Defined.

(** ** Missing and malformed files *)

Lemma load_unreadable (w : World) :
  unreadable (starboard_file w) →
  ∃ t, loadStarboardConfigs w = (Value (JArray []), w, t)
       ∧ Forall (λ e, is_console_error e = true) t
       ∧ (starboard_file w = None → t = []).
Proof.
  intros Hun. rewrite loadStarboardConfigs_spec.
  destruct Hun as [-> | [-> | ->]]; eexists; (split; [done|]);
    (split; [by repeat constructor|done]).
Qed.

Lemma starboardReaction_unreadable (ev : ReactionAddEvent) (w : World) :
  unreadable (starboard_file w) →
  ∃ t, starboardReaction ev w = (Value None, w, t).
Proof.
  intros Hun. destruct (load_unreadable w Hun) as (t & Hload & _).
  unfold starboardReaction. destruct (ra_user_bot ev); [by eexists|].
  rewrite (bind_value _ _ w (JArray []) w t Hload). cbv zeta.
  destruct (ra_partial ev); [destruct (ra_reaction_fetch_ok ev)|];
    js; try (by eexists);
    (destruct (m_guild (ra_message ev)) as [guild|]; [|by eexists]);
    (destruct (truthy_string (guild_id guild)); by eexists).
Qed.

Lemma onMessageReactionAdd_unreadable (ev : ReactionAddEvent) (w : World) :
  unreadable (starboard_file w) →
  outcome (onMessageReactionAdd ev w) = Value tt
  ∧ world_after (onMessageReactionAdd ev w) = w.
Proof.
  intros Hun. destruct (starboardReaction_unreadable ev w Hun) as (t & Hreach).
  unfold onMessageReactionAdd. by rewrite (bind_value _ _ w None w t Hreach).
Qed.

Lemma onMessageCreate_unreadable (ev : MessageCreateEvent) (w : World) :
  unreadable (starboard_file w) →
  is_Some (m_author (mc_message ev)) →
  outcome (onMessageCreate ev w) = Value tt
  ∧ world_after (onMessageCreate ev w) = w
  ∧ Forall (λ e, is_console_error e = true) (trace (onMessageCreate ev w)).
Proof.
  intros Hun [author Hauthor]. destruct (load_unreadable w Hun) as (t & Hload & Hlog & _).
  unfold onMessageCreate. rewrite Hauthor.
  rewrite (bind_value _ _ w author w []); [|done]. cbv beta.
  destruct (user_bot author || negb (bool_decide (is_Some (m_guild (mc_message ev)))));
    [by repeat split|].
  cbv beta iota. js_unfold. rewrite Hload. simpl.
  by rewrite app_nil_r.
Qed.

Lemma readWarnings_unreadable (w : World) :
  unreadable (warnings_file w) →
  readWarnings w
  = (Value (JArray []), w,
     match warnings_file w with
     | Some Garbage => [ConsoleError "Error parsing JSON from warnings file:"]
     | _ => []
     end).
Proof.
  intros Hun. unfold readWarnings. js. by destruct Hun as [-> | [-> | ->]].
Qed.

(** What [saveConfig] does on a file that does not hold JSON: the
    [JSON.parse] of line 92 is in no [try], so the [SyntaxError] leaves
    [saveConfig], nothing is written and [execute] rejects. *)
Lemma saveConfig_malformed_throws (guild : string) (data : ConfigData) (w : World) :
  starboard_file w = Some Blank ∨ starboard_file w = Some Garbage →
  saveConfig guild data w = (Thrown SyntaxError, w, []).
Proof.
  intros Hf. unfold saveConfig, starboard_file in *. js.
  destruct (dataDir w) as [d|]; simpl in *; [|by destruct Hf].
  by destruct Hf as [-> | ->].
Qed.

(** C4, as the code has it: on a file that is missing, blank or not JSON,
    [loadStarboardConfigs] and the read of [/warn] give the empty array and
    do not throw; they write to the console when [JSON.parse] was called
    and threw, which is never for a missing file and, in [/warn], not for a
    blank one.  So both starboard handlers return, leaving the state as it
    was, and an accepted [/warn] writes the array of its one record and
    ends as it does on a file that it can read: with the result of its
    reply, or with the builder's error when the confirmation cannot be built
    (a reason or a case id that is empty or longer than 1024 characters).
    [saveConfig] takes a missing file, in an existing [data/], as the empty
    array, without a console message. *)
Theorem unreadable_file_recovery (w : World) :
  (unreadable (starboard_file w) →
     outcome (loadStarboardConfigs w) = Value (JArray [])
     ∧ world_after (loadStarboardConfigs w) = w
     ∧ trace (loadStarboardConfigs w)
       = match starboard_file w with
         | None => []
         | Some _ => [ConsoleError "Error loading starboard configs:"]
         end)
  ∧ (unreadable (starboard_file w) →
     (∀ ev, outcome (onMessageReactionAdd ev w) = Value tt
            ∧ world_after (onMessageReactionAdd ev w) = w)
     ∧ (∀ ev, is_Some (m_author (mc_message ev)) →
              outcome (onMessageCreate ev w) = Value tt
              ∧ world_after (onMessageCreate ev w) = w
              ∧ Forall (λ e, is_console_error e = true) (trace (onMessageCreate ev w))))
  ∧ (unreadable (warnings_file w) →
     readWarnings w
     = (Value (JArray []), w,
        match warnings_file w with
        | Some Garbage => [ConsoleError "Error parsing JSON from warnings file:"]
        | _ => []
        end))
  ∧ (unreadable (warnings_file w) →
     ∀ i, accepted i →
       ∃ target staff,
         wi_target i = Some target ∧ wi_staff i = Some staff
         ∧ warnings_file (world_after (warn_execute i w))
           = Some (Json (JArray [warning_of i target staff]))
         ∧ outcome (warn_execute i w)
           = (if confirmation_fits i target staff
              then (if wi_reply_ok i then Value tt else Thrown ApiError)
              else Thrown ValidationError))
  ∧ (∀ d guild data,
       dataDir w = Some d → starboard_json d = None →
       outcome (saveConfig guild data w) = Value tt
       ∧ starboard_file (world_after (saveConfig guild data w))
         = Some (Json (JArray [with_guildId guild data]))
       ∧ trace (saveConfig guild data w) = [WriteFile StarboardJson]).
Proof.
  split; [|split; [|split; [|split]]].
  - intros Hun. rewrite loadStarboardConfigs_spec. unfold outcome, world_after, trace.
    simpl. by destruct Hun as [-> | [-> | ->]].
  - intros Hun. split.
    + intros ev. by apply onMessageReactionAdd_unreadable.
    + intros ev Hauthor. by apply onMessageCreate_unreadable.
  - apply readWarnings_unreadable.
  - intros Hun i Hacc.
    assert (outcome (reloadWarnings w) = Value []) as Hold.
    { rewrite reloadWarnings_spec. unfold outcome. simpl.
      by destruct Hun as [-> | [-> | ->]]. }
    destruct (warn_execute_appends i w [] Hacc Hold)
      as (target & staff & Ht & Hm & _ & Hfile & _ & _ & Hout).
    by exists target, staff.
  - intros d guild data Hd Hf. rewrite (saveConfig_missing_file guild data w d Hd Hf).
    done.
Qed.

Lemma unreadable_file_recovery_witness :
  outcome (loadStarboardConfigs (Sample.with_starboard Garbage)) = Value (JArray [])
  ∧ world_after (loadStarboardConfigs (Sample.with_starboard Garbage))
    = Sample.with_starboard Garbage
  ∧ trace (loadStarboardConfigs (Sample.with_starboard Garbage))
    = [ConsoleError "Error loading starboard configs:"].
Proof.
  apply (unreadable_file_recovery (Sample.with_starboard Garbage)).
  right. right. reflexivity.
Defined.

(** Two inputs at which C4 fails as it is stated.  With the config file
    missing, [loadStarboardConfigs] gives the empty array and writes nothing
    to the console.  With a config file that is not JSON, [/starboard] does
    not go on with an empty array: [saveConfig] throws, nothing is written,
    and the user gets the reply that the command failed. *)
Lemma unreadable_file_not_always_recovered :
  loadStarboardConfigs (startup (Some emptyDataDir))
  = (Value (JArray []), startup (Some emptyDataDir), [])
  ∧ saveConfig "guildA" Sample.dataA (Sample.with_starboard Garbage)
    = (Thrown SyntaxError, Sample.with_starboard Garbage, [])
  ∧ starboard_execute SampleStarboard.example (Sample.with_starboard Garbage)
    = (Thrown SyntaxError, Sample.with_starboard Garbage, [])
  ∧ handle (StarboardCommand SampleStarboard.example) (Sample.with_starboard Garbage)
    = (Value tt, Sample.with_starboard Garbage,
       [ConsoleError "Error executing starboard"; Reply command_failed true]).
Proof. repeat split; reflexivity. Qed.

(** * More properties of the handlers *)

(** ** The config file as a store *)

Lemma find_app_stdlib {A} (f : A → bool) (l1 l2 : list A) :
  find f (l1 ++ l2) = match find f l1 with Some x => Some x | None => find f l2 end.
Proof.
  induction l1 as [|x l1 IH]; simpl; [done|]. by destruct (f x).
Qed.

Lemma find_none_others (P : StarboardConfig → bool) (guild : string)
    (configs : list StarboardConfig) :
  (∀ c, P c = true → guildId c = guild) →
  find P (filter (λ c, guildId c ≠ guild) configs) = None.
Proof.
  intros HP. induction configs as [|c configs IH]; [done|].
  rewrite filter_cons. case_decide as Hc; [|done].
  simpl. destruct (P c) eqn:Hp; [|done]. by apply HP in Hp.
Qed.

(** The ways [saveConfig] ends. *)
Lemma saveConfig_cases (guild : string) (data : ConfigData) (w : World) :
  (∃ d configs,
     dataDir w = Some d
     ∧ (starboard_json d = None ∧ configs = []
        ∨ starboard_json d = Some (Json (JArray configs)))
     ∧ saveConfig guild data w
       = (Value tt,
          {| dataDir := Some {| starboard_json :=
                                  Some (Json (JArray
                                    (filter (λ c, guildId c ≠ guild) configs
                                     ++ [with_guildId guild data])));
                                warnings_json := warnings_json d |};
             postedToHallOfFame := postedToHallOfFame w |},
          [WriteFile StarboardJson]))
  ∨ (dataDir w = None
     ∧ saveConfig guild data w = (Thrown ENOENT, w, [WriteFile StarboardJson]))
  ∨ ((starboard_file w = Some Blank ∨ starboard_file w = Some Garbage)
     ∧ saveConfig guild data w = (Thrown SyntaxError, w, []))
  ∨ (starboard_file w = Some (Json JOther)
     ∧ saveConfig guild data w = (Thrown TypeError, w, [])).
Proof.
  destruct (dataDir w) as [d|] eqn:Hd.
  - destruct (starboard_json d) as [[| |[configs|]]|] eqn:Hf.
    + right; right; left. split; [left; unfold starboard_file; by rewrite Hd|].
      apply saveConfig_malformed_throws. left. unfold starboard_file. by rewrite Hd.
    + right; right; left. split; [right; unfold starboard_file; by rewrite Hd|].
      apply saveConfig_malformed_throws. right. unfold starboard_file. by rewrite Hd.
    + left. exists d, configs. split; [done|]. split; [by right|].
      by apply saveConfig_array.
    + right; right; right. unfold saveConfig, starboard_file. js.
      rewrite Hd. simpl. by rewrite Hf.
    + left. exists d, []. split; [done|]. split; [by left|].
      by apply saveConfig_missing_file.
  - right; left. split; [done|].
    unfold saveConfig, starboard_file, write_starboard. js. rewrite Hd. simpl.
    by rewrite Hd.
Qed.

(** X1: a config that [saveConfig] has saved is the one that the handlers
    find: when [saveConfig] returns, [loadStarboardConfigs] reads an array
    without a console message, and the config found in it for a message
    of the guild is the one saved. *)
Theorem saveConfig_then_load (guild : string) (data : ConfigData) (w : World) :
  outcome (saveConfig guild data w) = Value tt →
  ∃ configs,
    loadStarboardConfigs (world_after (saveConfig guild data w))
    = (Value (JArray configs), world_after (saveConfig guild data w), [])
    ∧ find (λ c, bool_decide (guildId c = guild)) configs = Some (with_guildId guild data)
    ∧ ∀ message, m_guildId message = Some guild →
        config_for (world_after (saveConfig guild data w)) message
        = Some (with_guildId guild data).
Proof.
  intros Hok.
  destruct (saveConfig_cases guild data w)
    as [(d & configs & Hd & Hfile & Hs)|[[_ Hs]|[[_ Hs]|[_ Hs]]]];
    rewrite Hs in *; try discriminate Hok.
  unfold world_after. simpl. eexists. split.
  - by rewrite loadStarboardConfigs_spec.
  - assert (∀ P : StarboardConfig → bool,
              (∀ c, P c = true → guildId c = guild) →
              P (with_guildId guild data) = true →
              find P (filter (λ c, guildId c ≠ guild) configs ++ [with_guildId guild data])
              = Some (with_guildId guild data)) as Hfind.
    { intros P HP Hnew. rewrite find_app_stdlib, (find_none_others P guild) by done.
      simpl. by rewrite Hnew. }
    split.
    + apply Hfind; [|by apply bool_decide_eq_true].
      intros c Hc. by apply bool_decide_eq_true in Hc.
    + intros message Hg. unfold config_for. rewrite loadStarboardConfigs_spec. simpl.
      rewrite Hg. apply Hfind; [|by apply bool_decide_eq_true].
      intros c Hc. apply bool_decide_eq_true in Hc. by injection Hc.
Qed.

Lemma saveConfig_then_load_witness :
  ∃ configs,
    loadStarboardConfigs
      (world_after (saveConfig "guildA" Sample.dataA SampleMessage.configured))
    = (Value (JArray configs),
       world_after (saveConfig "guildA" Sample.dataA SampleMessage.configured), [])
    ∧ find (λ c, bool_decide (guildId c = "guildA")) configs
      = Some (with_guildId "guildA" Sample.dataA)
    ∧ ∀ message, m_guildId message = Some "guildA" →
        config_for (world_after (saveConfig "guildA" Sample.dataA SampleMessage.configured))
          message
        = Some (with_guildId "guildA" Sample.dataA).
Proof.
  apply (saveConfig_then_load "guildA" Sample.dataA SampleMessage.configured).
  reflexivity.
Defined.

(** X2: [saveConfig] returns exactly when [data/] exists and the config
    file is missing or holds an array; in every other case it throws and
    leaves the state as it was, and it never makes the directory. *)
Theorem saveConfig_outcomes (guild : string) (data : ConfigData) (w : World) :
  (outcome (saveConfig guild data w) = Value tt
   ↔ ∃ d, dataDir w = Some d
          ∧ (starboard_json d = None
             ∨ ∃ configs, starboard_json d = Some (Json (JArray configs))))
  ∧ (outcome (saveConfig guild data w) ≠ Value tt →
     world_after (saveConfig guild data w) = w)
  ∧ (dataDir w = None → outcome (saveConfig guild data w) = Thrown ENOENT)
  ∧ MkDir ∉ trace (saveConfig guild data w).
Proof.
  unfold starboard_file.
  destruct (saveConfig_cases guild data w)
    as [(d & configs & Hd & Hfile & Hs)|[[Hd Hs]|[[Hf Hs]|[Hf Hs]]]];
    rewrite Hs; unfold outcome, world_after, trace; simpl.
  - split; [|split; [done|split; [by rewrite Hd|]]].
    + split; [|done]. intros _. exists d. split; [done|].
      destruct Hfile as [[? _]|?]; [by left|right; by exists configs].
    + intros Hin. apply list_elem_of_In in Hin as [|[]]. done.
  - split; [|split; [done|split; [done|]]].
    + split; [done|]. intros (d & Hd' & _). by rewrite Hd in Hd'.
    + intros Hin. apply list_elem_of_In in Hin as [|[]]. done.
  - split; [|split; [done|split; [|apply not_elem_of_nil]]].
    + split; [done|]. intros (d & Hd & Hfile). unfold starboard_file in Hf.
      rewrite Hd in Hf. simpl in Hf.
      destruct Hfile as [Hn|[cs Hn]]; rewrite Hn in Hf; by destruct Hf.
    + intros Hd. unfold starboard_file in Hf. rewrite Hd in Hf. by destruct Hf.
  - split; [|split; [done|split; [|apply not_elem_of_nil]]].
    + split; [done|]. intros (d & Hd & Hfile). unfold starboard_file in Hf.
      rewrite Hd in Hf. simpl in Hf.
      destruct Hfile as [Hn|[cs Hn]]; by rewrite Hn in Hf.
    + intros Hd. unfold starboard_file in Hf. by rewrite Hd in Hf.
Qed.

Lemma filter_others_app_new (guild : string) (configs : list StarboardConfig)
    (new : StarboardConfig) :
  guildId new = guild →
  filter (λ c, guildId c ≠ guild) (filter (λ c, guildId c ≠ guild) configs ++ [new])
  = filter (λ c, guildId c ≠ guild) configs.
Proof.
  intros Hnew. rewrite filter_app, filter_others_idemp.
  rewrite filter_cons_False by (intros Hne; by apply Hne).
  by rewrite filter_nil, app_nil_r.
Qed.

(** X3: the last save wins: saving a config for a guild and then another
    one for the same guild leaves the state that saving the second alone
    would leave. *)
Theorem saveConfig_last_wins (guild : string) (first second : ConfigData) (w : World) :
  outcome (saveConfig guild first w) = Value tt →
  saveConfig guild second (world_after (saveConfig guild first w))
  = saveConfig guild second w.
Proof.
  intros Hok.
  destruct (saveConfig_cases guild first w)
    as [(d & configs & Hd & Hfile & Hs)|[[_ Hs]|[[_ Hs]|[_ Hs]]]];
    rewrite Hs in *; try discriminate Hok.
  unfold world_after. simpl.
  erewrite saveConfig_array; [|done|done]. simpl.
  rewrite filter_others_app_new by done.
  destruct Hfile as [[Hnone ->]|Harr].
  - by rewrite (saveConfig_missing_file guild second w d Hd Hnone).
  - by rewrite (saveConfig_array configs guild second w d Hd Harr).
Qed.

Lemma saveConfig_last_wins_witness :
  saveConfig "guildA" SampleMore.dataB
    (world_after (saveConfig "guildA" Sample.dataA SampleMessage.configured))
  = saveConfig "guildA" SampleMore.dataB SampleMessage.configured.
Proof.
  apply (saveConfig_last_wins "guildA" Sample.dataA SampleMore.dataB
           SampleMessage.configured).
  reflexivity.
Defined.

(** ** What each handler leaves alone *)

Lemma keeps_starboard_refl w : keeps_starboard w w.
Proof. by split. Qed.

Lemma keeps_starboard_trans w1 w2 w3 :
  keeps_starboard w1 w2 → keeps_starboard w2 w3 → keeps_starboard w1 w3.
Proof. intros [H1 H2] [H3 H4]. split; congruence. Qed.

Lemma keeps_warnings_refl w : keeps_warnings w w.
Proof. by split. Qed.

Lemma keeps_warnings_trans w1 w2 w3 :
  keeps_warnings w1 w2 → keeps_warnings w2 w3 → keeps_warnings w1 w3.
Proof. intros [H1 H2] [H3 H4]. split; congruence. Qed.

Lemma keeps_files_trans w1 w2 w3 :
  keeps_files w1 w2 → keeps_files w2 w3 → keeps_files w1 w3.
Proof. unfold keeps_files. congruence. Qed.

Lemma warn_execute_keeps_starboard (i : WarnInteraction) :
  preserves keeps_starboard (not_write_of StarboardJson) (warn_execute i).
Proof.
  pose proof keeps_starboard_refl. pose proof keeps_starboard_trans.
  assert (∀ w1 w2 e, keeps_starboard w1 w2 →
            not_write_of StarboardJson w2 e → not_write_of StarboardJson w1 e) by done.
  assert (∀ w c b, not_write_of StarboardJson w (Reply c b)) by done.
  assert (∀ w a b c d, not_write_of StarboardJson w (ReplyWarned a b c d)) by done.
  assert (∀ w a b c, not_write_of StarboardJson w (DirectMessage a b c)) by done.
  assert (∀ w text, not_write_of StarboardJson w (ConsoleError text)) by done.
  assert (∀ w text, not_write_of StarboardJson w (ConsoleWarn text)) by done.
  assert (preserves keeps_starboard (not_write_of StarboardJson) ensure_dataDir).
  { intros w. unfold ensure_dataDir, world_after, trace, keeps_starboard, starboard_file.
    destruct (dataDir w) eqn:Hd; simpl; rewrite ?Hd; (split; [done|]);
      by repeat constructor. }
  assert (∀ t, preserves keeps_starboard (not_write_of StarboardJson) (write_warnings t)).
  { intros t w. unfold write_warnings, world_after, trace, keeps_starboard, starboard_file.
    destruct (dataDir w) eqn:Hd; simpl; rewrite ?Hd; (split; [done|]);
      by repeat constructor. }
  unfold warn_execute, readWarnings, setDescription, addFields. cbv zeta.
  repeat first [ solve [auto 1] | preserves_step ].
Qed.

Lemma saveConfig_keeps_warnings (guild : string) (data : ConfigData) :
  preserves keeps_warnings (not_write_of WarningsJson) (saveConfig guild data).
Proof.
  intros w.
  destruct (saveConfig_cases guild data w)
    as [(d & configs & Hd & Hfile & Hs)|[[Hd Hs]|[[Hf Hs]|[Hf Hs]]]];
    rewrite Hs; unfold world_after, trace, keeps_warnings, warnings_file; simpl;
    rewrite ?Hd; (split; [done|]); by repeat constructor.
Qed.

Lemma starboard_execute_keeps_warnings (i : StarboardInteraction) :
  preserves keeps_warnings (not_write_of WarningsJson) (starboard_execute i).
Proof.
  pose proof keeps_warnings_refl. pose proof keeps_warnings_trans.
  assert (∀ w1 w2 e, keeps_warnings w1 w2 →
            not_write_of WarningsJson w2 e → not_write_of WarningsJson w1 e) by done.
  assert (∀ w c b, not_write_of WarningsJson w (Reply c b)) by done.
  pose proof saveConfig_keeps_warnings.
  unfold starboard_execute. cbv zeta.
  repeat first [ solve [auto 1] | preserves_step ].
Qed.

Lemma onMessageReactionAdd_keeps_files (ev : ReactionAddEvent) :
  preserves keeps_files not_a_file_call (onMessageReactionAdd ev).
Proof.
  assert (∀ w, keeps_files w w) by done.
  pose proof keeps_files_trans.
  assert (∀ w1 w2 e, keeps_files w1 w2 → not_a_file_call w2 e → not_a_file_call w1 e)
    by done.
  assert (∀ w m em, not_a_file_call w (React m em)) by done.
  assert (∀ w c m n, not_a_file_call w (ThreadCreate c m n)) by done.
  assert (∀ w m, not_a_file_call w (FetchReaction m)) by done.
  assert (∀ w m, not_a_file_call w (FetchMessage m)) by done.
  assert (∀ w c m em, not_a_file_call w (HofSend c m em)) by done.
  assert (∀ w text, not_a_file_call w (ConsoleError text)) by done.
  assert (∀ id, preserves keeps_files not_a_file_call (markPosted id)).
  { intros id w. split; [done|constructor]. }
  unfold onMessageReactionAdd, starboardReaction, hallOfFame_send, hallOfFame_mark.
  cbv zeta.
  repeat first [ solve [auto 1] | preserves_step ].
Qed.

(** X4: [/warn] never touches the config file or the posted set, whatever
    the invocation, and [/starboard] never touches the warnings file or
    the posted set; neither writes the other's file. *)
Theorem commands_keep_to_their_file :
  (∀ i w,
     starboard_file (world_after (warn_execute i w)) = starboard_file w
     ∧ postedToHallOfFame (world_after (warn_execute i w)) = postedToHallOfFame w
     ∧ WriteFile StarboardJson ∉ trace (warn_execute i w))
  ∧ (∀ i w,
       warnings_file (world_after (starboard_execute i w)) = warnings_file w
       ∧ postedToHallOfFame (world_after (starboard_execute i w)) = postedToHallOfFame w
       ∧ WriteFile WarningsJson ∉ trace (starboard_execute i w)).
Proof.
  split; intros i w.
  - destruct (warn_execute_keeps_starboard i w) as [[Hf Hp] Ht].
    split; [done|]. split; [done|].
    intros Hin. rewrite Forall_forall in Ht. by apply Ht in Hin.
  - destruct (starboard_execute_keeps_warnings i w) as [[Hf Hp] Ht].
    split; [done|]. split; [done|].
    intros Hin. rewrite Forall_forall in Ht. by apply Ht in Hin.
Qed.

(** X5: the reaction-add handler reads the config file and never writes:
    it leaves the directory [data/] as it was and makes no file call; the
    one thing it changes is the posted set. *)
Theorem onMessageReactionAdd_frame (ev : ReactionAddEvent) (w : World) :
  dataDir (world_after (onMessageReactionAdd ev w)) = dataDir w
  ∧ (∀ file, WriteFile file ∉ trace (onMessageReactionAdd ev w))
  ∧ (MkDir ∉ trace (onMessageReactionAdd ev w))
  ∧ postedToHallOfFame w ⊆ postedToHallOfFame (world_after (onMessageReactionAdd ev w)).
Proof.
  destruct (onMessageReactionAdd_keeps_files ev w) as [Hd Ht].
  rewrite Forall_forall in Ht.
  split; [done|]. split; [intros file Hin; by apply Ht in Hin|].
  split; [intros Hin; by apply Ht in Hin|].
  intros id Hid.
  by destruct (guarded_no_repost id (onMessageReactionAdd ev) w
                 (guarded_onMessageReactionAdd id ev) Hid).
Qed.

(** ** One record for each guild *)

Lemma starboard_execute_saves (i : StarboardInteraction) (w : World) :
  world_after (starboard_execute i w) = w
  ∨ (validChannelIds i ≠ []
     ∧ world_after (starboard_execute i w)
       = world_after (saveConfig (si_guildId i) (starboard_configData i) w)).
Proof.
  unfold starboard_execute, starboard_configData. cbv zeta.
  destruct (bool_decide (length (validChannelIds i) = 0)) eqn:Hlen; [by left|].
  right. apply bool_decide_eq_false in Hlen.
  split; [intros Hnil; by rewrite Hnil in Hlen|].
  unfold world_after, bind.
  by destruct (saveConfig _ _ w) as [[[[]|err] w1] t1].
Qed.

Lemma NoDup_guilds_saved (guild : string) (configs : list StarboardConfig)
    (new : StarboardConfig) :
  guildId new = guild →
  NoDup (guildId <$> configs) →
  NoDup (guildId <$> (filter (λ c, guildId c ≠ guild) configs ++ [new])).
Proof.
  intros Hnew Hnd. rewrite fmap_app. apply NoDup_app. split; [|split].
  - eapply sublist_NoDup; [exact Hnd|]. apply fmap_sublist, sublist_filter.
  - intros g Hin Hin'. simpl in Hin'. apply list_elem_of_singleton in Hin'.
    apply list_elem_of_fmap in Hin as (c & -> & Hc).
    apply list_elem_of_filter in Hc as [Hne _]. congruence.
  - simpl. apply NoDup_singleton.
Qed.

Lemma saveConfig_unique_guilds (guild : string) (data : ConfigData) (w : World) :
  unique_guilds w → unique_guilds (world_after (saveConfig guild data w)).
Proof.
  intros Huniq.
  destruct (saveConfig_cases guild data w)
    as [(d & configs & Hd & Hfile & Hs)|[[_ Hs]|[[_ Hs]|[_ Hs]]]];
    rewrite Hs; unfold world_after; simpl; try done.
  intros saved Hsaved. unfold starboard_file in Hsaved. simpl in Hsaved.
  injection Hsaved as <-. apply NoDup_guilds_saved; [done|].
  destruct Hfile as [[_ ->]|Harr]; [constructor|].
  apply Huniq. unfold starboard_file. by rewrite Hd.
Qed.

Lemma handle_unique_guilds (e : Event) (w : World) :
  unique_guilds w → unique_guilds (world_after (handle e w)).
Proof.
  intros Huniq. destruct e as [ev|ev|i|i]; simpl.
  - by destruct (onMessageCreate_preserves ev w) as [<- _].
  - destruct (onMessageReactionAdd_keeps_files ev w) as [Hd _].
    intros configs Hfile. apply Huniq. unfold starboard_file in *.
    by rewrite <- Hd.
  - rewrite onInteractionCreate_world.
    destruct (warn_execute_keeps_starboard i w) as [[Hf _] _].
    intros configs Hfile. apply Huniq. by rewrite <- Hf.
  - rewrite onInteractionCreate_world.
    destruct (starboard_execute_saves i w) as [->|[_ ->]]; [done|].
    by apply saveConfig_unique_guilds.
Qed.

(** X6: no event breaks the invariant of the config file: when the file
    holds at most one record for each guild, it still does after any list of
    events, handled one after the other. *)
Theorem run_unique_guilds (es : list Event) (w : World) :
  unique_guilds w → unique_guilds (run es w).1.
Proof.
  revert w. induction es as [|e es IH]; intros w Huniq; [done|].
  rewrite run_cons. simpl. apply IH. by apply handle_unique_guilds.
Qed.

Lemma unique_guilds_configured : unique_guilds SampleMessage.configured.
Proof.
  intros configs Hfile. vm_compute in Hfile. injection Hfile as <-.
  repeat (apply NoDup_cons; split; [by intros Hin; repeat (apply elem_of_cons in Hin as [Hin|Hin]; [discriminate Hin|]); apply elem_of_nil in Hin|]).
  apply NoDup_nil. done.
Defined.

Lemma run_unique_guilds_witness :
  unique_guilds
    (run [StarboardCommand SampleStarboard.example;
          WarnCommand SampleWarn.first;
          StarboardCommand SampleStarboard.example] SampleMessage.configured).1.
Proof.
  apply (run_unique_guilds
           [StarboardCommand SampleStarboard.example;
            WarnCommand SampleWarn.first;
            StarboardCommand SampleStarboard.example] SampleMessage.configured).
  exact unique_guilds_configured.
Defined.

(** X7: [saveStarboardConfigs] of [index.ts] and [loadStarboardConfigs] are
    a round trip from any state: the save returns, making [data/] when it
    is missing, the load then gives the array saved, without a console
    message, and the warnings file and the posted set are as before. *)
Theorem saveStarboardConfigs_then_load (configs : list StarboardConfig) (w : World) :
  outcome (saveStarboardConfigs configs w) = Value tt
  ∧ loadStarboardConfigs (world_after (saveStarboardConfigs configs w))
    = (Value (JArray configs), world_after (saveStarboardConfigs configs w), [])
  ∧ warnings_file (world_after (saveStarboardConfigs configs w)) = warnings_file w
  ∧ postedToHallOfFame (world_after (saveStarboardConfigs configs w))
    = postedToHallOfFame w.
Proof.
  rewrite loadStarboardConfigs_spec.
  unfold saveStarboardConfigs, ensure_dataDir, write_starboard, JSON_stringify,
    starboard_file, warnings_file.
  js. destruct (dataDir w) as [d|] eqn:Hd; simpl; rewrite ?Hd; simpl; done.
Qed.

(** ** When the message-create handler reacts *)

Lemma triple_eta {A B C} (r : A * B * list C) : (r.1.1, r.1.2, [] ++ r.2) = r.
Proof. by destruct r as [[??]?]. Qed.

(** Either the message qualifies under the config found for it, or the
    handler makes no call to the platform. *)
Lemma onMessageCreate_cases (ev : MessageCreateEvent) (w : World) :
  (∃ cfg, qualifies w (mc_message ev) cfg)
  ∨ Forall (λ e, is_console_error e = true) (trace (onMessageCreate ev w)).
Proof.
  destruct (m_author (mc_message ev)) as [author|] eqn:Hauthor.
  2: { right. unfold onMessageCreate, trace. rewrite Hauthor. js. constructor. }
  destruct (user_bot author) eqn:Hbot.
  { right. unfold onMessageCreate, trace. rewrite Hauthor. js_unfold.
    cbv beta iota zeta. rewrite Hbot. simpl. constructor. }
  destruct (m_guild (mc_message ev)) as [guild|] eqn:Hguild.
  2: { right. unfold onMessageCreate, trace. rewrite Hauthor. js_unfold.
       cbv beta iota zeta. rewrite Hbot, Hguild.
       rewrite bool_decide_eq_false_2 by (by intros [? ?]). simpl. constructor. }
  assert (onMessageCreate ev w
          = (let* parsed := loadStarboardConfigs in
             let* configs := as_array parsed in
             match find (λ c, bool_decide (Some (guildId c) = m_guildId (mc_message ev)))
                     configs with
             | None => ret tt
             | Some cfg =>
                 if negb (bool_decide (m_channelId (mc_message ev) ∈ channelIds cfg))
                 then ret tt else
                 if onlyAttachments cfg
                    && bool_decide (length (m_attachments (mc_message ev)) = 0)
                 then ret tt else
                 do try_catch
                      (extern (React (m_id (mc_message ev)) (emoji cfg)) (mc_react_ok ev))
                      (λ e, emit (ConsoleError "Starboard reaction failed")) then
                 if autoThread cfg && isTextChannel (m_channelType (mc_message ev)) then
                   try_catch
                     (extern (ThreadCreate (m_channelId (mc_message ev))
                                (m_id (mc_message ev)) (thread_name cfg))
                             (mc_thread_ok ev))
                     (λ e, emit (ConsoleError "Thread creation failed"))
                 else ret tt
             end) w) as ->.
  { unfold onMessageCreate. rewrite Hauthor.
    rewrite (bind_value _ _ w author w []); [|done]. cbv beta.
    rewrite Hbot, Hguild. rewrite bool_decide_eq_true_2 by (by eexists).
    simpl negb. cbv iota. apply triple_eta. }
  unfold trace. js_unfold. rewrite loadStarboardConfigs_spec.
  destruct (starboard_file w) as [[| |[configs|]]|] eqn:Hfile; simpl;
    try (right; by repeat constructor).
  destruct (find _ configs) as [cfg|] eqn:Hfind; simpl;
    [|right; by repeat constructor].
  destruct (decide (m_channelId (mc_message ev) ∈ channelIds cfg)) as [Hchan|Hchan].
  2: { rewrite (bool_decide_eq_false_2 _ Hchan). simpl. right. constructor. }
  destruct (onlyAttachments cfg) eqn:Honly;
    destruct (m_attachments (mc_message ev)) as [|a atts] eqn:Hatt.
  - rewrite (bool_decide_eq_true_2 _ Hchan). simpl. right. constructor.
  - left. exists cfg. split; [by exists author|]. split; [by eexists|].
    split; [|split; [done|by rewrite Hatt]].
    unfold config_for. by rewrite loadStarboardConfigs_spec, Hfile.
  - left. exists cfg. split; [by exists author|]. split; [by eexists|].
    split; [|split; [done|intros Ht; congruence]].
    unfold config_for. by rewrite loadStarboardConfigs_spec, Hfile.
  - left. exists cfg. split; [by exists author|]. split; [by eexists|].
    split; [|split; [done|intros Ht; congruence]].
    unfold config_for. by rewrite loadStarboardConfigs_spec, Hfile.
Qed.

(** X8: the message-create handler asks for a reaction exactly when the
    message qualifies: written by a user in a guild, in a channel that the
    config found for the guild monitors, with an attachment when the config
    asks for one.  The reaction is then for that message, with the emoji of
    the config. *)
Theorem onMessageCreate_reacts_iff (ev : MessageCreateEvent) (w : World)
    (id em : string) :
  React id em ∈ trace (onMessageCreate ev w)
  ↔ ∃ cfg, qualifies w (mc_message ev) cfg
           ∧ id = m_id (mc_message ev) ∧ em = emoji cfg.
Proof.
  split.
  - intros Hin. destruct (onMessageCreate_cases ev w) as [[cfg Hq]|Hquiet].
    + exists cfg. split; [done|].
      rewrite (onMessageCreate_qualifying ev w cfg Hq) in Hin. unfold trace in Hin.
      simpl in Hin. apply elem_of_cons in Hin as [[= -> ->]|Hin]; [done|].
      exfalso. apply elem_of_app in Hin as [Hin|Hin].
      * destruct (mc_react_ok ev); [by apply elem_of_nil in Hin|].
        by apply list_elem_of_singleton in Hin.
      * destruct (autoThread cfg && isTextChannel (m_channelType (mc_message ev)));
          [|by apply elem_of_nil in Hin].
        apply elem_of_cons in Hin as [|Hin]; [done|].
        destruct (mc_thread_ok ev); [by apply elem_of_nil in Hin|].
        by apply list_elem_of_singleton in Hin.
    + rewrite Forall_forall in Hquiet. by apply Hquiet in Hin.
  - intros (cfg & Hq & -> & ->).
    rewrite (onMessageCreate_qualifying ev w cfg Hq). unfold trace. simpl.
    apply elem_of_cons. by left.
Qed.

(** X9: for a message that qualifies the handler returns whatever the
    platform answers: a rejected reaction or thread is written to the
    console and not thrown, and the thread is asked for exactly when
    [autoThread] is set and the channel is a text channel, also after a
    rejected reaction. *)
Theorem thread_whatever_the_reaction (ev : MessageCreateEvent) (w : World)
    (cfg : StarboardConfig) :
  qualifies w (mc_message ev) cfg →
  outcome (onMessageCreate ev w) = Value tt
  ∧ (ThreadCreate (m_channelId (mc_message ev)) (m_id (mc_message ev)) (thread_name cfg)
       ∈ trace (onMessageCreate ev w)
     ↔ autoThread cfg = true ∧ m_channelType (mc_message ev) = GuildText)
  ∧ (ConsoleError "Starboard reaction failed" ∈ trace (onMessageCreate ev w)
     ↔ mc_react_ok ev = false).
Proof.
  intros Hq. rewrite (onMessageCreate_qualifying ev w cfg Hq).
  unfold outcome, trace, isTextChannel. simpl. split; [done|].
  destruct (mc_react_ok ev), (autoThread cfg),
    (decide (m_channelType (mc_message ev) = GuildText)) as [Ht|Ht];
    rewrite ?(bool_decide_eq_true_2 _ Ht), ?(bool_decide_eq_false_2 _ Ht); simpl;
    destruct (mc_thread_ok ev);
    (split; split; [intros Hin|intros H; try (by destruct H); try done
                    |intros Hin|intros H; try done]);
    repeat match goal with
           | H : _ ∈ _ :: _ |- _ => apply elem_of_cons in H as [H|H]; try discriminate H
           | H : _ ∈ [] |- _ => by apply elem_of_nil in H
           end;
    try done; try (by destruct H);
    repeat (first [ apply list_elem_of_here | apply list_elem_of_further ]).
Qed.

Lemma thread_whatever_the_reaction_witness :
  outcome (onMessageCreate SampleMessage.pictureCreated SampleMessage.configured) = Value tt
  ∧ (ThreadCreate "111111111111111111" "m1" (thread_name Sample.cfgA)
       ∈ trace (onMessageCreate SampleMessage.pictureCreated SampleMessage.configured)
     ↔ autoThread Sample.cfgA = true ∧ GuildText = GuildText)
  ∧ (ConsoleError "Starboard reaction failed"
       ∈ trace (onMessageCreate SampleMessage.pictureCreated SampleMessage.configured)
     ↔ true = false).
Proof.
  apply (thread_whatever_the_reaction SampleMessage.pictureCreated SampleMessage.configured
           Sample.cfgA).
  exact qualifies_picture.
Defined.

(** ** When the reaction-add handler reposts *)

Lemma starboardReaction_matching (ev : ReactionAddEvent) (w : World)
    (cfg : StarboardConfig) :
  reaction_matches w ev cfg → fetches_accepted ev →
  starboardReaction ev w
  = (Value (Some (cfg, ra_message ev)), w, fetch_calls ev ++ thread_calls ev cfg).
Proof.
  intros (Hbot & (guild & configs & Hguild & Hgid & Hfile & Hfind) & Hemoji & Hcid
          & Hchan & Hatt) (Hf1 & Hf2 & Hf3).
  unfold starboardReaction, fetch_calls, thread_calls. rewrite Hbot.
  rewrite (bind_value _ _ w (JArray configs) w []);
    [|by rewrite loadStarboardConfigs_spec, Hfile].
  cbv zeta beta.
  assert (onlyAttachments cfg
          && bool_decide (length (m_attachments (ra_message ev)) = 0) = false) as Hrule.
  { destruct (onlyAttachments cfg); [|done]. simpl.
    apply bool_decide_eq_false. intros Hlen. apply Hatt; [done|].
    by apply nil_length_inv. }
  js_unfold. rewrite Hguild. unfold truthy_string.
  destruct (ra_partial ev); [rewrite Hf1 by done|]; simpl;
    rewrite (bool_decide_eq_false_2 _ Hgid); simpl; rewrite Hfind; simpl;
    rewrite (bool_decide_eq_true_2 _ Hemoji); simpl;
    (destruct (m_partial (ra_message ev)); [rewrite Hf2 by done|]); simpl;
    rewrite (bool_decide_eq_false_2 _ Hcid); simpl;
    rewrite (bool_decide_eq_true_2 _ Hchan); simpl;
    rewrite Hf3, Hrule; simpl;
    destruct (autoThread cfg && isTextChannel (m_channelType (ra_message ev))
              && negb (m_hasThread (ra_message ev))); simpl;
    try done; destruct (ra_thread_ok ev); done.
Qed.

Lemma reaction_matches_intro (w : World) (ev : ReactionAddEvent)
    (cfg : StarboardConfig) (guild : Guild) (configs : list StarboardConfig) :
  ra_user_bot ev = false →
  m_guild (ra_message ev) = Some guild →
  negb (truthy_string (guild_id guild)) = false →
  starboard_file w = Some (Json (JArray configs)) →
  find (λ c, bool_decide (guildId c = guild_id guild)) configs = Some cfg →
  negb (bool_decide (ra_emoji ev = emoji cfg)) = false →
  negb (truthy_string (m_channelId (ra_message ev))) = false →
  negb (bool_decide (m_channelId (ra_message ev) ∈ channelIds cfg)) = false →
  onlyAttachments cfg && bool_decide (length (m_attachments (ra_message ev)) = 0) = false →
  reaction_matches w ev cfg.
Proof.
  unfold truthy_string. intros Hbot Hguild Hgid Hfile Hfind Hemoji Hcid Hchan Hrule.
  rewrite !negb_false_iff in *. rewrite negb_true_iff in Hgid, Hcid.
  apply bool_decide_eq_false in Hgid, Hcid. apply bool_decide_eq_true in Hemoji, Hchan.
  split; [done|]. split; [by exists guild, configs|].
  split; [done|]. split; [done|]. split; [done|].
  intros Honly Hnil. rewrite Honly, Hnil in Hrule. done.
Qed.

Lemma starboardReaction_cases (ev : ReactionAddEvent) (w : World) :
  (∃ cfg, reaction_matches w ev cfg ∧ fetches_accepted ev)
  ∨ (∃ r t, starboardReaction ev w = (r, w, t)
            ∧ (∀ x, r ≠ Value (Some x)) ∧ Forall fetch_or_console t).
Proof.
  unfold starboardReaction.
  destruct (ra_user_bot ev) eqn:Hbot.
  { right. eexists _, _. split; [reflexivity|]. split; [done|constructor]. }
  js_unfold. rewrite loadStarboardConfigs_spec. cbv zeta.
  destruct (starboard_file w) as [[| |[configs|]]|] eqn:Hfile; simpl;
    repeat (case_match; simpl in *; simplify_eq);
    try (right; eexists _, _; split; [reflexivity|];
         split; [done|by repeat constructor]).
  all: left; eexists; split;
    [ eapply reaction_matches_intro; eassumption
    | repeat split; first [assumption | intros; congruence] ].
Qed.

Lemma hallOfFame_send_sends (ev : ReactionAddEvent) (cfg : StarboardConfig)
    (fullMsg : Message) (w : World) (hofId : string) (author : User) :
  threshold_met cfg ev hofId → hof_channel_ok fullMsg hofId →
  m_author fullMsg = Some author → ¬ posted (m_id fullMsg) w →
  hallOfFame_send ev cfg fullMsg w
  = (if ra_send_ok ev then Value (Some (m_id fullMsg)) else Thrown ApiError, w,
     [HofSend hofId (m_id fullMsg)
        (hof_embed cfg (default 0%Z (ra_count ev)) fullMsg author)]).
Proof.
  intros (Hhof & Hne & thr & Hthr & Hnz & Hle) (guild & chan & Hguild & Hchan & Htext & Hnt)
    Hauthor Hnew.
  unfold hallOfFame_send, truthy_string, truthy_number. rewrite Hhof, Hthr.
  rewrite (bool_decide_eq_false_2 _ Hne), (bool_decide_eq_false_2 _ Hnz). simpl.
  apply Z.leb_le in Hle. rewrite Hle. js_unfold. cbv beta iota.
  rewrite (bool_decide_eq_false_2 _ Hnew). rewrite Hguild, Hchan, Htext, Hnt, Hauthor.
  simpl. by destruct (ra_send_ok ev).
Qed.

Lemma hallOfFame_send_cases_why (ev : ReactionAddEvent) (cfg : StarboardConfig)
    (fullMsg : Message) (w : World) :
  (∃ hofId author,
     threshold_met cfg ev hofId ∧ hof_channel_ok fullMsg hofId
     ∧ m_author fullMsg = Some author ∧ ¬ posted (m_id fullMsg) w)
  ∨ (∃ t, hallOfFame_send ev cfg fullMsg w = (Value None, w, t)
          ∧ Forall fetch_or_console t).
Proof.
  unfold hallOfFame_send, truthy_string, truthy_number.
  destruct (hallOfFameChannelId cfg) as [hofId|] eqn:Hhof;
    [|right; eexists; split; [reflexivity|constructor]].
  destruct (threshold cfg) as [thr|] eqn:Hthr;
    [|right; eexists; split; [reflexivity|constructor]].
  destruct (decide (hofId = "")) as [Hne|Hne].
  { rewrite (bool_decide_eq_true_2 _ Hne). simpl.
    right; eexists; split; [reflexivity|constructor]. }
  destruct (decide (thr = 0%Z)) as [Hnz|Hnz].
  { rewrite (bool_decide_eq_true_2 _ Hnz), andb_false_r.
    right; eexists; split; [reflexivity|constructor]. }
  rewrite (bool_decide_eq_false_2 _ Hne), (bool_decide_eq_false_2 _ Hnz). simpl.
  destruct (thr <=? default 0 (ra_count ev))%Z eqn:Hle;
    [|right; eexists; split; [reflexivity|constructor]].
  apply Z.leb_le in Hle. js_unfold. cbv beta iota.
  destruct (decide (m_id fullMsg ∈ postedToHallOfFame w)) as [Hin|Hnew].
  { rewrite (bool_decide_eq_true_2 _ Hin).
    right; eexists; split; [reflexivity|constructor]. }
  rewrite (bool_decide_eq_false_2 _ Hnew).
  destruct (m_guild fullMsg) as [guild|] eqn:Hguild;
    [|right; eexists; split; [reflexivity|constructor]].
  destruct (channels_cache guild !! hofId) as [chan|] eqn:Hchan;
    [|right; eexists; split; [reflexivity|constructor]].
  destruct (isTextBased chan) eqn:Htext; simpl;
    [|right; eexists; split; [reflexivity|constructor]].
  destruct (isThread chan) eqn:Hnt; simpl;
    [right; eexists; split; [reflexivity|constructor]|].
  destruct (m_author fullMsg) as [author|] eqn:Hauthor;
    [|right; eexists; split; [reflexivity|by repeat constructor]].
  left. exists hofId, author. split; [|split; [by exists guild, chan|done]].
  split; [done|]. split; [done|]. by exists thr.
Qed.

(** The handler on a reaction that it takes up: the calls before the
    Hall-of-Fame logic, then those of the Hall-of-Fame logic; the id of the
    message is recorded when a send was made and accepted. *)
Lemma onMessageReactionAdd_matching (ev : ReactionAddEvent) (w : World)
    (cfg : StarboardConfig) :
  reaction_matches w ev cfg → fetches_accepted ev →
  onMessageReactionAdd ev w
  = (match outcome (hallOfFame_send ev cfg (ra_message ev) w) with
     | Value _ => Value tt
     | Thrown err => Thrown err
     end,
     match outcome (hallOfFame_send ev cfg (ra_message ev) w) with
     | Value (Some id) =>
         {| dataDir := dataDir w;
            postedToHallOfFame := {[ id ]} ∪ postedToHallOfFame w |}
     | _ => w
     end,
     fetch_calls ev ++ thread_calls ev cfg
     ++ trace (hallOfFame_send ev cfg (ra_message ev) w)).
Proof.
  intros Hm Hf. unfold onMessageReactionAdd.
  rewrite (bind_value _ _ w (Some (cfg, ra_message ev)) w
             (fetch_calls ev ++ thread_calls ev cfg)
             (starboardReaction_matching ev w cfg Hm Hf)).
  cbv beta iota. unfold bind, outcome, trace.
  pose proof (hallOfFame_send_world ev cfg (ra_message ev) w) as Hw.
  unfold world_after in Hw.
  destruct (hallOfFame_send ev cfg (ra_message ev) w) as [[[[id|]|err] w1] t1];
    simpl in *; subst w1; simpl; by rewrite <- ?app_assoc, ?app_nil_r.
Qed.

Lemma onMessageReactionAdd_cases (ev : ReactionAddEvent) (w : World) :
  (∃ cfg, reaction_matches w ev cfg ∧ fetches_accepted ev)
  ∨ (world_after (onMessageReactionAdd ev w) = w
     ∧ Forall fetch_or_console (trace (onMessageReactionAdd ev w))).
Proof.
  destruct (starboardReaction_cases ev w) as [Hyes|(r & t & Hr & Hnone & Ht)];
    [by left|right].
  unfold onMessageReactionAdd, world_after, trace, bind. rewrite Hr.
  destruct r as [[x|]|err]; simpl; [by destruct (Hnone x)| |done].
  by rewrite app_nil_r.
Qed.

Lemma fetch_calls_quiet (ev : ReactionAddEvent) : Forall fetch_or_console (fetch_calls ev).
Proof.
  unfold fetch_calls. destruct (ra_partial ev), (m_partial (ra_message ev));
    by repeat constructor.
Qed.

Lemma thread_calls_elem_of (ev : ReactionAddEvent) (cfg : StarboardConfig) (e : Effect) :
  e ∈ thread_calls ev cfg →
  (autoThread cfg = true ∧ m_channelType (ra_message ev) = GuildText
   ∧ m_hasThread (ra_message ev) = false)
  ∧ (e = ThreadCreate (m_channelId (ra_message ev)) (m_id (ra_message ev))
           (thread_name cfg)
     ∨ e = ConsoleError "Thread creation failed").
Proof.
  unfold thread_calls, isTextChannel.
  destruct (autoThread cfg); [|by intros Hin%elem_of_nil].
  destruct (decide (m_channelType (ra_message ev) = GuildText)) as [Ht|Ht].
  2: { rewrite (bool_decide_eq_false_2 _ Ht). by intros Hin%elem_of_nil. }
  rewrite (bool_decide_eq_true_2 _ Ht).
  destruct (m_hasThread (ra_message ev)); [by intros Hin%elem_of_nil|]. simpl.
  intros Hin. split; [done|].
  apply elem_of_cons in Hin as [->|Hin]; [by left|].
  destruct (ra_thread_ok ev); [by apply elem_of_nil in Hin|].
  apply list_elem_of_singleton in Hin. by right.
Qed.

(** X10: the reaction-add handler sends a message to a Hall-of-Fame
    channel exactly when: the reaction is one it takes up and the fetches
    are answered, the config has a Hall-of-Fame channel and a threshold
    other than 0 that the count has reached, the channel is in the cache of
    the guild, holds messages and is no thread, the message has an author,
    and its id is not in the posted set.  The send then goes to the channel
    of the config, for that message, with the embed built from it. *)
Theorem repost_iff (ev : ReactionAddEvent) (w : World) (channel id : string)
    (embed : Embed) :
  HofSend channel id embed ∈ trace (onMessageReactionAdd ev w)
  ↔ ∃ cfg author,
      reaction_matches w ev cfg ∧ fetches_accepted ev
      ∧ threshold_met cfg ev channel ∧ hof_channel_ok (ra_message ev) channel
      ∧ m_author (ra_message ev) = Some author
      ∧ ¬ posted (m_id (ra_message ev)) w
      ∧ id = m_id (ra_message ev)
      ∧ embed = hof_embed cfg (default 0%Z (ra_count ev)) (ra_message ev) author.
Proof.
  split.
  - intros Hin. destruct (onMessageReactionAdd_cases ev w) as [(cfg & Hm & Hf)|[_ Hquiet]].
    2: { rewrite Forall_forall in Hquiet. by apply Hquiet in Hin. }
    rewrite (onMessageReactionAdd_matching ev w cfg Hm Hf) in Hin.
    unfold trace at 1 in Hin. simpl in Hin.
    apply elem_of_app in Hin as [Hin|Hin].
    { pose proof (fetch_calls_quiet ev) as Hq. rewrite Forall_forall in Hq.
      by apply Hq in Hin. }
    apply elem_of_app in Hin as [Hin|Hin].
    { by apply thread_calls_elem_of in Hin as [_ [?|?]]. }
    destruct (hallOfFame_send_cases_why ev cfg (ra_message ev) w)
      as [(hofId & author & Hthr & Hchan & Hauthor & Hnew)|(t & Hs & Hquiet)].
    + rewrite (hallOfFame_send_sends ev cfg _ w hofId author Hthr Hchan Hauthor Hnew)
        in Hin.
      unfold trace in Hin. simpl in Hin.
      apply list_elem_of_singleton in Hin. injection Hin as -> -> ->.
      by exists cfg, author.
    + rewrite Hs in Hin. unfold trace in Hin. simpl in Hin.
      rewrite Forall_forall in Hquiet. by apply Hquiet in Hin.
  - intros (cfg & author & Hm & Hf & Hthr & Hchan & Hauthor & Hnew & -> & ->).
    rewrite (onMessageReactionAdd_matching ev w cfg Hm Hf).
    rewrite (hallOfFame_send_sends ev cfg _ w channel author Hthr Hchan Hauthor Hnew).
    unfold trace. simpl. rewrite !elem_of_app. right; right.
    by apply list_elem_of_singleton.
Qed.

(** X11: what the reaction-add handler does to the posted set: it adds the
    id of the message, and only after a send for that message that the
    platform accepted.  A rejected send leaves the whole state as it was,
    so a later reaction makes the handler try again. *)
Theorem reaction_records_accepted_send (ev : ReactionAddEvent) (w : World) :
  (world_after (onMessageReactionAdd ev w) = w
   ∨ world_after (onMessageReactionAdd ev w)
     = {| dataDir := dataDir w;
          postedToHallOfFame := {[ m_id (ra_message ev) ]} ∪ postedToHallOfFame w |}
       ∧ ra_send_ok ev = true
       ∧ reposts (m_id (ra_message ev)) (trace (onMessageReactionAdd ev w)))
  ∧ (ra_send_ok ev = false → world_after (onMessageReactionAdd ev w) = w)
  ∧ (ra_send_ok ev = true →
     reposts (m_id (ra_message ev)) (trace (onMessageReactionAdd ev w)) →
     posted (m_id (ra_message ev)) (world_after (onMessageReactionAdd ev w))).
Proof.
  assert (world_after (onMessageReactionAdd ev w) = w
          ∨ world_after (onMessageReactionAdd ev w)
            = {| dataDir := dataDir w;
                 postedToHallOfFame := {[ m_id (ra_message ev) ]} ∪ postedToHallOfFame w |}
            ∧ ra_send_ok ev = true
            ∧ reposts (m_id (ra_message ev)) (trace (onMessageReactionAdd ev w)))
    as Hcases.
  { destruct (onMessageReactionAdd_cases ev w) as [(cfg & Hm & Hf)|[Hw _]]; [|by left].
    rewrite (onMessageReactionAdd_matching ev w cfg Hm Hf).
    destruct (hallOfFame_send_cases_why ev cfg (ra_message ev) w)
      as [(hofId & author & Hthr & Hchan & Hauthor & Hnew)|(t & Hs & _)].
    - rewrite (hallOfFame_send_sends ev cfg _ w hofId author Hthr Hchan Hauthor Hnew).
      unfold world_after, outcome, trace. simpl.
      destruct (ra_send_ok ev); [right|by left].
      split; [done|]. split; [done|]. eexists _, _.
      rewrite !elem_of_app. right; right. by apply list_elem_of_singleton.
    - rewrite Hs. by left. }
  split; [done|]. split.
  - intros Hfail. destruct Hcases as [?|(_ & Hok & _)]; [done|congruence].
  - intros Hok Hsent. by apply accepted_repost_is_posted.
Qed.

(** X12: the reaction-add handler asks for a thread exactly when the
    reaction is one it takes up, the fetches are answered, [autoThread] is
    set, the channel is a text channel and the message has no thread yet;
    it never asks for a thread on a message that has one. *)
Theorem reaction_thread_iff (ev : ReactionAddEvent) (w : World)
    (channel start name : string) :
  ThreadCreate channel start name ∈ trace (onMessageReactionAdd ev w)
  ↔ ∃ cfg,
      reaction_matches w ev cfg ∧ fetches_accepted ev
      ∧ autoThread cfg = true
      ∧ m_channelType (ra_message ev) = GuildText
      ∧ m_hasThread (ra_message ev) = false
      ∧ channel = m_channelId (ra_message ev)
      ∧ start = m_id (ra_message ev)
      ∧ name = thread_name cfg.
Proof.
  split.
  - intros Hin. destruct (onMessageReactionAdd_cases ev w) as [(cfg & Hm & Hf)|[_ Hquiet]].
    2: { rewrite Forall_forall in Hquiet. by apply Hquiet in Hin. }
    rewrite (onMessageReactionAdd_matching ev w cfg Hm Hf) in Hin.
    unfold trace at 1 in Hin. simpl in Hin.
    apply elem_of_app in Hin as [Hin|Hin].
    { pose proof (fetch_calls_quiet ev) as Hq. rewrite Forall_forall in Hq.
      by apply Hq in Hin. }
    apply elem_of_app in Hin as [Hin|Hin].
    + apply thread_calls_elem_of in Hin as [(Hauto & Htype & Hthread) [[= -> -> ->]|?]];
        [|done].
      by exists cfg.
    + exfalso.
      destruct (hallOfFame_send_cases ev cfg (ra_message ev) w)
        as [Hs|[Hs|(hofId & em & _ & Hs)]]; rewrite Hs in Hin;
        unfold trace in Hin; simpl in Hin.
      * by apply elem_of_nil in Hin.
      * by apply list_elem_of_singleton in Hin.
      * by apply list_elem_of_singleton in Hin.
  - intros (cfg & Hm & Hf & Hauto & Htype & Hthread & -> & -> & ->).
    rewrite (onMessageReactionAdd_matching ev w cfg Hm Hf).
    unfold trace at 1. simpl. rewrite !elem_of_app. right; left.
    unfold thread_calls, isTextChannel.
    rewrite Hauto, Hthread, (bool_decide_eq_true_2 _ Htype). simpl.
    apply elem_of_cons. by left.
Qed.

(** ** One repost for each message, when handlers run one after the other *)

Lemma repost_count_app (id : string) (t1 t2 : list Effect) :
  repost_count id (t1 ++ t2) = repost_count id t1 + repost_count id t2.
Proof. unfold repost_count. by rewrite List.filter_app, length_app. Qed.

Lemma repost_count_none (id : string) (t : list Effect) :
  Forall (λ e, is_repost_of id e = false) t → repost_count id t = 0.
Proof.
  unfold repost_count. induction 1 as [|e t He _ IH]; [done|].
  simpl. by rewrite He.
Qed.

Lemma repost_count_zero (id : string) (t : list Effect) :
  ¬ reposts id t → repost_count id t = 0.
Proof.
  intros Hno. apply repost_count_none, Forall_forall. intros e Hin.
  destruct (is_repost_of id e) eqn:He; [|done]. exfalso. apply Hno.
  destruct e; try discriminate He. simpl in He. apply bool_decide_eq_true in He as ->.
  by eexists _, _.
Qed.

Lemma repost_count_pos (id : string) (t : list Effect) :
  repost_count id t ≠ 0 → reposts id t.
Proof.
  unfold repost_count. induction t as [|e t IH]; [done|]. simpl.
  destruct (is_repost_of id e) eqn:He.
  - intros _. destruct e; try discriminate He. simpl in He.
    apply bool_decide_eq_true in He as ->. eexists _, _. apply list_elem_of_here.
  - intros Hne. destruct (IH Hne) as (c & em & Hin). exists c, em.
    by apply list_elem_of_further.
Qed.

Lemma fetch_or_console_never_repost (id : string) (t : list Effect) :
  Forall fetch_or_console t → Forall (λ e, is_repost_of id e = false) t.
Proof. intros Hq. eapply Forall_impl; [exact Hq|]. by intros []. Qed.

Lemma reaction_repost_count (ev : ReactionAddEvent) (w : World) (id : string) :
  repost_count id (trace (onMessageReactionAdd ev w)) ≤ 1.
Proof.
  destruct (onMessageReactionAdd_cases ev w) as [(cfg & Hm & Hf)|[_ Hquiet]].
  2: { rewrite repost_count_none; [lia|]. by apply fetch_or_console_never_repost. }
  rewrite (onMessageReactionAdd_matching ev w cfg Hm Hf). unfold trace at 1. simpl.
  rewrite !repost_count_app.
  rewrite (repost_count_none id (fetch_calls ev))
    by apply fetch_or_console_never_repost, fetch_calls_quiet.
  rewrite (repost_count_none id (thread_calls ev cfg)).
  2: { apply Forall_forall. intros e Hin.
       by apply thread_calls_elem_of in Hin as [_ [->| ->]]. }
  destruct (hallOfFame_send_cases ev cfg (ra_message ev) w)
    as [Hs|[Hs|(hofId & em & _ & Hs)]]; rewrite Hs; unfold trace, repost_count; simpl;
    [lia|lia|]. destruct (bool_decide _); simpl; lia.
Qed.

Lemma never_repost_commands (id : string) :
  (∀ i, preserves any_state (never_repost id) (warn_execute i))
  ∧ (∀ i, preserves any_state (never_repost id) (starboard_execute i)).
Proof.
  assert (∀ w, any_state w w) by done.
  assert (∀ w1 w2 w3, any_state w1 w2 → any_state w2 w3 → any_state w1 w3) by done.
  assert (∀ w1 w2 e, any_state w1 w2 → never_repost id w2 e → never_repost id w1 e)
    by done.
  assert (∀ w c b, never_repost id w (Reply c b)) by done.
  assert (∀ w a b c d, never_repost id w (ReplyWarned a b c d)) by done.
  assert (∀ w a b c, never_repost id w (DirectMessage a b c)) by done.
  assert (∀ w text, never_repost id w (ConsoleError text)) by done.
  assert (∀ w text, never_repost id w (ConsoleWarn text)) by done.
  assert (preserves any_state (never_repost id) ensure_dataDir).
  { intros w. split; [done|]. unfold ensure_dataDir, trace.
    destruct (dataDir w); by repeat constructor. }
  assert (∀ t, preserves any_state (never_repost id) (write_warnings t)).
  { intros t w. split; [done|]. unfold write_warnings, trace.
    destruct (dataDir w); by repeat constructor. }
  assert (∀ t, preserves any_state (never_repost id) (write_starboard t)).
  { intros t w. split; [done|]. unfold write_starboard, trace.
    destruct (dataDir w); by repeat constructor. }
  split; intros i.
  - unfold warn_execute, readWarnings, setDescription, addFields. cbv zeta.
    repeat first [ solve [auto 1] | preserves_step ].
  - unfold starboard_execute, saveConfig. cbv zeta.
    repeat first [ solve [auto 1] | preserves_step ].
Qed.

Lemma handle_never_reposts (e : Event) (w : World) (id : string) :
  (∀ ev, e ≠ MessageReactionAdd ev) →
  Forall (λ x, is_repost_of id x = false) (trace (handle e w)).
Proof.
  intros Hother. destruct e as [ev|ev|i|i]; simpl.
  - destruct (onMessageCreate_preserves ev w) as [_ Ht].
    eapply Forall_impl; [exact Ht|]. by intros [].
  - by destruct (Hother ev).
  - destruct (never_repost_commands id) as [Hwarn _]. specialize (Hwarn i w).
    unfold onInteractionCreate, trace in *. js_unfold.
    destruct (warn_execute i w) as [[[[]|err] w1] t1]; simpl in *; [apply Hwarn|].
    apply Forall_app. split; [apply Hwarn|]. destruct (wi_reply_ok i); by repeat constructor.
  - destruct (never_repost_commands id) as [_ Hsb]. specialize (Hsb i w).
    unfold onInteractionCreate, trace in *. js_unfold.
    destruct (starboard_execute i w) as [[[[]|err] w1] t1]; simpl in *; [apply Hsb|].
    apply Forall_app. split; [apply Hsb|]. destruct (si_reply_ok i); by repeat constructor.
Qed.

(** X13: when handlers run one after the other and the platform accepts
    every Hall-of-Fame send, a message is sent to the Hall of Fame at most
    once, from any state and whatever the events are. *)
Theorem run_reposts_once (es : list Event) (w : World) (id : string) :
  sends_accepted es →
  repost_count id (run es w).2 ≤ 1.
Proof.
  revert w. induction es as [|e es IH]; intros w Hacc; [simpl; unfold repost_count; simpl; lia|].
  assert (sends_accepted es) as Hacc'.
  { intros ev Hin. apply Hacc. by apply list_elem_of_further. }
  rewrite run_cons. simpl. rewrite repost_count_app.
  destruct (decide (repost_count id (trace (handle e w)) = 0)) as [Hzero|Hpos].
  { rewrite Hzero. simpl. by apply IH. }
  assert (∃ ev, e = MessageReactionAdd ev) as [ev ->].
  { destruct e as [ev|ev|i|i]; [| by exists ev | |];
      exfalso; apply Hpos, repost_count_none, handle_never_reposts; by intros ev'. }
  simpl in *. pose proof (reaction_repost_count ev w id) as Hle.
  pose proof (repost_count_pos id _ Hpos) as Hsent.
  assert (posted id (world_after (onMessageReactionAdd ev w))) as Hposted.
  { apply accepted_repost_is_posted; [done|]. apply Hacc. apply list_elem_of_here. }
  destruct (run_posted id es _ Hposted) as [_ Hnone].
  rewrite (repost_count_zero id _ Hnone). lia.
Qed.

Lemma sends_accepted_sample :
  sends_accepted [MessageReactionAdd SampleReaction.starred;
                  MessageCreate SampleMessage.pictureCreated;
                  MessageReactionAdd SampleReaction.starredAgain].
Proof.
  intros ev Hin.
  apply elem_of_cons in Hin as [[= ->]|Hin]; [reflexivity|].
  apply elem_of_cons in Hin as [Hin|Hin]; [discriminate Hin|].
  apply elem_of_cons in Hin as [[= ->]|Hin]; [reflexivity|].
  by apply elem_of_nil in Hin.
Defined.

Lemma run_reposts_once_witness :
  repost_count "m1"
    (run [MessageReactionAdd SampleReaction.starred;
          MessageCreate SampleMessage.pictureCreated;
          MessageReactionAdd SampleReaction.starredAgain] SampleMessage.configured).2
  ≤ 1.
Proof.
  apply (run_reposts_once
           [MessageReactionAdd SampleReaction.starred;
            MessageCreate SampleMessage.pictureCreated;
            MessageReactionAdd SampleReaction.starredAgain] SampleMessage.configured "m1").
  exact sends_accepted_sample.
Defined.

(** ** The steps of [/warn] *)

Lemma warn_accepted_or_denied (i : WarnInteraction) (w : World) :
  accepted i
  ∨ (∃ denial,
       warn_execute i w
       = (if wi_reply_ok i then Value tt else Thrown ApiError, w, [Reply denial true]))
  ∨ warn_execute i w = (Thrown TypeError, w, []).
Proof.
  destruct (wi_staff i) as [staff|] eqn:Hm; [|right; right; by apply warn_no_member].
  destruct (existsb (λ role, bool_decide (role_name role = "Staff"))
              (member_roles staff)) eqn:Hs.
  - apply existsb_staff in Hs.
    destruct (wi_target i) as [target|] eqn:Ht.
    + destruct (user_bot (member_user target)) eqn:Hbot.
      * right. left. exists invalid_target. eapply warn_bad_target; [done..|].
        intros (m & Hm' & Hnb). congruence.
      * left. split; [by exists staff|]. by exists target.
    + right. left. exists invalid_target. eapply warn_bad_target; [done..|].
      intros (m & Hm' & _). congruence.
  - right. left. exists permission_denied. eapply warn_no_staff; [done|].
    rewrite <- existsb_staff. by rewrite Hs.
Qed.

(** X14: an accepted [/warn] goes through its steps whatever happens to
    the direct message: it writes the file, tries the direct message, and
    goes on to the confirmation.  A direct message whose embed cannot be
    built, or that the platform rejects, only adds a console warning: the
    result of the command and its reply depend on the confirmation alone,
    which is sent when its four field values have 1 to 1024 characters and
    makes the command throw when they have not. *)
Theorem warn_dm_failure_does_not_block (i : WarnInteraction) (w : World)
    (old : list Warning) :
  accepted i →
  outcome (reloadWarnings w) = Value old →
  ∃ target staff,
    wi_target i = Some target ∧ wi_staff i = Some staff
    ∧ outcome (warn_execute i w)
      = (if confirmation_fits i target staff
         then (if wi_reply_ok i then Value tt else Thrown ApiError)
         else Thrown ValidationError)
    ∧ trace (warn_execute i w)
      = warn_setup_calls w
        ++ [WriteFile WarningsJson]
        ++ (if dm_fits i
            then DirectMessage (member_id target) (wi_reason i) (wi_caseId i)
                 :: (if wi_dm_ok i then []
                     else [ConsoleWarn
                             ("Could not DM " +:+ user_tag (member_user target) +:+ ".")])
            else [ConsoleWarn ("Could not DM " +:+ user_tag (member_user target) +:+ ".")])
        ++ (if confirmation_fits i target staff
            then [ReplyWarned (member_id target) (member_id staff) (wi_reason i)
                    (wi_caseId i)]
            else [])
    ∧ (confirmation_fits i target staff = true
       ↔ Forall (λ value, 1 ≤ String.length value ≤ 1024)
           [mention target; mention staff; wi_reason i; wi_caseId i]).
Proof.
  intros Hacc Hold. pose proof Hacc as [(staff & Hm & _) (target & Ht & _)].
  exists target, staff. split; [done|]. split; [done|].
  rewrite (warn_execute_accepted i w old target staff Hacc Ht Hm Hold).
  split; [done|]. split; [done|].
  unfold confirmation_fits, warned_fields. rewrite forallb_forall, Forall_forall.
  split; intros Hall value Hin.
  - apply list_elem_of_In, Hall in Hin. unfold field_value_ok in Hin.
    apply andb_true_iff in Hin as [H1 H2].
    apply Nat.leb_le in H1, H2. done.
  - apply list_elem_of_In, Hall in Hin as [H1 H2]. unfold field_value_ok.
    apply andb_true_iff. split; by apply Nat.leb_le.
Qed.

Lemma accepted_longReason : accepted SampleWarn.longReason.
Proof.
  split.
  - exists SampleWarn.staffMember. split; [reflexivity|exact staff_role_staffMember].
  - exists SampleWarn.plainMember. split; reflexivity.
Defined.

Lemma warn_dm_failure_does_not_block_witness :
  ∃ target staff,
    wi_target SampleWarn.longReason = Some target
    ∧ wi_staff SampleWarn.longReason = Some staff
    ∧ outcome (warn_execute SampleWarn.longReason (startup None))
      = (if confirmation_fits SampleWarn.longReason target staff
         then (if wi_reply_ok SampleWarn.longReason then Value tt else Thrown ApiError)
         else Thrown ValidationError)
    ∧ trace (warn_execute SampleWarn.longReason (startup None))
      = warn_setup_calls (startup None)
        ++ [WriteFile WarningsJson]
        ++ (if dm_fits SampleWarn.longReason
            then DirectMessage (member_id target) (wi_reason SampleWarn.longReason)
                   (wi_caseId SampleWarn.longReason)
                 :: (if wi_dm_ok SampleWarn.longReason then []
                     else [ConsoleWarn
                             ("Could not DM " +:+ user_tag (member_user target) +:+ ".")])
            else [ConsoleWarn ("Could not DM " +:+ user_tag (member_user target) +:+ ".")])
        ++ (if confirmation_fits SampleWarn.longReason target staff
            then [ReplyWarned (member_id target) (member_id staff)
                    (wi_reason SampleWarn.longReason) (wi_caseId SampleWarn.longReason)]
            else [])
    ∧ (confirmation_fits SampleWarn.longReason target staff = true
       ↔ Forall (λ value, 1 ≤ String.length value ≤ 1024)
           [mention target; mention staff; wi_reason SampleWarn.longReason;
            wi_caseId SampleWarn.longReason]).
Proof.
  apply (warn_dm_failure_does_not_block SampleWarn.longReason (startup None) []).
  - exact accepted_longReason.
  - reflexivity.
Defined.

(** X15: [/warn] tells nobody about a warning that is not in the file: when
    it sends the direct message, it has written the file before, and the
    file then holds the records that were there followed by the record of
    this invocation, whose user is the one the message goes to. *)
Theorem warn_dm_only_after_record (i : WarnInteraction) (w : World)
    (user reason caseId : string) :
  DirectMessage user reason caseId ∈ trace (warn_execute i w) →
  ∃ target staff old before after,
    wi_target i = Some target ∧ wi_staff i = Some staff ∧ user = member_id target
    ∧ outcome (reloadWarnings w) = Value old
    ∧ warnings_file (world_after (warn_execute i w))
      = Some (Json (JArray (old ++ [warning_of i target staff])))
    ∧ trace (warn_execute i w)
      = before ++ WriteFile WarningsJson :: DirectMessage user reason caseId :: after.
Proof.
  intros Hin. destruct (warn_accepted_or_denied i w) as [Hacc|[[denial Hden]|Hthrow]].
  2: { rewrite Hden in Hin. unfold trace in Hin. simpl in Hin.
       by apply list_elem_of_singleton in Hin. }
  2: { rewrite Hthrow in Hin. by apply elem_of_nil in Hin. }
  pose proof Hacc as [(staff & Hm & _) (target & Ht & _)].
  destruct (outcome (reloadWarnings w)) as [old|err] eqn:Hold.
  - rewrite (warn_execute_accepted i w old target staff Hacc Ht Hm Hold) in *.
    unfold trace, world_after in *. simpl in *.
    assert (dm_fits i = true
            ∧ DirectMessage user reason caseId
              = DirectMessage (member_id target) (wi_reason i) (wi_caseId i))
      as [Hfits Heq].
    { apply elem_of_app in Hin as [Hin|Hin].
      - unfold warn_setup_calls in Hin. exfalso.
        apply elem_of_app in Hin as [Hin|Hin].
        + destruct (dataDir w); [by apply elem_of_nil in Hin|].
          by apply list_elem_of_singleton in Hin.
        + destruct (warnings_file w) as [[| |]|];
            try (by apply elem_of_nil in Hin).
          by apply list_elem_of_singleton in Hin.
      - apply elem_of_cons in Hin as [Hin|Hin]; [discriminate Hin|].
        apply elem_of_app in Hin as [Hin|Hin].
        + destruct (dm_fits i).
          * apply elem_of_cons in Hin as [Hin|Hin]; [done|]. exfalso.
            destruct (wi_dm_ok i); [by apply elem_of_nil in Hin|].
            by apply list_elem_of_singleton in Hin.
          * exfalso. by apply list_elem_of_singleton in Hin.
        + exfalso. destruct (confirmation_fits i target staff);
            [by apply list_elem_of_singleton in Hin|by apply elem_of_nil in Hin]. }
    injection Heq as -> -> ->. rewrite Hfits.
    exists target, staff, old, (warn_setup_calls w). eexists.
    split; [done|]. split; [done|]. split; [done|]. split; [done|].
    split; [done|]. reflexivity.
  - exfalso. rewrite reloadWarnings_spec in Hold. unfold outcome in Hold. simpl in Hold.
    destruct (warnings_file w) as [[| |[xs|]]|] eqn:Hfile; try discriminate Hold.
    rewrite (warn_execute_not_array i w Hacc Hfile) in Hin.
    by apply elem_of_nil in Hin.
Qed.

Lemma warn_dm_only_after_record_witness :
  DirectMessage "1003" "spam" "AAAA1111"
    ∈ trace (warn_execute SampleWarn.first (startup None))
  ∧ ∃ target staff old before after,
      wi_target SampleWarn.first = Some target
      ∧ wi_staff SampleWarn.first = Some staff ∧ "1003" = member_id target
      ∧ outcome (reloadWarnings (startup None)) = Value old
      ∧ warnings_file (world_after (warn_execute SampleWarn.first (startup None)))
        = Some (Json (JArray (old ++ [warning_of SampleWarn.first target staff])))
      ∧ trace (warn_execute SampleWarn.first (startup None))
        = before ++ WriteFile WarningsJson
                 :: DirectMessage "1003" "spam" "AAAA1111" :: after.
Proof.
  assert (DirectMessage "1003" "spam" "AAAA1111"
            ∈ trace (warn_execute SampleWarn.first (startup None))) as Hin.
  { vm_compute. repeat constructor. }
  split; [exact Hin|].
  exact (warn_dm_only_after_record SampleWarn.first (startup None)
           "1003" "spam" "AAAA1111" Hin).
Defined.

(** ** One reply for each command *)

Lemma starboard_execute_valid (i : StarboardInteraction) (w : World) :
  validChannelIds i ≠ [] →
  ∃ confirmation,
    starboard_execute i w
    = bind (saveConfig (si_guildId i) (starboard_configData i))
        (λ _, extern (Reply confirmation false) (si_reply_ok i)) w.
Proof.
  intros Hvalid. unfold starboard_execute, starboard_configData. cbv zeta.
  rewrite bool_decide_eq_false_2.
  - eexists. reflexivity.
  - intros Hlen. by apply nil_length_inv in Hlen.
Qed.

Lemma warn_setup_no_reply (w : World) : List.filter is_reply (warn_setup_calls w) = [].
Proof.
  unfold warn_setup_calls. destruct (dataDir w), (warnings_file w) as [[| |]|]; done.
Qed.

(** X16: every [/warn] and every [/starboard] that comes in through the
    interaction handler is answered once when the platform accepts replies:
    the handler returns, and exactly one reply is made (the denial, the
    confirmation, or the notice that the command failed). *)
Theorem commands_reply_once :
  (∀ i w, wi_reply_ok i = true →
     outcome (handle (WarnCommand i) w) = Value tt
     ∧ length (List.filter is_reply (trace (handle (WarnCommand i) w))) = 1)
  ∧ (∀ i w, si_reply_ok i = true →
       outcome (handle (StarboardCommand i) w) = Value tt
       ∧ length (List.filter is_reply (trace (handle (StarboardCommand i) w))) = 1).
Proof.
  split; intros i w Hok.
  - change (handle (WarnCommand i))
      with (onInteractionCreate "warn" (warn_execute i) (wi_reply_ok i)).
    unfold onInteractionCreate.
    destruct (warn_accepted_or_denied i w) as [Hacc|[[denial Hden]|Hthrow]].
    + pose proof Hacc as [(staff & Hm & _) (target & Ht & _)].
      destruct (outcome (reloadWarnings w)) as [old|err] eqn:Hold.
      * unfold try_catch, outcome, trace.
        rewrite (warn_execute_accepted i w old target staff Hacc Ht Hm Hold), Hok.
        destruct (confirmation_fits i target staff), (dm_fits i), (wi_dm_ok i);
          js; rewrite ?Hok; simpl; (split; [done|]);
          rewrite !List.filter_app, warn_setup_no_reply; done.
      * rewrite reloadWarnings_spec in Hold. unfold outcome in Hold. simpl in Hold.
        destruct (warnings_file w) as [[| |[xs|]]|] eqn:Hfile; try discriminate Hold.
        unfold try_catch, outcome, trace.
        rewrite (warn_execute_not_array i w Hacc Hfile). js. by rewrite Hok.
    + unfold try_catch, outcome, trace. rewrite Hden, Hok. done.
    + unfold try_catch, outcome, trace. rewrite Hthrow. js. by rewrite Hok.
  - change (handle (StarboardCommand i))
      with (onInteractionCreate "starboard" (starboard_execute i) (si_reply_ok i)).
    unfold onInteractionCreate.
    destruct (validChannelIds i) as [|id ids] eqn:Hvalid.
    + unfold try_catch, outcome, trace.
      rewrite (starboard_no_valid_channel i w Hvalid), Hok. done.
    + unfold try_catch.
      destruct (starboard_execute_valid i w) as [confirmation ->]; [by rewrite Hvalid|].
      unfold outcome, trace, bind.
      destruct (saveConfig_cases (si_guildId i) (starboard_configData i) w)
        as [(d & configs & Hd & Hfile & ->)|[[_ ->]|[[_ ->]|[_ ->]]]];
        js; by rewrite Hok.
Qed.

(** X17: on a warnings file that holds JSON but no array, an accepted
    [/warn] stores nothing and sends no direct message: the [push] throws
    before the write, the state stays as it was, and through the
    interaction handler the caller gets the notice that the command
    failed. *)
Theorem warn_on_non_array (i : WarnInteraction) (w : World) :
  accepted i → warnings_file w = Some (Json JOther) →
  warn_execute i w = (Thrown TypeError, w, [])
  ∧ handle (WarnCommand i) w
    = (if wi_reply_ok i then Value tt else Thrown ApiError, w,
       [ConsoleError "Error executing warn"; Reply command_failed true]).
Proof.
  intros Hacc Hfile. split; [by apply warn_execute_not_array|].
  simpl. unfold onInteractionCreate, try_catch.
  rewrite (warn_execute_not_array i w Hacc Hfile). js. by destruct (wi_reply_ok i).
Qed.

Lemma warn_on_non_array_witness :
  warn_execute SampleWarn.first (Sample.with_warnings (Json JOther))
  = (Thrown TypeError, Sample.with_warnings (Json JOther), [])
  ∧ handle (WarnCommand SampleWarn.first) (Sample.with_warnings (Json JOther))
    = (Value tt, Sample.with_warnings (Json JOther),
       [ConsoleError "Error executing warn"; Reply command_failed true]).
Proof.
  apply (warn_on_non_array SampleWarn.first (Sample.with_warnings (Json JOther))).
  - exact accepted_first.
  - reflexivity.
Defined.

(** ** From [/starboard] to the reaction *)

Lemma saveConfig_config_for (guild : string) (data : ConfigData) (w : World)
    (message : Message) :
  outcome (saveConfig guild data w) = Value tt →
  m_guildId message = Some guild →
  config_for (world_after (saveConfig guild data w)) message
  = Some (with_guildId guild data).
Proof.
  intros Hok Hg.
  destruct (saveConfig_cases guild data w)
    as [(d & configs & Hd & Hfile & Hs)|[[_ Hs]|[[_ Hs]|[_ Hs]]]];
    rewrite Hs in *; try discriminate Hok.
  unfold world_after, config_for. rewrite loadStarboardConfigs_spec. simpl.
  rewrite Hg, find_app_stdlib, (find_none_others _ guild).
  - simpl. by rewrite bool_decide_eq_true_2.
  - intros c Hc. apply bool_decide_eq_true in Hc. by injection Hc.
Qed.

(** X18: a [/starboard] that completes takes effect on the next message:
    in the state it leaves, a message of that guild, written by a user in
    one of the valid channels (with an attachment when [only_attachments]
    was given as true), gets the reaction with the emoji of the command. *)
Theorem starboard_then_reaction (i : StarboardInteraction) (w : World)
    (ev : MessageCreateEvent) :
  validChannelIds i ≠ [] →
  outcome (starboard_execute i w) = Value tt →
  m_guildId (mc_message ev) = Some (si_guildId i) →
  is_Some (m_guild (mc_message ev)) →
  (∃ author, m_author (mc_message ev) = Some author ∧ user_bot author = false) →
  m_channelId (mc_message ev) ∈ validChannelIds i →
  (si_only_attachments i = Some true → m_attachments (mc_message ev) ≠ []) →
  React (m_id (mc_message ev)) (si_emoji i)
    ∈ trace (onMessageCreate ev (world_after (starboard_execute i w))).
Proof.
  intros Hvalid Hok Hg Hguild Hauthor Hchan Hatt.
  destruct (starboard_execute_valid i w Hvalid) as [confirmation Hex].
  assert (outcome (saveConfig (si_guildId i) (starboard_configData i) w) = Value tt
          ∧ world_after (starboard_execute i w)
            = world_after (saveConfig (si_guildId i) (starboard_configData i) w))
    as [Hsaved ->].
  { rewrite Hex in *. unfold outcome, world_after, bind in *.
    destruct (saveConfig (si_guildId i) (starboard_configData i) w)
      as [[[[]|err] w1] t1]; simpl in *; [|discriminate Hok].
    by destruct (si_reply_ok i). }
  pose proof (saveConfig_config_for _ _ w (mc_message ev) Hsaved Hg) as Hcfg.
  rewrite (onMessageCreate_qualifying ev _ (with_guildId (si_guildId i)
                                              (starboard_configData i))).
  - unfold trace. simpl. apply list_elem_of_here.
  - split; [done|]. split; [done|]. split; [done|]. split; [done|].
    simpl. intros Honly. apply Hatt.
    destruct (si_only_attachments i) as [[]|]; done.
Qed.

Lemma starboard_then_reaction_witness :
  React "m1" "⭐"
    ∈ trace (onMessageCreate SampleMessage.plainCreated
               (world_after (starboard_execute SampleStarboard.example
                               SampleMessage.configured))).
Proof.
  apply (starboard_then_reaction SampleStarboard.example SampleMessage.configured
           SampleMessage.plainCreated).
  - discriminate.
  - reflexivity.
  - reflexivity.
  - exists SampleMessage.guildA. reflexivity.
  - exists SampleMessage.author. split; reflexivity.
  - apply list_elem_of_In. simpl. left. reflexivity.
  - discriminate.
Defined.

(** ** More on the matches of the pattern *)

Lemma digit_run_before_non_digit (a b : list ascii) (c : ascii) :
  is_digit c = false → digit_run (a ++ c :: b) = digit_run a.
Proof.
  intros Hc. induction a as [|x a IH]; simpl; [by rewrite Hc|].
  by rewrite IH.
Qed.

Lemma scan_before_non_digit (a b : list ascii) (c : ascii) (skip : nat) :
  is_digit c = false → skip ≤ digit_run a →
  scan skip (a ++ c :: b) = scan skip a ++ scan 0 b.
Proof.
  intros Hc. revert skip. induction a as [|x a IH]; intros skip Hskip.
  - simpl in Hskip. assert (skip = 0) as -> by lia.
    simpl. unfold match_here. simpl. by rewrite Hc.
  - rewrite <- app_comm_cons, !scan_cons. rewrite digit_run_cons in Hskip.
    destruct skip as [|skip].
    + unfold match_here.
      change (x :: a ++ c :: b) with ((x :: a) ++ c :: b).
      rewrite (digit_run_before_non_digit (x :: a) b c Hc).
      destruct (17 <=? digit_run (x :: a) `min` 19) eqn:Hle.
      * apply Nat.leb_le in Hle. rewrite digit_run_cons in Hle |- *.
        destruct (is_digit x); [|lia].
        pose proof (digit_run_le_length a).
        rewrite IH by lia. rewrite take_app_le by (simpl; lia). done.
      * apply IH. lia.
    + destruct (is_digit x); [|lia]. apply IH. lia.
Qed.

(** X19: a character that is no digit separates the input of [/starboard]
    in two parts that are searched for ids independently: the matches of
    the whole are the matches of the first part followed by those of
    the second. *)
Theorem matchAll_split (a b : string) (c : ascii) :
  is_digit c = false →
  matchAll (a +:+ String c b) = matchAll a ++ matchAll b.
Proof.
  intros Hc. unfold matchAll. rewrite list_ascii_of_string_app. simpl.
  rewrite scan_before_non_digit by (done || lia). by rewrite fmap_app.
Qed.

Lemma matchAll_split_witness :
  matchAll ("<#111111111111111111" +:+ String ">" " 222222222222222222")
  = matchAll "<#111111111111111111" ++ matchAll " 222222222222222222".
Proof.
  apply (matchAll_split "<#111111111111111111" " 222222222222222222" ">").
  reflexivity.
Defined.

Lemma scan_skip (skip : nat) (s : list ascii) :
  skip ≤ length s → scan skip s = scan 0 (drop skip s).
Proof.
  revert skip. induction s as [|c s IH]; intros skip Hskip.
  - simpl in Hskip. by assert (skip = 0) as -> by lia.
  - destruct skip as [|skip]; [done|]. rewrite scan_cons. simpl in *.
    apply IH. lia.
Qed.

Lemma digit_run_all_digits (s : list ascii) :
  Forall (λ c, is_digit c = true) s → digit_run s = length s.
Proof.
  intros Hd. rewrite <- (app_nil_r s) at 1. by apply digit_run_app.
Qed.

(** The matches in a text of digits only. *)
Lemma scan_digits (n : nat) (s : list ascii) :
  Forall (λ c, is_digit c = true) s → length s = n →
  length (scan 0 s) = n / 19 + (if 17 <=? n mod 19 then 1 else 0)
  ∧ ∀ m, m ∈ scan 0 s → length m = 19 ∨ length m = n mod 19.
Proof.
  revert s. induction (lt_wf n) as [n _ IH]. intros s Hd Hlen.
  destruct s as [|c s].
  { simpl in Hlen. subst n. split; [done|]. by intros m Hm%elem_of_nil. }
  pose proof (digit_run_all_digits (c :: s) Hd) as Hrun.
  assert (length s = n - 1 ∧ 1 ≤ n) as [Hlen' Hpos] by (simpl in Hlen; lia).
  assert (Forall (λ c, is_digit c = true) s) as Hd' by (by inversion Hd).
  rewrite scan_cons. unfold match_here. rewrite Hrun, Hlen.
  destruct (decide (n < 17)) as [Hshort|Hlong].
  - (* fewer than 17 digits: no match here, and none further on *)
    replace (17 <=? n `min` 19) with false by (symmetry; apply Nat.leb_gt; lia).
    destruct (IH (n - 1)) with (s := s) as [IHlen IHm]; [lia|done|done|].
    rewrite Nat.mod_small, Nat.div_small in IHlen by lia.
    replace (17 <=? n - 1) with false in IHlen by (symmetry; apply Nat.leb_gt; lia).
    rewrite Nat.mod_small, Nat.div_small by lia.
    replace (17 <=? n) with false by (symmetry; apply Nat.leb_gt; lia).
    split; [done|]. intros m Hm.
    destruct (scan 0 s); [by apply elem_of_nil in Hm|done].
  - replace (17 <=? n `min` 19) with true by (symmetry; apply Nat.leb_le; lia).
    rewrite scan_skip by lia.
    destruct (decide (n < 19)) as [Hsmall|Hbig].
    + (* 17 or 18 digits: the whole text is the one match *)
      replace (n `min` 19) with n by lia.
      rewrite drop_ge by lia.
      rewrite Nat.mod_small, Nat.div_small by lia.
      replace (17 <=? n) with true by (symmetry; apply Nat.leb_le; lia).
      split; [done|]. intros m Hm. apply list_elem_of_singleton in Hm as ->.
      right. rewrite length_take, Hlen. lia.
    + (* 19 digits or more: a match of 19, then the rest *)
      replace (n `min` 19) with 19 by lia.
      destruct (IH (n - 19)) with (s := drop 18 s) as [IHlen IHm];
        [lia|by apply Forall_drop|rewrite length_drop; lia|].
      assert (n = (n - 19) + 1 * 19) as Hn by lia.
      assert (n mod 19 = (n - 19) mod 19) as Hmod
        by (rewrite Hn at 1; apply Nat.Div0.mod_add).
      assert (n / 19 = (n - 19) / 19 + 1) as Hdiv
        by (rewrite Hn at 1; apply Nat.div_add; lia).
      rewrite Hmod, Hdiv. change (19 - 1) with 18. simpl length. rewrite IHlen.
      split; [lia|].
      intros m Hm. apply elem_of_cons in Hm as [->|Hm]; [|by apply IHm].
      left. rewrite length_take, Hlen. lia.
Qed.

(** X20: an input of [n] digits and nothing else is cut into ids of 19
    digits from the left, the rest being an id when it has 17 or 18
    digits: there are [n / 19] ids, and one more when [n mod 19] is at
    least 17.  So a number of more than 19 digits is not refused: its
    first 19 digits are taken as an id. *)
Theorem matchAll_digits (s : string) :
  all_digits s →
  length (matchAll s)
  = String.length s / 19 + (if 17 <=? String.length s mod 19 then 1 else 0)
  ∧ (∀ id, id ∈ matchAll s →
       String.length id = 19 ∨ String.length id = String.length s mod 19)
  ∧ (19 ≤ String.length s →
     head (matchAll s) = Some (string_of_list_ascii (take 19 (list_ascii_of_string s)))).
Proof.
  intros Hd. unfold matchAll.
  destruct (scan_digits (String.length s) (list_ascii_of_string s) Hd
              (length_list_ascii_of_string s)) as [Hlen Hm].
  split; [by rewrite length_fmap|]. split.
  - intros id Hin. apply list_elem_of_fmap in Hin as (m & -> & Hin).
    rewrite <- length_list_ascii_of_string, list_ascii_of_string_of_list_ascii.
    by apply Hm.
  - intros Hlong. rewrite <- length_list_ascii_of_string in Hlong.
    pose proof (digit_run_all_digits _ Hd) as Hrun.
    destruct (list_ascii_of_string s) as [|c l] eqn:Hs; [simpl in Hlong; lia|].
    rewrite scan_cons. unfold match_here. rewrite Hrun.
    replace (length (c :: l) `min` 19) with 19 by lia. done.
Qed.

Lemma matchAll_digits_witness :
  length (matchAll "12345678901234567890")
  = String.length "12345678901234567890" / 19
    + (if 17 <=? String.length "12345678901234567890" mod 19 then 1 else 0)
  ∧ (∀ id, id ∈ matchAll "12345678901234567890" →
       String.length id = 19
       ∨ String.length id = String.length "12345678901234567890" mod 19)
  ∧ (19 ≤ String.length "12345678901234567890" →
     head (matchAll "12345678901234567890")
     = Some (string_of_list_ascii
               (take 19 (list_ascii_of_string "12345678901234567890")))).
Proof.
  apply (matchAll_digits "12345678901234567890").
  unfold all_digits. simpl. repeat constructor.
Defined.

Lemma digit_run_app_ge (m post : list ascii) :
  Forall (λ c, is_digit c = true) m → length m ≤ digit_run (m ++ post).
Proof.
  induction 1 as [|c m Hc _ IH]; simpl; [lia|]. rewrite Hc. lia.
Qed.

Lemma scan_nonempty_iff (s : list ascii) :
  scan 0 s ≠ [] ↔ ∃ pre post, s = pre ++ post ∧ 17 ≤ digit_run post.
Proof.
  split.
  - intros Hne. destruct (scan 0 s) as [|m ms] eqn:Hscan; [done|].
    assert (m ∈ scan 0 s) as Hin by (rewrite Hscan; apply list_elem_of_here).
    apply scan_matches in Hin as (Hd & Hlen & pre & post & ->).
    exists pre, (m ++ post). split; [done|].
    pose proof (digit_run_app_ge m post Hd). lia.
  - intros (pre & post & -> & Hrun).
    induction pre as [|c pre IH].
    + simpl. destruct post as [|c post]; [simpl in Hrun; lia|].
      rewrite scan_cons. unfold match_here.
      replace (17 <=? digit_run (c :: post) `min` 19) with true
        by (symmetry; apply Nat.leb_le; lia).
      done.
    + rewrite <- app_comm_cons, scan_cons.
      destruct (match_here (c :: pre ++ post)); [done|exact IH].
Qed.

(** X21: [/starboard] finds an id in the channels input exactly when the
    input has 17 digits in a row somewhere; without such a run it replies
    that no valid text channel was found, whatever the guild, and saves
    nothing. *)
Theorem extract_ids_nonempty_iff (i : StarboardInteraction) :
  (extract_ids (si_channels i) ≠ []
   ↔ ∃ pre post, si_channels i = pre +:+ post
                 ∧ 17 ≤ digit_run (list_ascii_of_string post))
  ∧ ((¬ ∃ pre post, si_channels i = pre +:+ post
                    ∧ 17 ≤ digit_run (list_ascii_of_string post)) →
     ∀ w, starboard_execute i w
          = (if si_reply_ok i then Value tt else Thrown ApiError, w,
             [Reply no_valid_channels false])).
Proof.
  assert (extract_ids (si_channels i) ≠ []
          ↔ ∃ pre post, si_channels i = pre +:+ post
                        ∧ 17 ≤ digit_run (list_ascii_of_string post)) as Hiff.
  { assert (extract_ids (si_channels i) ≠ [] ↔ matchAll (si_channels i) ≠ []) as ->.
    { split; intros Hne Hnil; apply Hne.
      - destruct (extract_ids (si_channels i)) as [|id ids] eqn:He; [done|].
        assert (id ∈ matchAll (si_channels i)) as Hin.
        { apply extract_ids_elem_of. rewrite He. apply list_elem_of_here. }
        rewrite Hnil in Hin. by apply elem_of_nil in Hin.
      - destruct (matchAll (si_channels i)) as [|id ids] eqn:He; [done|].
        assert (id ∈ extract_ids (si_channels i)) as Hin.
        { apply extract_ids_elem_of. rewrite He. apply list_elem_of_here. }
        rewrite Hnil in Hin. by apply elem_of_nil in Hin. }
    unfold matchAll.
    assert (∀ l : list (list ascii), string_of_list_ascii <$> l ≠ [] ↔ l ≠ []) as ->
      by (by intros []).
    rewrite scan_nonempty_iff. split.
    - intros (pre & post & Hs & Hrun).
      exists (string_of_list_ascii pre), (string_of_list_ascii post).
      rewrite list_ascii_of_string_of_list_ascii. split; [|done].
      by rewrite <- string_of_list_ascii_app, <- Hs, string_of_list_ascii_of_string.
    - intros (pre & post & Hs & Hrun).
      exists (list_ascii_of_string pre), (list_ascii_of_string post).
      split; [|done]. by rewrite Hs, list_ascii_of_string_app. }
  split; [done|].
  intros Hnone w. apply starboard_no_valid_channel. unfold validChannelIds.
  destruct (extract_ids (si_channels i)) as [|id ids] eqn:He; [done|].
  exfalso. apply Hnone, Hiff. by rewrite ?He.
Qed.

(** ** The commands that are loaded *)

Lemma load_files_spec (folder : string) (files : list (string * option CommandModule))
    (commands commands' : gmap string CommandModule) (log log' : list LoadLine) :
  load_files folder files commands log = Some (commands', log') →
  (∀ n m, commands' !! n = Some m →
     commands !! n = Some m
     ∨ ∃ file, (file, Some m) ∈ files ∧ command_name m = Some n ∧ cm_execute m = true)
  ∧ (∀ n, is_Some (commands !! n) → is_Some (commands' !! n))
  ∧ (∀ file m n, (file, Some m) ∈ files → command_name m = Some n →
       cm_execute m = true → is_Some (commands' !! n))
  ∧ (∀ file, (file, None) ∉ files)
  ∧ length log' = length log + length files.
Proof.
  revert commands log. induction files as [|[file required] files IH];
    intros commands log Hload; simpl in Hload.
  - injection Hload as <- <-. split; [by left|]. split; [done|].
    split; [by intros ??? Hin%elem_of_nil|]. split; [by intros ? Hin%elem_of_nil|].
    simpl. lia.
  - destruct required as [m0|]; [|done].
    assert (∀ commands1 log1,
              load_files folder files commands1 log1 = Some (commands', log') →
              length log1 = S (length log) →
              (∀ n, is_Some (commands !! n) → is_Some (commands1 !! n)) →
              (∀ n m, commands1 !! n = Some m →
                 commands !! n = Some m
                 ∨ (m = m0 ∧ command_name m0 = Some n ∧ cm_execute m0 = true)) →
              (∀ n, command_name m0 = Some n → cm_execute m0 = true →
                    is_Some (commands1 !! n)) →
              (∀ n m, commands' !! n = Some m →
                 commands !! n = Some m
                 ∨ ∃ file', (file', Some m) ∈ (file, Some m0) :: files
                            ∧ command_name m = Some n ∧ cm_execute m = true)
              ∧ (∀ n, is_Some (commands !! n) → is_Some (commands' !! n))
              ∧ (∀ file' m n, (file', Some m) ∈ (file, Some m0) :: files →
                   command_name m = Some n → cm_execute m = true →
                   is_Some (commands' !! n))
              ∧ (∀ file', (file', None) ∉ (file, Some m0) :: files)
              ∧ length log' = length log + length ((file, Some m0) :: files)) as Hstep.
    { intros commands1 log1 Hrest Hlog Hmono Hfrom Hnew.
      destruct (IH _ _ Hrest) as (Hs & Hm & Hc & Hn & Hl).
      split; [|split; [|split; [|split]]].
      - intros n m Hlook. destruct (Hs n m Hlook) as [Hold|(file' & Hin & Hname & Hex)].
        + destruct (Hfrom n m Hold) as [?|(-> & Hname & Hex)]; [by left|].
          right. exists file. split; [apply list_elem_of_here|done].
        + right. exists file'. split; [by apply list_elem_of_further|done].
      - intros n Hn'. by apply Hm, Hmono.
      - intros file' m n Hin Hname Hex.
        apply elem_of_cons in Hin as [[= -> ->]|Hin].
        + by apply Hm, Hnew.
        + by eapply Hc.
      - intros file' Hin. apply elem_of_cons in Hin as [Hin|Hin]; [done|].
        by apply Hn in Hin.
      - simpl. lia. }
    destruct (command_name m0) as [name|] eqn:Hname.
    + destruct (cm_execute m0) eqn:Hex.
      * apply (Hstep _ _ Hload).
        -- rewrite length_app. simpl. lia.
        -- intros n Hn. destruct (decide (name = n)) as [->|Hne].
           ++ rewrite lookup_insert_eq. by eexists.
           ++ by rewrite lookup_insert_ne.
        -- intros n m Hlook. destruct (decide (name = n)) as [->|Hne].
           ++ rewrite lookup_insert_eq in Hlook. injection Hlook as <-. by right.
           ++ rewrite lookup_insert_ne in Hlook by done. by left.
        -- intros n [= <-] _. rewrite lookup_insert_eq. by eexists.
      * apply (Hstep _ _ Hload); [rewrite length_app; simpl; lia|done|by left|done].
    + apply (Hstep _ _ Hload); [rewrite length_app; simpl; lia|done|by left|done].
Qed.

Lemma loader_files_elem_of (entry : DirEntry) (file : string)
    (required : option CommandModule) :
  (file, required) ∈ loader_files entry
  ↔ (file, required) ∈ de_files entry
    ∧ endsWith file ".ts" || endsWith file ".js" = true.
Proof.
  unfold loader_files. by rewrite list_elem_of_In, filter_In, <- list_elem_of_In.
Qed.

Lemma load_files_fails (folder : string) (files : list (string * option CommandModule))
    (commands : gmap string CommandModule) (log : list LoadLine) :
  load_files folder files commands log = None → ∃ file, (file, None) ∈ files.
Proof.
  revert commands log. induction files as [|[file required] files IH];
    intros commands log Hload; simpl in Hload; [done|].
  destruct required as [m|]; [|exists file; apply list_elem_of_here].
  assert (∀ c l, load_files folder files c l = None →
                 ∃ file', (file', None) ∈ (file, Some m) :: files) as Hrest.
  { intros c l Hnone. destruct (IH _ _ Hnone) as [file' Hin].
    exists file'. by apply list_elem_of_further. }
  destruct (command_name m); [destruct (cm_execute m)|]; by eapply Hrest.
Qed.

Lemma load_folders_spec (entries : list DirEntry)
    (commands commands' : gmap string CommandModule) (log log' : list LoadLine) :
  load_folders entries commands log = Some (commands', log') →
  (∀ n m, commands' !! n = Some m →
     commands !! n = Some m
     ∨ ∃ file, loader_takes entries file (Some m)
               ∧ command_name m = Some n ∧ cm_execute m = true)
  ∧ (∀ n, is_Some (commands !! n) → is_Some (commands' !! n))
  ∧ (∀ file m n, loader_takes entries file (Some m) → command_name m = Some n →
       cm_execute m = true → is_Some (commands' !! n))
  ∧ (∀ file, ¬ loader_takes entries file None)
  ∧ length log' = length log + length (loader_candidates entries).
Proof.
  revert commands log. induction entries as [|entry entries IH];
    intros commands log Hload; simpl in Hload.
  - injection Hload as <- <-. split; [by left|]. split; [done|].
    split; [by intros ??? (e & Hin%elem_of_nil & _)|].
    split; [by intros ? (e & Hin%elem_of_nil & _)|]. simpl. lia.
  - assert (∀ file required,
              loader_takes (entry :: entries) file required
              ↔ (de_isDirectory entry = true ∧ (file, required) ∈ loader_files entry)
                ∨ loader_takes entries file required) as Htakes.
    { intros file required. unfold loader_takes. split.
      - intros (e & Hin & Hdir & Hfile & Hsuf).
        apply elem_of_cons in Hin as [->|Hin].
        + left. split; [done|]. by apply loader_files_elem_of.
        + right. by exists e.
      - intros [[Hdir Hin]|(e & Hin & Hrest)].
        + apply loader_files_elem_of in Hin as [Hfile Hsuf].
          exists entry. split; [apply list_elem_of_here|done].
        + exists e. split; [by apply list_elem_of_further|done]. }
    unfold loader_candidates. simpl List.filter.
    destruct (de_isDirectory entry) eqn:Hdir; simpl in Hload.
    + destruct (load_files (de_name entry) (loader_files entry) commands log)
        as [[commands1 log1]|] eqn:Hfiles; [|done].
      destruct (load_files_spec _ _ _ _ _ _ Hfiles) as (Hs1 & Hm1 & Hc1 & Hn1 & Hl1).
      destruct (IH _ _ Hload) as (Hs & Hm & Hc & Hn & Hl).
      split; [|split; [|split; [|split]]].
      * intros n m Hlook. destruct (Hs n m Hlook) as [Hold|(file & Ht & Hname & Hex)].
        -- destruct (Hs1 n m Hold) as [?|(file & Hin & Hname & Hex)]; [by left|].
           right. exists file. split; [|done]. apply Htakes. by left.
        -- right. exists file. split; [|done]. apply Htakes. by right.
      * intros n Hn'. by apply Hm, Hm1.
      * intros file m n Ht Hname Hex. apply Htakes in Ht as [[_ Hin]|Ht].
        -- apply Hm. by eapply Hc1.
        -- by eapply Hc.
      * intros file Ht. apply Htakes in Ht as [[_ Hin]|Ht].
        -- by apply Hn1 in Hin.
        -- by apply Hn in Ht.
      * simpl. rewrite length_app. fold (loader_candidates entries). lia.
    + destruct (IH _ _ Hload) as (Hs & Hm & Hc & Hn & Hl).
      split; [|split; [|split; [|split]]].
      * intros n m Hlook. destruct (Hs n m Hlook) as [?|(file & Ht & Hname & Hex)];
          [by left|].
        right. exists file. split; [|done]. apply Htakes. by right.
      * done.
      * intros file m n Ht Hname Hex. apply Htakes in Ht as [[? _]|Ht]; [done|].
        by eapply Hc.
      * intros file Ht. apply Htakes in Ht as [[? _]|Ht]; [done|]. by apply Hn in Ht.
      * done.
Qed.

Lemma load_folders_fails (entries : list DirEntry)
    (commands : gmap string CommandModule) (log : list LoadLine) :
  load_folders entries commands log = None → ∃ file, loader_takes entries file None.
Proof.
  revert commands log. induction entries as [|entry entries IH];
    intros commands log Hload; simpl in Hload; [done|].
  assert (∀ c l, load_folders entries c l = None →
                 ∃ file, loader_takes (entry :: entries) file None) as Hrest.
  { intros c l Hnone. destruct (IH _ _ Hnone) as (file & e & Hin & Hr).
    exists file, e. split; [by apply list_elem_of_further|done]. }
  destruct (de_isDirectory entry) eqn:Hdir; simpl in Hload; [|by eapply Hrest].
  destruct (load_files (de_name entry) (loader_files entry) commands log)
    as [[commands1 log1]|] eqn:Hfiles; [by eapply Hrest|].
  destruct (load_files_fails _ _ _ _ Hfiles) as [file Hin].
  apply loader_files_elem_of in Hin as [Hfile Hsuf].
  exists file, entry. split; [apply list_elem_of_here|done].
Qed.

(** X22: what the bot knows after start-up: a command name is in
    [client.commands] exactly when some file with the suffix [.ts] or
    [.js] in a subdirectory of [commands/] exports a [data] with that name
    and a function [execute]; the module kept under a name has that name
    and an [execute], and the console gets one line for each file taken. *)
Theorem loadCommands_known_iff (entries : list DirEntry)
    (commands : gmap string CommandModule) (log : list LoadLine) :
  loadCommands (Some entries) = Some (commands, log) →
  (∀ n, is_Some (commands !! n)
        ↔ ∃ file m, loader_takes entries file (Some m)
                    ∧ command_name m = Some n ∧ cm_execute m = true)
  ∧ (∀ n m, commands !! n = Some m → command_name m = Some n ∧ cm_execute m = true)
  ∧ length log = length (loader_candidates entries).
Proof.
  unfold loadCommands. intros Hload.
  destruct (load_folders_spec _ _ _ _ _ Hload) as (Hs & _ & Hc & _ & Hl).
  split; [|split; [|done]].
  - intros n. split.
    + intros [m Hlook]. destruct (Hs n m Hlook) as [Hempty|(file & Ht & Hname & Hex)].
      * by rewrite lookup_empty in Hempty.
      * by exists file, m.
    + intros (file & m & Ht & Hname & Hex). by eapply Hc.
  - intros n m Hlook. destruct (Hs n m Hlook) as [Hempty|(file & Ht & Hname & Hex)];
      [by rewrite lookup_empty in Hempty|done].
Qed.

(** X23: start-up ends in the loader exactly when [commands/] is missing
    or [require] throws on a file that the loader takes. *)
Theorem loadCommands_fails_iff (root : option (list DirEntry)) :
  loadCommands root = None
  ↔ root = None ∨ ∃ entries file, root = Some entries ∧ loader_takes entries file None.
Proof.
  split.
  - destruct root as [entries|]; [|by left]. simpl. intros Hload. right.
    destruct (load_folders_fails _ _ _ Hload) as [file Ht]. by exists entries, file.
  - intros [->|(entries & file & -> & Ht)]; [done|].
    destruct (loadCommands (Some entries)) as [[commands log]|] eqn:Hload; [|done].
    unfold loadCommands in Hload.
    destruct (load_folders_spec _ _ _ _ _ Hload) as (_ & _ & _ & Hn & _).
    by apply Hn in Ht.
Qed.

(** ** The commands that are registered *)

Lemma deploy_files_spec (files : list (string * option CommandModule))
    (commands commands' : list CommandData) :
  deploy_files files commands = Some commands' →
  (∀ d, d ∈ commands'
        ↔ d ∈ commands ∨ ∃ file m, (file, Some m) ∈ files ∧ cm_data m = Some d)
  ∧ (∀ file, (file, None) ∉ files).
Proof.
  revert commands. induction files as [|[file required] files IH];
    intros commands Hdeploy; simpl in Hdeploy.
  - injection Hdeploy as <-. split; [|by intros ? ?%elem_of_nil].
    intros d. split; [by left|]. by intros [?|(? & ? & ?%elem_of_nil & _)].
  - destruct required as [m|]; [|done].
    assert (∀ c, (∀ d, d ∈ c ↔ d ∈ commands ∨ cm_data m = Some d) →
                 deploy_files files c = Some commands' →
                 (∀ d, d ∈ commands'
                       ↔ d ∈ commands
                         ∨ ∃ file' m', (file', Some m') ∈ (file, Some m) :: files
                                       ∧ cm_data m' = Some d)
                 ∧ (∀ file', (file', None) ∉ (file, Some m) :: files)) as Hstep.
    { intros c Hc Hrest. destruct (IH _ Hrest) as [Hin Hnone]. split.
      - intros d. rewrite Hin, Hc. split.
        + intros [[?|Hd]|(file' & m' & Hf & Hd)]; [by left| |].
          * right. exists file, m. split; [apply list_elem_of_here|done].
          * right. exists file', m'. split; [by apply list_elem_of_further|done].
        + intros [?|(file' & m' & Hf & Hd)]; [by left; left|].
          apply elem_of_cons in Hf as [[= -> ->]|Hf]; [by left; right|].
          right. by exists file', m'.
      - intros file' Hf. apply elem_of_cons in Hf as [[=]|Hf]. by apply Hnone in Hf. }
    destruct (cm_data m) as [command|] eqn:Hdata.
    + apply (Hstep (commands ++ [command])); [|done].
      intros d. rewrite elem_of_app, list_elem_of_singleton. split.
      * intros [?| ->]; [by left|by right].
      * intros [?|[= ->]]; [by left|by right].
    + apply (Hstep commands); [|done]. intros d. split; [by left|].
      by intros [?|?].
Qed.

Lemma deploy_folders_spec (entries : list DirEntry) (folders : list string)
    (commands commands' : list CommandData) :
  deploy_folders entries folders commands = Some commands' →
  (∀ d, d ∈ commands'
        ↔ d ∈ commands
          ∨ ∃ folder entry file m,
              folder ∈ folders ∧ lookup_entry entries folder = Some entry
              ∧ (file, Some m) ∈ de_files entry ∧ endsWith file ".ts" = true
              ∧ cm_data m = Some d)
  ∧ (∀ folder entry, folder ∈ folders → lookup_entry entries folder = Some entry →
       de_isDirectory entry = true).
Proof.
  revert commands. induction folders as [|folder folders IH];
    intros commands Hdeploy; simpl in Hdeploy.
  - injection Hdeploy as <-. split; [|by intros ?? ?%elem_of_nil].
    intros d. split; [by left|].
    by intros [?|(? & ? & ? & ? & ?%elem_of_nil & _)].
  - destruct (lookup_entry entries folder) as [entry|] eqn:Hlook.
    + destruct (de_isDirectory entry) eqn:Hdir; simpl in Hdeploy; [|done].
      destruct (deploy_files _ commands) as [commands1|] eqn:Hfiles; [|done].
      destruct (deploy_files_spec _ _ _ Hfiles) as [Hin1 _].
      destruct (IH _ Hdeploy) as [Hin Hdirs]. split.
      * intros d. rewrite Hin, Hin1. split.
        -- intros [[?|(file & m & Hf & Hd)]|(fo & e & file & m & Hfo & Hrest)];
             [by left| |].
           ++ apply list_elem_of_In, filter_In in Hf as [Hf Hsuf].
              apply list_elem_of_In in Hf. right. exists folder, entry, file, m.
              split; [apply list_elem_of_here|done].
           ++ right. exists fo, e, file, m.
              split; [by apply list_elem_of_further|done].
        -- intros [?|(fo & e & file & m & Hfo & Hl & Hf & Hsuf & Hd)]; [by left; left|].
           apply elem_of_cons in Hfo as [->|Hfo].
           ++ left. right. exists file, m. split; [|done].
              rewrite Hlook in Hl. injection Hl as <-.
              apply list_elem_of_In, filter_In. by rewrite <- list_elem_of_In.
           ++ right. by exists fo, e, file, m.
      * intros fo e Hfo Hl. apply elem_of_cons in Hfo as [->|Hfo]; [|by eapply Hdirs].
        rewrite Hlook in Hl. by injection Hl as <-.
    + destruct (IH _ Hdeploy) as [Hin Hdirs]. split.
      * intros d. rewrite Hin. split.
        -- intros [?|(fo & e & file & m & Hfo & Hrest)]; [by left|].
           right. exists fo, e, file, m. split; [by apply list_elem_of_further|done].
        -- intros [?|(fo & e & file & m & Hfo & Hl & Hrest)]; [by left|].
           apply elem_of_cons in Hfo as [->|Hfo]; [by rewrite Hlook in Hl|].
           right. by exists fo, e, file, m.
      * intros fo e Hfo Hl. apply elem_of_cons in Hfo as [->|Hfo]; [|by eapply Hdirs].
        by rewrite Hlook in Hl.
Qed.

Lemma lookup_entry_elem_of (entries : list DirEntry) (folder : string)
    (entry : DirEntry) :
  lookup_entry entries folder = Some entry → entry ∈ entries ∧ de_name entry = folder.
Proof.
  unfold lookup_entry. intros Hfind. apply find_some in Hfind as [Hin Hname].
  split; [by apply list_elem_of_In|]. by apply bool_decide_eq_true in Hname.
Qed.

Lemma deployCommands_spec (entries : list DirEntry) (body : list CommandData) :
  deployCommands (Some entries) = Some body →
  (∀ d, d ∈ body
        ↔ ∃ file m, deploy_takes entries file (Some m) ∧ cm_data m = Some d)
  ∧ (∀ file required, deploy_takes entries file required →
       loader_takes entries file required).
Proof.
  unfold deployCommands. simpl default. intros Hdeploy.
  destruct (deploy_folders_spec _ _ _ _ Hdeploy) as [Hin Hdirs]. split.
  - intros d. rewrite Hin. unfold deploy_takes. split.
    + intros [?%elem_of_nil|(fo & e & file & m & Hfo & Hl & Hf & Hsuf & Hd)]; [done|].
      exists file, m. split; [|done]. by exists fo, e.
    + intros (file & m & (fo & e & Hfo & Hl & Hf & Hsuf) & Hd).
      right. by exists fo, e, file, m.
  - intros file required (fo & e & Hfo & Hl & Hf & Hsuf).
    exists e. split; [by eapply lookup_entry_elem_of|].
    split; [by eapply Hdirs|]. split; [done|]. by rewrite Hsuf.
Qed.

(** X24: what the deploy script registers: the body it sends holds
    exactly the [data] of the files with the suffix [.ts] in the folders
    [members], [staff] and [management] whose module exports one; whether
    the module has an [execute] plays no part. *)
Theorem deployCommands_registers (entries : list DirEntry) (body : list CommandData) :
  deployCommands (Some entries) = Some body →
  ∀ d, d ∈ body ↔ ∃ file m, deploy_takes entries file (Some m) ∧ cm_data m = Some d.
Proof. intros Hdeploy. by apply deployCommands_spec. Qed.

Lemma deployCommands_registers_witness :
  ∃ body, deployCommands (Some SampleTree.entries) = Some body
          ∧ ∀ d, d ∈ body
                 ↔ ∃ file m, deploy_takes SampleTree.entries file (Some m)
                             ∧ cm_data m = Some d.
Proof.
  eexists. split; [vm_compute; reflexivity|].
  apply (deployCommands_registers SampleTree.entries). vm_compute. reflexivity.
Defined.

Lemma loadCommands_known_iff_witness :
  ∃ commands log,
    loadCommands (Some SampleTree.entries) = Some (commands, log)
    ∧ (∀ n, is_Some (commands !! n)
            ↔ ∃ file m, loader_takes SampleTree.entries file (Some m)
                        ∧ command_name m = Some n ∧ cm_execute m = true)
    ∧ (∀ n m, commands !! n = Some m → command_name m = Some n ∧ cm_execute m = true)
    ∧ length log = length (loader_candidates SampleTree.entries).
Proof.
  eexists _, _. split; [vm_compute; reflexivity|].
  apply (loadCommands_known_iff SampleTree.entries). vm_compute. reflexivity.
Defined.

(** X25: the two scripts on the same directory [commands/], when both
    get to their end: every file that the deploy script takes is a file
    that the loader takes, so a registered command whose module has a name
    and an [execute] is a command that the bot knows under that name. *)
Theorem registered_commands_are_loaded (entries : list DirEntry)
    (commands : gmap string CommandModule) (log : list LoadLine)
    (body : list CommandData) :
  loadCommands (Some entries) = Some (commands, log) →
  deployCommands (Some entries) = Some body →
  ∀ d, d ∈ body →
    ∃ file m, loader_takes entries file (Some m) ∧ cm_data m = Some d
              ∧ ∀ n, command_name m = Some n → cm_execute m = true →
                     is_Some (commands !! n).
Proof.
  intros Hload Hdeploy d Hd.
  destruct (deployCommands_spec _ _ Hdeploy) as [Hin Htakes].
  apply Hin in Hd as (file & m & Ht & Hdata). apply Htakes in Ht.
  exists file, m. split; [done|]. split; [done|]. intros n Hname Hex.
  unfold loadCommands in Hload.
  destruct (load_folders_spec _ _ _ _ _ Hload) as (_ & _ & Hc & _ & _).
  by eapply Hc.
Qed.

Lemma registered_commands_are_loaded_witness :
  ∃ commands log body,
    loadCommands (Some SampleTree.entries) = Some (commands, log)
    ∧ deployCommands (Some SampleTree.entries) = Some body
    ∧ mkCommandData (Some "warn") ∈ body
    ∧ ∃ file m, loader_takes SampleTree.entries file (Some m)
                ∧ cm_data m = Some (mkCommandData (Some "warn"))
                ∧ ∀ n, command_name m = Some n → cm_execute m = true →
                       is_Some (commands !! n).
Proof.
  eexists _, _, _. split; [vm_compute; reflexivity|].
  split; [vm_compute; reflexivity|].
  assert (mkCommandData (Some "warn")
          ∈ [mkCommandData (Some "ping"); mkCommandData (Some "warn");
             mkCommandData (Some "draft"); mkCommandData (Some "starboard")]) as Hin.
  { apply list_elem_of_further, list_elem_of_here. }
  split; [exact Hin|].
  eapply (registered_commands_are_loaded SampleTree.entries);
    [vm_compute; reflexivity|vm_compute; reflexivity|exact Hin].
Defined.
